(** * 1NB Analytics (src/analytics.js): a shallow embedding and its properties

    The script is a single immediately-invoked function that, on page load,
    derives a visitor and a session identity, classifies the navigation
    context, records one pageview in a JSON document kept in localStorage,
    and installs a handful of global recording functions.

    Modelling choices.
    - JavaScript values are the inductive [value]; JSON text is modelled by
      the tree it denotes ([json]), a storage slot by [text] (empty text,
      text that JSON.parse rejects, or text denoting a tree).
    - Objects are association lists in own-property insertion order.
    - Numbers are mathematical integers plus NaN.  IEEE rounding is exact on
      the integers the script handles (counters and millisecond clocks far
      below 2^52).
    - A computation either returns, throws, or leaves the modelled fragment
      ([Beyond] / [Unmodelled]): string-to-number coercions, properties
      inherited from the built-in prototypes, arrays carrying extra
      properties.  No statement is made about such runs.
    - The script mutates objects in place through aliases ([app] aliases
      [data.apps[appName]]); since a freshly parsed document is a tree, the
      model writes every mutated sub-object back along its access path. *)

From Stdlib Require Import List String Ascii ZArith NArith Bool Lia
  Permutation.
Import ListNotations.
Local Open Scope string_scope.
Local Open Scope Z_scope.
Set Warnings "-register-all".

(** ** JavaScript values and JSON trees *)

Module Js.

Inductive json : Type :=
| JNull
| JBool (b : bool)
| JNum (z : Z)
| JStr (s : string)
| JArr (l : list json)
| JObj (m : list (string * json)).

Inductive value : Type :=
| VUndef
| VNull
| VBool (b : bool)
| VNum (z : Z)
| VNaN
| VStr (s : string)
| VArr (l : list value)
| VObj (m : list (string * value))
| VSet (l : list value).

Inductive error : Type := TypeError | SyntaxError | QuotaExceededError.

(** Result of a computation that does not touch the browser stores. *)
Inductive res (A : Type) : Type :=
| Ok (a : A)
| Raise (e : error)
| Beyond.
Arguments Ok {A} a.
Arguments Raise {A} e.
Arguments Beyond {A}.

Definition rbind {A B} (r : res A) (k : A -> res B) : res B :=
  match r with
  | Ok a => k a
  | Raise e => Raise e
  | Beyond => Beyond
  end.

(** Own properties, in insertion order. *)
Fixpoint assoc_get {A} (m : list (string * A)) (k : string) : option A :=
  match m with
  | [] => None
  | (k', a) :: m' => if String.eqb k' k then Some a else assoc_get m' k
  end.

Fixpoint assoc_set {A} (m : list (string * A)) (k : string) (a : A)
  : list (string * A) :=
  match m with
  | [] => [(k, a)]
  | (k', a') :: m' =>
      if String.eqb k' k then (k', a) :: m' else (k', a') :: assoc_set m' k a
  end.

Definition keys {A} (m : list (string * A)) : list string := map fst m.

Definition mem_string (k : string) (l : list string) : bool :=
  existsb (String.eqb k) l.

(** Names every object inherits from Object.prototype, and the further ones
    numbers inherit from Number.prototype. *)
Definition object_proto_names : list string :=
  [ "constructor"; "__proto__"; "hasOwnProperty"; "isPrototypeOf";
    "propertyIsEnumerable"; "toLocaleString"; "toString"; "valueOf";
    "__defineGetter__"; "__defineSetter__"; "__lookupGetter__";
    "__lookupSetter__" ].

Definition number_proto_names : list string :=
  [ "toExponential"; "toFixed"; "toPrecision" ].

Definition inherited_name (k : string) : bool :=
  mem_string k (object_proto_names ++ number_proto_names).

Definition truthy (v : value) : bool :=
  match v with
  | VUndef | VNull | VNaN => false
  | VBool b => b
  | VNum z => negb (z =? 0)
  | VStr s => negb (String.eqb s EmptyString)
  | VArr _ | VObj _ | VSet _ => true
  end.

(** [o[k]] *)
Definition get_prop (o : value) (k : string) : res value :=
  match o with
  | VUndef | VNull => Raise TypeError
  | VObj m =>
      match assoc_get m k with
      | Some v => Ok v
      | None => if inherited_name k then Beyond else Ok VUndef
      end
  | VBool _ | VNum _ | VNaN => if inherited_name k then Beyond else Ok VUndef
  | VStr _ | VArr _ | VSet _ => Beyond
  end.

(** [o[k] = x] in strict mode: creating a property on a primitive throws. *)
Definition set_prop (o : value) (k : string) (x : value) : res value :=
  match o with
  | VUndef | VNull => Raise TypeError
  | VObj m =>
      if String.eqb k "__proto__" then Beyond else Ok (VObj (assoc_set m k x))
  | VBool _ | VNum _ | VNaN | VStr _ =>
      if String.eqb k "__proto__" then Beyond else Raise TypeError
  | VArr _ | VSet _ => Beyond
  end.

(** ToNumber, on the shapes where it needs no string parsing. *)
Definition to_number (v : value) : res value :=
  match v with
  | VUndef | VNaN => Ok VNaN
  | VNull => Ok (VNum 0)
  | VBool b => Ok (VNum (if b then 1 else 0))
  | VNum z => Ok (VNum z)
  | VStr _ | VArr _ | VObj _ | VSet _ => Beyond
  end.

Definition num_add (a b : value) : value :=
  match a, b with
  | VNum x, VNum y => VNum (x + y)
  | _, _ => VNaN
  end.

Definition num_sub (a b : value) : value :=
  match a, b with
  | VNum x, VNum y => VNum (x - y)
  | _, _ => VNaN
  end.

(** [a > b] on numbers; any comparison with NaN is false. *)
Definition num_gt (a b : value) : bool :=
  match a, b with
  | VNum x, VNum y => y <? x
  | _, _ => false
  end.

(** [a + b] where it adds; with a string or an object on either side it
    concatenates, which is left out of the fragment. *)
Definition js_plus (a b : value) : res value :=
  rbind (to_number a) (fun x => rbind (to_number b) (fun y => Ok (num_add x y))).

Definition js_minus (a b : value) : res value :=
  rbind (to_number a) (fun x => rbind (to_number b) (fun y => Ok (num_sub x y))).

(** The value stored by [x++]. *)
Definition js_incr (v : value) : res value :=
  rbind (to_number v) (fun x => Ok (num_add x (VNum 1))).

(** Math.round(a / b) on integers: the nearest integer, halves upwards. *)
Definition round_div (a b : Z) : Z := (2 * a + b) / (2 * b).

Definition js_round_div (a b : value) : res value :=
  rbind (to_number a) (fun x =>
  rbind (to_number b) (fun y =>
    match x, y with
    | VNum p, VNum q => if q =? 0 then Beyond else Ok (VNum (round_div p q))
    | _, _ => Ok VNaN
    end)).

(** SameValueZero on values that come out of one JSON.parse: primitives
    compare by value, every array or object is a reference of its own. *)
Definition same_value_zero (a b : value) : bool :=
  match a, b with
  | VUndef, VUndef | VNull, VNull | VNaN, VNaN => true
  | VBool x, VBool y => Bool.eqb x y
  | VNum x, VNum y => x =? y
  | VStr x, VStr y => String.eqb x y
  | _, _ => false
  end.

Definition set_has (l : list value) (x : value) : bool :=
  existsb (same_value_zero x) l.

(** [s.add(x)] *)
Definition set_add (l : list value) (x : value) : list value :=
  if set_has l x then l else l ++ [x].

(** [new Set(iterable)] *)
Definition set_of_list (l : list value) : list value :=
  fold_left set_add l [].

(** [a.slice(-n)] *)
Definition slice_last {A} (n : nat) (l : list A) : list A :=
  skipn (List.length l - n)%nat l.

(** JSON.stringify.  [flat = true] is the call with the replacer of
    [prepareForSave], which turns every Set into the array of its elements;
    [None] is the [undefined] result. *)
Fixpoint serialize (flat : bool) (v : value) : option json :=
  match v with
  | VUndef => None
  | VNull | VNaN => Some JNull
  | VBool b => Some (JBool b)
  | VNum z => Some (JNum z)
  | VStr s => Some (JStr s)
  | VArr l =>
      Some (JArr (map (fun x => match serialize flat x with
                                | Some j => j
                                | None => JNull
                                end) l))
  | VObj m =>
      Some (JObj ((fix members (m : list (string * value)) :=
                     match m with
                     | [] => []
                     | (k, x) :: m' =>
                         match serialize flat x with
                         | Some j => (k, j) :: members m'
                         | None => members m'
                         end
                     end) m))
  | VSet l =>
      if flat
      then Some (JArr (map (fun x => match serialize flat x with
                                     | Some j => j
                                     | None => JNull
                                     end) l))
      else Some (JObj [])
  end.

Definition ser_elem (flat : bool) (x : value) : json :=
  match serialize flat x with
  | Some j => j
  | None => JNull
  end.

Fixpoint ser_members (flat : bool) (m : list (string * value))
  : list (string * json) :=
  match m with
  | [] => []
  | (k, x) :: m' =>
      match serialize flat x with
      | Some j => (k, j) :: ser_members flat m'
      | None => ser_members flat m'
      end
  end.

(** The value JSON.parse builds: members are defined in text order, a
    repeated key overwrites the earlier one in place.  JavaScript
    enumerates integer-like names before the others; the association list
    keeps them where the text has them, so what is stated about the order
    of members is stated for trees without such names. *)
Fixpoint parse (j : json) : value :=
  match j with
  | JNull => VNull
  | JBool b => VBool b
  | JNum z => VNum z
  | JStr s => VStr s
  | JArr l => VArr (map parse l)
  | JObj m =>
      VObj ((fix define (m : list (string * json)) (acc : list (string * value)) :=
               match m with
               | [] => acc
               | (k, x) :: m' => define m' (assoc_set acc k (parse x))
               end) m [])
  end.

Fixpoint parse_members (m : list (string * json)) (acc : list (string * value))
  : list (string * value) :=
  match m with
  | [] => acc
  | (k, x) :: m' => parse_members m' (assoc_set acc k (parse x))
  end.

(** What a storage slot holds. *)
Inductive text : Type :=
| Blank
| Malformed
| Encoded (j : json).

(** JSON.parse(t) *)
Definition json_parse (t : text) : res value :=
  match t with
  | Blank | Malformed => Raise SyntaxError
  | Encoded j => Ok (parse j)
  end.

(** The string JSON.stringify(v) becomes once it is stored: [undefined] is
    stored as the text "undefined", which does not parse. *)
Definition stringify (v : value) : text :=
  match serialize false v with
  | Some j => Encoded j
  | None => Malformed
  end.

(** [s || alt] on a slot read. *)
Definition text_or (raw : option text) (alt : text) : text :=
  match raw with
  | None | Some Blank => alt
  | Some t => t
  end.

End Js.

(** ** The browser stores and the monad of script runs *)

Module Store.
Import Js.

(** localStorage carries the visitor slot (a raw string) and the analytics
    slot, sessionStorage the session slot.  A store that is full (or of zero
    quota, as in some private modes) rejects every setItem. *)
Record browser : Type := mkBrowser {
  visitor_slot : option string;
  analytics_slot : option text;
  session_slot : option text;
  local_full : bool;
  session_full : bool
}.

Inductive outcome (A : Type) : Type :=
| Returns (a : A) (b : browser)
| Throws (e : error) (b : browser)
| Unmodelled.
Arguments Returns {A} a b.
Arguments Throws {A} e b.
Arguments Unmodelled {A}.

Definition M (A : Type) : Type := browser -> outcome A.

Definition ret {A} (a : A) : M A := fun b => Returns a b.

Definition bind {A B} (m : M A) (k : A -> M B) : M B :=
  fun b =>
    match m b with
    | Returns a b' => k a b'
    | Throws e b' => Throws e b'
    | Unmodelled => Unmodelled
    end.

Definition lift {A} (r : res A) : M A :=
  fun b =>
    match r with
    | Ok a => Returns a b
    | Raise e => Throws e b
    | Beyond => Unmodelled
    end.

(** [try { m } catch { h }] *)
Definition try_catch {A} (m : M A) (h : M A) : M A :=
  fun b =>
    match m b with
    | Throws _ b' => h b'
    | o => o
    end.

Definition put_visitor (b : browser) (s : string) : browser :=
  mkBrowser (Some s) (analytics_slot b) (session_slot b)
            (local_full b) (session_full b).

Definition put_analytics (b : browser) (t : text) : browser :=
  mkBrowser (visitor_slot b) (Some t) (session_slot b)
            (local_full b) (session_full b).

Definition put_session (b : browser) (t : text) : browser :=
  mkBrowser (visitor_slot b) (analytics_slot b) (Some t)
            (local_full b) (session_full b).

Definition get_visitor : M (option string) :=
  fun b => Returns (visitor_slot b) b.

Definition set_visitor (s : string) : M unit :=
  fun b =>
    if local_full b then Throws QuotaExceededError b
    else Returns tt (put_visitor b s).

Definition get_analytics : M (option text) :=
  fun b => Returns (analytics_slot b) b.

Definition set_analytics (t : text) : M unit :=
  fun b =>
    if local_full b then Throws QuotaExceededError b
    else Returns tt (put_analytics b t).

Definition get_session : M (option text) :=
  fun b => Returns (session_slot b) b.

Definition set_session (t : text) : M unit :=
  fun b =>
    if session_full b then Throws QuotaExceededError b
    else Returns tt (put_session b t).

End Store.

Declare Scope js_scope.
Delimit Scope js_scope with js.
Notation "x <- m ;; k" := (Store.bind m (fun x => k))
  (at level 61, m at next level, right associativity) : js_scope.
Notation "m ;;; k" := (Store.bind m (fun _ => k))
  (at level 61, right associativity) : js_scope.
Notation "x <~ r ;; k" := (Js.rbind r (fun x => k))
  (at level 61, r at next level, right associativity) : js_scope.

(** ** The script *)

Module Analytics.
Import Js Store.
Local Open Scope js_scope.

(** *** String helpers of the host library *)

Definition slash : ascii := "/"%char.

(** [s.includes(sub)] *)
Fixpoint includes (s sub : string) : bool :=
  String.prefix sub s
  || match s with
     | EmptyString => false
     | String _ s' => includes s' sub
     end.

Definition strip_leading (p : string) : string :=
  match p with
  | String c p' => if Ascii.eqb c slash then p' else p
  | EmptyString => p
  end.

Fixpoint strip_trailing (p : string) : string :=
  match p with
  | EmptyString => EmptyString
  | String c p' =>
      match p' with
      | EmptyString => if Ascii.eqb c slash then EmptyString else p
      | String _ _ => String c (strip_trailing p')
      end
  end.

(** [p.split('/')[0]] *)
Fixpoint first_segment (p : string) : string :=
  match p with
  | EmptyString => EmptyString
  | String c p' =>
      if Ascii.eqb c slash then EmptyString else String c (first_segment p')
  end.

Definition digit36 (d : N) : ascii :=
  if (d <? 10)%N then ascii_of_N (48 + d) else ascii_of_N (87 + d).

Fixpoint base36_digits (fuel : nat) (n : N) (acc : string) : string :=
  match fuel with
  | O => acc
  | S fuel' =>
      let acc' := String (digit36 (n mod 36)) acc in
      if (n / 36 =? 0)%N then acc' else base36_digits fuel' (n / 36) acc'
  end.

(** [z.toString(36)] on integers *)
Definition base36 (z : Z) : string :=
  let n := Z.abs_N z in
  let digits := base36_digits (S (N.to_nat (N.size n))) n EmptyString in
  if z <? 0 then "-" ++ digits else digits.

(** *** Navigation context and clock *)

Record page : Type := mkPage {
  pathname : string;                 (* window.location.pathname *)
  search : list (string * string);   (* the parsed query string *)
  referrer : string                  (* document.referrer *)
}.

(** What the clock and the random generator give during one call:
    Date.now(), the date part of new Date().toISOString(), and the
    characters Math.random().toString(36).substr(2, 9) yields for the
    visitor and for the session identifier. *)
Record env : Type := mkEnv {
  now : Z;
  today : string;
  rand_visitor : string;
  rand_session : string
}.

Record utm_params : Type := mkUtm {
  source : string;
  medium : string;
  campaign : string
}.

Record context : Type := mkContext {
  visitorId : string;
  session : value;
  appName : string;
  dateKey : string;
  utm : utm_params;
  refCategory : string;
  pageLoadTime : Z
}.

(** *** Identity *)

Definition getVisitorId (e : env) : M string :=
  id <- get_visitor ;;
  match id with
  | Some s =>
      if negb (String.eqb s EmptyString) then ret s
      else
        let id := "v_" ++ rand_visitor e ++ base36 (now e) in
        set_visitor id ;;; ret id
  | None =>
      let id := "v_" ++ rand_visitor e ++ base36 (now e) in
      set_visitor id ;;; ret id
  end.

Definition session_timeout : Z := 30 * 60 * 1000.

Definition fresh_session (e : env) : value :=
  VObj [ ("id", VStr ("s_" ++ rand_session e));
         ("start", VNum (now e));
         ("lastActivity", VNum (now e));
         ("pageviews", VNum 0) ].

Definition getSession (e : env) : M value :=
  raw <- get_session ;;
  session <- lift (json_parse (text_or raw (Encoded JNull))) ;;
  expired <- lift (if negb (truthy session) then Ok true
                   else
                     la <~ get_prop session "lastActivity" ;;
                     gap <~ js_minus (VNum (now e)) la ;;
                     Ok (num_gt gap (VNum session_timeout))) ;;
  session <- ret (if expired : bool then fresh_session e else session) ;;
  session <- lift (set_prop session "lastActivity" (VNum (now e))) ;;
  pv <- lift (get_prop session "pageviews") ;;
  n <- lift (js_incr pv) ;;
  session <- lift (set_prop session "pageviews" n) ;;
  set_session (stringify session) ;;;
  ret session.

(** *** Classification *)

Definition getAppName (p : page) : string :=
  let path := strip_trailing (strip_leading (pathname p)) in
  if String.eqb path EmptyString || String.eqb path "index.html"
  then "_homepage"
  else first_segment path.

(** [params.get(k) || ''] *)
Definition param_or_empty (params : list (string * string)) (k : string)
  : string :=
  match assoc_get params k with
  | Some s => s
  | None => EmptyString
  end.

Definition getUtmParams (p : page) : utm_params :=
  mkUtm (param_or_empty (search p) "utm_source")
        (param_or_empty (search p) "utm_medium")
        (param_or_empty (search p) "utm_campaign").

Definition getReferrerCategory (p : page) : string :=
  let ref := referrer p in
  if String.eqb ref EmptyString then "direct"
  else if includes ref "onenightbuild.com" then "internal"
  else if includes ref "google." || includes ref "bing."
          || includes ref "duckduckgo." then "search"
  else if includes ref "twitter.com" || includes ref "x.com" then "twitter"
  else if includes ref "reddit.com" then "reddit"
  else if includes ref "facebook.com" || includes ref "instagram.com"
       then "social"
  else if includes ref "t.co" then "twitter"
  else "referral".

(** *** The store *)

Definition loadData : M value :=
  try_catch
    (raw <- get_analytics ;;
     lift (json_parse (text_or raw (Encoded (JObj [])))))
    (ret (VObj [])).

Definition saveData (data : value) : M unit :=
  try_catch (set_analytics (stringify data)) (ret tt).

Definition fresh_app (today : string) : value :=
  VObj [ ("firstSeen", VStr today);
         ("totalViews", VNum 0);
         ("uniqueVisitors", VSet []);
         ("dailyViews", VObj []);
         ("interactions", VObj []);
         ("sources", VObj []);
         ("avgTimeOnPage", VNum 0);
         ("totalTimeOnPage", VNum 0);
         ("completedSessions", VNum 0);
         ("shares", VNum 0);
         ("affiliateClicks", VNum 0) ].

(** Not a statement of the script: [o[k]] was mutated in place through an
    alias, and the parent is rebuilt around the mutated child. *)
Definition write_back (o : value) (k : string) (x : value) : res value :=
  match o with
  | VObj m => Ok (VObj (assoc_set m k x))
  | _ => Beyond
  end.

(** [app] aliases [data.apps[name]]. *)
Definition commit_app (data : value) (name : string) (app : value)
  : res value :=
  apps <~ get_prop data "apps" ;;
  apps <~ write_back apps name app ;;
  write_back data "apps" apps.

(** The "Sets don't survive JSON serialization" fix of ensureApp. *)
Definition repair_visitors (entry : value) : res value :=
  uv <~ get_prop entry "uniqueVisitors" ;;
  match uv with
  | VArr l => set_prop entry "uniqueVisitors" (VSet (set_of_list l))
  | VSet _ => Ok entry
  | _ => set_prop entry "uniqueVisitors" (VSet [])
  end.

(** Returns the document after the in-place repairs together with
    [data.apps[app]], the reference the script returns. *)
Definition ensureApp (today : string) (data : value) (app : string)
  : res (value * value) :=
  apps <~ get_prop data "apps" ;;
  data <~ (if negb (truthy apps) then set_prop data "apps" (VObj [])
           else Ok data) ;;
  apps <~ get_prop data "apps" ;;
  entry <~ get_prop apps app ;;
  apps <~ (if negb (truthy entry) then set_prop apps app (fresh_app today)
           else Ok apps) ;;
  data <~ write_back data "apps" apps ;;
  entry <~ get_prop apps app ;;
  entry <~ repair_visitors entry ;;
  data <~ commit_app data app entry ;;
  Ok (data, entry).

Definition prepareForSave (data : value) : res value :=
  apps <~ get_prop data "apps" ;;
  if negb (truthy apps) then Ok data
  else
    match serialize true data with
    | Some j => Ok (parse j)
    | None => Raise SyntaxError
    end.

(** *** Recording *)

(** [o[k] = (o[k] || 0) + 1] *)
Definition add_one (o : value) (k : string) : res value :=
  cur <~ get_prop o k ;;
  n <~ js_plus (if truthy cur then cur else VNum 0) (VNum 1) ;;
  set_prop o k n.

(** [if (!o[k]) o[k] = 0; o[k]++] *)
Definition count_up (o : value) (k : string) : res value :=
  cur <~ get_prop o k ;;
  o <~ (if negb (truthy cur) then set_prop o k (VNum 0) else Ok o) ;;
  cur <~ get_prop o k ;;
  n <~ js_incr cur ;;
  set_prop o k n.

(** [o.k++] *)
Definition incr_field (o : value) (k : string) : res value :=
  cur <~ get_prop o k ;;
  n <~ js_incr cur ;;
  set_prop o k n.

Definition sourceKey (c : context) : string :=
  if negb (String.eqb (source (utm c)) EmptyString) then source (utm c)
  else refCategory c.

Definition pageview_app (c : context) (app : value) : res value :=
  app <~ incr_field app "totalViews" ;;
  uv <~ get_prop app "uniqueVisitors" ;;
  uv <~ match uv with
        | VSet l => Ok (VSet (set_add l (VStr (visitorId c))))
        | _ => Raise TypeError
        end ;;
  app <~ write_back app "uniqueVisitors" uv ;;
  dv <~ get_prop app "dailyViews" ;;
  dv <~ add_one dv (dateKey c) ;;
  app <~ write_back app "dailyViews" dv ;;
  src <~ get_prop app "sources" ;;
  src <~ count_up src (sourceKey c) ;;
  write_back app "sources" src.

Definition fresh_global : value :=
  VObj [ ("totalViews", VNum 0); ("dailyViews", VObj []);
         ("uniqueVisitors", VArr []) ].

Definition pageview_global (c : context) (data : value) : res value :=
  g <~ get_prop data "global" ;;
  data <~ (if negb (truthy g) then set_prop data "global" fresh_global
           else Ok data) ;;
  g <~ get_prop data "global" ;;
  g <~ incr_field g "totalViews" ;;
  dv <~ get_prop g "dailyViews" ;;
  dv <~ add_one dv (dateKey c) ;;
  g <~ write_back g "dailyViews" dv ;;
  uv <~ get_prop g "uniqueVisitors" ;;
  uv <~ match uv with
        | VArr l =>
            Ok (VArr (if negb (set_has l (VStr (visitorId c)))
                      then l ++ [VStr (visitorId c)] else l))
        | VStr _ => Beyond
        | _ => Raise TypeError
        end ;;
  g <~ write_back g "uniqueVisitors" uv ;;
  write_back data "global" g.

(** The load / ensureApp / mutate / save cycle every recorder runs. *)
Definition with_app (c : context) (today : string)
    (mutate : value -> res value) (after : value -> res value) : M unit :=
  data <- loadData ;;
  p <- lift (ensureApp today data (appName c)) ;;
  app <- lift (mutate (snd p)) ;;
  data <- lift (commit_app (fst p) (appName c) app) ;;
  data <- lift (after data) ;;
  clean <- lift (prepareForSave data) ;;
  saveData clean.

(** The "Record pageview" block of the module body. *)
Definition record_pageview (c : context) (today : string) : M unit :=
  with_app c today (pageview_app c) (pageview_global c).

(** The module body up to the installation of the public functions: [None]
    when it returns at the admin guard. *)
Definition module_init (p : page) (e : env) : M (option context) :=
  visitorId <- getVisitorId e ;;
  session <- getSession e ;;
  let c := mkContext visitorId session (getAppName p) (today e)
                     (getUtmParams p) (getReferrerCategory p) (now e) in
  if String.eqb (appName c) "admin" then ret None
  else record_pageview c (today e) ;;; ret (Some c).

(** *** Public functions *)

Definition onbTrack_app (eventName : string) (app : value) : res value :=
  ints <~ get_prop app "interactions" ;;
  ints <~ count_up ints eventName ;;
  write_back app "interactions" ints.

Definition onbTrack (c : context) (today : string) (eventName : string)
  : M unit :=
  with_app c today (onbTrack_app eventName) Ok.

Definition onbAffiliateClick (c : context) (today : string)
    (productName : value) : M unit :=
  with_app c today
    (fun app =>
       app <~ incr_field app "affiliateClicks" ;;
       onbTrack_app "affiliate_click" app)
    Ok.

(** ['share_' + (platform || 'unknown')], [None] being an omitted argument *)
Definition share_key (platform : option string) : string :=
  "share_" ++ match platform with
              | Some s =>
                  if negb (String.eqb s EmptyString) then s else "unknown"
              | None => "unknown"
              end.

Definition onbShare (c : context) (today : string) (platform : option string)
  : M unit :=
  with_app c today
    (fun app =>
       app <~ incr_field app "shares" ;;
       onbTrack_app (share_key platform) app)
    Ok.

Definition is_undefined (v : value) : bool :=
  match v with
  | VUndef => true
  | _ => false
  end.

Definition score_record (c : context) (score maxScore : value) : value :=
  VObj [ ("score", score); ("max", maxScore); ("date", VStr (dateKey c)) ].

(** The [if (score !== undefined) { ... }] block, on [app.interactions]. *)
Definition record_score (c : context) (score maxScore : value) (ints : value)
  : res value :=
  if negb (is_undefined score) then
    cur <~ get_prop ints "scores" ;;
    ints <~ (if negb (truthy cur) then set_prop ints "scores" (VArr [])
             else Ok ints) ;;
    cur <~ get_prop ints "scores" ;;
    match cur with
    | VArr l =>
        let pushed := (l ++ [score_record c score maxScore])%list in
        if (100 <? List.length pushed)%nat
        then set_prop ints "scores" (VArr (slice_last 100 pushed))
        else write_back ints "scores" (VArr pushed)
    | _ => Ok ints
    end
  else Ok ints.

Definition onbComplete_app (c : context) (score maxScore : value)
    (app : value) : res value :=
  app <~ incr_field app "completedSessions" ;;
  ints <~ get_prop app "interactions" ;;
  ints <~ count_up ints "completed" ;;
  ints <~ record_score c score maxScore ints ;;
  write_back app "interactions" ints.

Definition onbComplete (c : context) (today : string) (score maxScore : value)
  : M unit :=
  with_app c today (onbComplete_app c score maxScore) Ok.

(** *** Time on page *)

Definition recordTime_app (timeSpent : Z) (app : value) : res value :=
  total <~ get_prop app "totalTimeOnPage" ;;
  total <~ js_plus total (VNum timeSpent) ;;
  app <~ set_prop app "totalTimeOnPage" total ;;
  cs <~ get_prop app "completedSessions" ;;
  app <~ set_prop app "completedSessions" (if truthy cs then cs else VNum 0) ;;
  tv <~ get_prop app "totalViews" ;;
  let viewCount := if truthy tv then tv else VNum 1 in
  total <~ get_prop app "totalTimeOnPage" ;;
  avg <~ js_round_div total viewCount ;;
  set_prop app "avgTimeOnPage" avg.

Definition recordTimeOnPage (c : context) (e : env) : M unit :=
  let timeSpent := round_div (now e - pageLoadTime c) 1000 in
  if (timeSpent <? 1) || (3600 <? timeSpent) then ret tt
  else with_app c (today e) (recordTime_app timeSpent) Ok.

End Analytics.

(** ** The persisted document, as the specification types it *)

Module Doc.
Import Js Store Analytics.

Definition vmap {A B} (f : A -> B) (m : list (string * A))
  : list (string * B) :=
  map (fun kv => (fst kv, f (snd kv))) m.

Fixpoint distinct (l : list string) : bool :=
  match l with
  | [] => true
  | k :: l' => negb (mem_string k l') && distinct l'
  end.

(** No object of the tree names a member twice: what every text written by
    JSON.stringify satisfies. *)
Fixpoint wf_json (j : json) : bool :=
  match j with
  | JArr l => forallb wf_json l
  | JObj m =>
      distinct (keys m)
      && (fix all (m : list (string * json)) :=
            match m with
            | [] => true
            | (_, x) :: m' => wf_json x && all m'
            end) m
  | _ => true
  end.

Fixpoint wf_members (m : list (string * json)) : bool :=
  match m with
  | [] => true
  | (_, x) :: m' => wf_json x && wf_members m'
  end.

(** The same for values in memory: an object has each own property once. *)
Fixpoint wf_value (v : value) : bool :=
  match v with
  | VArr l | VSet l => forallb wf_value l
  | VObj m =>
      distinct (keys m)
      && (fix all (m : list (string * value)) :=
            match m with
            | [] => true
            | (_, x) :: m' => wf_value x && all m'
            end) m
  | _ => true
  end.

Fixpoint wf_props (m : list (string * value)) : bool :=
  match m with
  | [] => true
  | (_, x) :: m' => wf_value x && wf_props m'
  end.

(** [jpath j p]: the member reached from [j] along the names [p]. *)
Fixpoint jpath (j : json) (p : list string) : option json :=
  match p with
  | [] => Some j
  | k :: p' =>
      match j with
      | JObj m =>
          match assoc_get m k with
          | Some x => jpath x p'
          | None => None
          end
      | _ => None
      end
  end.

(** What the analytics slot holds at a path. *)
Definition stored_at (b : browser) (p : list string) : option json :=
  match analytics_slot b with
  | Some (Encoded j) => jpath j p
  | _ => None
  end.

(** AppStats of the data model; [interactions] keeps its values as JSON
    since one key may hold a counter or a list. *)
Record AppStats : Type := mkStats {
  firstSeen : string;
  totalViews : Z;
  uniqueVisitors : list string;
  dailyViews : list (string * Z);
  interactions : list (string * json);
  sources : list (string * Z);
  avgTimeOnPage : Z;
  totalTimeOnPage : Z;
  completedSessions : Z;
  shares : Z;
  affiliateClicks : Z
}.

Record Global : Type := mkGlobal {
  g_totalViews : Z;
  g_dailyViews : list (string * Z);
  g_uniqueVisitors : list string
}.

Record Session : Type := mkSession {
  s_id : string;
  s_start : Z;
  s_lastActivity : Z;
  s_pageviews : Z
}.

(** The text form of an AppStats entry, members in creation order. *)
Definition jenc_app (a : AppStats) : json :=
  JObj [ ("firstSeen", JStr (firstSeen a));
         ("totalViews", JNum (totalViews a));
         ("uniqueVisitors", JArr (map JStr (uniqueVisitors a)));
         ("dailyViews", JObj (vmap JNum (dailyViews a)));
         ("interactions", JObj (interactions a));
         ("sources", JObj (vmap JNum (sources a)));
         ("avgTimeOnPage", JNum (avgTimeOnPage a));
         ("totalTimeOnPage", JNum (totalTimeOnPage a));
         ("completedSessions", JNum (completedSessions a));
         ("shares", JNum (shares a));
         ("affiliateClicks", JNum (affiliateClicks a)) ].

(** The entry in memory once ensureApp has rebuilt the visitor set. *)
Definition live_app (a : AppStats) : value :=
  VObj [ ("firstSeen", VStr (firstSeen a));
         ("totalViews", VNum (totalViews a));
         ("uniqueVisitors", VSet (map VStr (uniqueVisitors a)));
         ("dailyViews", VObj (vmap VNum (dailyViews a)));
         ("interactions", VObj (vmap parse (interactions a)));
         ("sources", VObj (vmap VNum (sources a)));
         ("avgTimeOnPage", VNum (avgTimeOnPage a));
         ("totalTimeOnPage", VNum (totalTimeOnPage a));
         ("completedSessions", VNum (completedSessions a));
         ("shares", VNum (shares a));
         ("affiliateClicks", VNum (affiliateClicks a)) ].

(** The entry as JSON.parse delivers it, the visitor set still an array. *)
Definition loaded_app (a : AppStats) : value :=
  VObj [ ("firstSeen", VStr (firstSeen a));
         ("totalViews", VNum (totalViews a));
         ("uniqueVisitors", VArr (map VStr (uniqueVisitors a)));
         ("dailyViews", VObj (vmap VNum (dailyViews a)));
         ("interactions", VObj (vmap parse (interactions a)));
         ("sources", VObj (vmap VNum (sources a)));
         ("avgTimeOnPage", VNum (avgTimeOnPage a));
         ("totalTimeOnPage", VNum (totalTimeOnPage a));
         ("completedSessions", VNum (completedSessions a));
         ("shares", VNum (shares a));
         ("affiliateClicks", VNum (affiliateClicks a)) ].

Definition jenc_global (g : Global) : json :=
  JObj [ ("totalViews", JNum (g_totalViews g));
         ("dailyViews", JObj (vmap JNum (g_dailyViews g)));
         ("uniqueVisitors", JArr (map JStr (g_uniqueVisitors g))) ].

Definition jenc_session (s : Session) : json :=
  JObj [ ("id", JStr (s_id s));
         ("start", JNum (s_start s));
         ("lastActivity", JNum (s_lastActivity s));
         ("pageviews", JNum (s_pageviews s)) ].

Definition stats_wf (a : AppStats) : bool :=
  distinct (keys (dailyViews a))
  && distinct (keys (sources a))
  && distinct (keys (interactions a))
  && wf_members (interactions a).

Definition global_wf (g : Global) : bool :=
  distinct (keys (g_dailyViews g)).

(** Visitor identifiers in order of first appearance. *)
Definition add_id (l : list string) (x : string) : list string :=
  if mem_string x l then l else l ++ [x].

Definition distinct_ids (l : list string) : list string :=
  fold_left add_id l [].

(** A counter map after one more hit on [k]. *)
Definition bump (m : list (string * Z)) (k : string) : list (string * Z) :=
  assoc_set m k (match assoc_get m k with
                 | Some z => z + 1
                 | None => 1
                 end).

Definition fresh_stats (today : string) : AppStats :=
  mkStats today 0 [] [] [] [] 0 0 0 0 0.

(** The entry ensureApp hands out: the stored one with its visitor array
    rebuilt as a set, or a new one. *)
Definition ensured (today : string) (entry : option AppStats) : AppStats :=
  match entry with
  | Some a =>
      mkStats (firstSeen a) (totalViews a) (distinct_ids (uniqueVisitors a))
              (dailyViews a) (interactions a) (sources a) (avgTimeOnPage a)
              (totalTimeOnPage a) (completedSessions a) (shares a)
              (affiliateClicks a)
  | None => fresh_stats today
  end.

(** The entry after a time-on-page flush of [t] seconds. *)
Definition time_recorded (a : AppStats) (t : Z) : AppStats :=
  let total := totalTimeOnPage a + t in
  mkStats (firstSeen a) (totalViews a) (uniqueVisitors a) (dailyViews a)
          (interactions a) (sources a)
          (round_div total (if totalViews a =? 0 then 1 else totalViews a))
          total (completedSessions a) (shares a) (affiliateClicks a).

(** JSON values that JavaScript treats as false. *)
Definition falsy (j : json) : bool :=
  match j with
  | JNull => true
  | JBool b => negb b
  | JNum z => z =? 0
  | JStr s => String.eqb s EmptyString
  | JArr _ | JObj _ => false
  end.

(** The counter an interactions map holds under [k]: absent counts as 0. *)
Definition counter_at (m : list (string * json)) (k : string) : option Z :=
  match assoc_get m k with
  | None => Some 0
  | Some (JNum z) => Some z
  | Some _ => None
  end.

(** The text form of one score record. *)
Definition jscore (date : string) (score maxScore : Z) : json :=
  JObj [ ("score", JNum score); ("max", JNum maxScore); ("date", JStr date) ].

(** The list kept after a push. *)
Definition kept (pushed : list json) : list json :=
  if (100 <? List.length pushed)%nat then slice_last 100 pushed else pushed.

(** [interactions] after the score block ran with record [r]. *)
Definition scores_update (ints : list (string * json)) (r : json)
  : list (string * json) :=
  match assoc_get ints "scores" with
  | None => assoc_set ints "scores" (JArr [r])
  | Some j =>
      if falsy j then assoc_set ints "scores" (JArr [r])
      else
        match j with
        | JArr l => assoc_set ints "scores" (JArr (kept (l ++ [r])))
        | _ => ints
        end
  end.

(** The entry after a completion with a score, [z] being the prior value of
    the [completed] counter. *)
Definition completed (a : AppStats) (z : Z) (r : json) : AppStats :=
  mkStats (firstSeen a) (totalViews a) (uniqueVisitors a) (dailyViews a)
          (scores_update (assoc_set (interactions a) "completed" (JNum (z + 1))) r)
          (sources a) (avgTimeOnPage a) (totalTimeOnPage a)
          (completedSessions a + 1) (shares a) (affiliateClicks a).

(** The score records an interactions map holds: none when the member is
    absent or falsy, undefined when it has another shape. *)
Definition score_list (ints : list (string * json)) : option (list json) :=
  match assoc_get ints "scores" with
  | None => Some []
  | Some (JArr l) => Some l
  | Some j => if falsy j then Some [] else None
  end.

(** The interactions a recorder finds: those stored, or none for a new
    entry. *)
Definition prior_interactions (entry : option AppStats)
  : list (string * json) :=
  match entry with
  | Some a => interactions a
  | None => []
  end.

(** One call of onbComplete with numeric arguments. *)
Record play : Type := mkPlay {
  play_today : string;
  play_score : Z;
  play_max : Z
}.

Definition play_record (c : context) (p : play) : json :=
  jscore (dateKey c) (play_score p) (play_max p).

Definition run_play (c : context) (p : play) : M unit :=
  onbComplete c (play_today p) (VNum (play_score p)) (VNum (play_max p)).

(** The global record as JSON.parse delivers it. *)
Definition loaded_global (g : Global) : value :=
  VObj [ ("totalViews", VNum (g_totalViews g));
         ("dailyViews", VObj (vmap VNum (g_dailyViews g)));
         ("uniqueVisitors", VArr (map VStr (g_uniqueVisitors g))) ].

(** The global record a pageview finds: the stored one, or a new one. *)
Definition prior_global (g : option Global) : Global :=
  match g with
  | Some g => g
  | None => mkGlobal 0 [] []
  end.

(** The entry and the global record after one pageview of context [c]. *)
Definition viewed (a : AppStats) (c : context) : AppStats :=
  mkStats (firstSeen a) (totalViews a + 1)
          (add_id (uniqueVisitors a) (visitorId c))
          (bump (dailyViews a) (dateKey c)) (interactions a)
          (bump (sources a) (sourceKey c)) (avgTimeOnPage a)
          (totalTimeOnPage a) (completedSessions a) (shares a)
          (affiliateClicks a).

Definition global_viewed (g : Global) (c : context) : Global :=
  mkGlobal (g_totalViews g + 1) (bump (g_dailyViews g) (dateKey c))
           (add_id (g_uniqueVisitors g) (visitorId c)).

(** One page load that reaches the pageview block. *)
Record visit : Type := mkVisit {
  visit_context : context;
  visit_today : string
}.

Definition run_visit (v : visit) : M unit :=
  record_pageview (visit_context v) (visit_today v).

(** The keys a visit writes under are ordinary property names. *)
Definition plain_visit (app : string) (v : visit) : bool :=
  String.eqb (appName (visit_context v)) app
  && negb (inherited_name (dateKey (visit_context v)))
  && negb (inherited_name (sourceKey (visit_context v))).

(** The visitors an entry already lists. *)
Definition prior_visitors (entry : option AppStats) : list string :=
  match entry with
  | Some a => uniqueVisitors a
  | None => []
  end.

Definition visitors_of (visits : list visit) : list string :=
  map (fun v => visitorId (visit_context v)) visits.

(** The session object as the script holds it. *)
Definition loaded_session (s : Session) : value :=
  VObj [ ("id", VStr (s_id s));
         ("start", VNum (s_start s));
         ("lastActivity", VNum (s_lastActivity s));
         ("pageviews", VNum (s_pageviews s)) ].

(** The session slot holds nothing the script takes for a session. *)
Definition session_absent (slot : option text) : bool :=
  match slot with
  | None | Some Blank => true
  | Some (Encoded j) => falsy j
  | Some Malformed => false
  end.

(** The slot holds the session [prior], or none. *)
Definition session_stored (slot : option text) (prior : option Session)
  : Prop :=
  match prior with
  | Some s => slot = Some (Encoded (jenc_session s))
  | None => session_absent slot = true
  end.

Definition new_session (e : env) : Session :=
  mkSession ("s_" ++ rand_session e) (now e) (now e) 1.

(** The session after one access at time [now e]. *)
Definition refreshed (e : env) (prior : option Session) : Session :=
  match prior with
  | Some s =>
      if session_timeout <? now e - s_lastActivity s then new_session e
      else mkSession (s_id s) (s_start s) (now e) (s_pageviews s + 1)
  | None => new_session e
  end.

(** The identifier getVisitorId settles on. *)
Definition visitor_after (e : env) (slot : option string) : string :=
  match slot with
  | Some s =>
      if negb (String.eqb s EmptyString) then s
      else "v_" ++ rand_visitor e ++ base36 (now e)
  | None => "v_" ++ rand_visitor e ++ base36 (now e)
  end.

(** A run leaves the analytics slot as it found it, however it ends. *)
Definition keeps_analytics {A} (m : M A) : Prop :=
  forall b,
    match m b with
    | Returns _ b' | Throws _ b' => analytics_slot b' = analytics_slot b
    | Unmodelled => True
    end.

(** Members of the document the slot text denotes for loadData. *)
Definition loaded_members (slot : option text)
  : option (list (string * json)) :=
  match slot with
  | None | Some Blank | Some Malformed => Some []
  | Some (Encoded (JObj m)) => Some m
  | Some (Encoded _) => None
  end.

(** The stored document is an object, well formed, whose [apps] member is
    absent or an object, in which [app] is absent or a typed entry. *)
Record view (slot : option text) (app : string)
    (top japps : list (string * json)) (entry : option AppStats) : Prop :=
  mkView {
    view_top : loaded_members slot = Some top;
    view_top_wf : wf_json (JObj top) = true;
    view_apps : (assoc_get top "apps" = None /\ japps = [])
                \/ assoc_get top "apps" = Some (JObj japps);
    view_entry : assoc_get japps app = option_map jenc_app entry;
    view_entry_wf : match entry with
                    | Some a => stats_wf a = true
                    | None => True
                    end;
    view_name : inherited_name app = false
  }.

(** The document after a cycle that left the entry as [a]. *)
Definition updated (top japps : list (string * json)) (app : string)
    (a : AppStats) : list (string * json) :=
  assoc_set top "apps" (JObj (assoc_set japps app (jenc_app a))).

(** The stored document after a pageview. *)
Definition pageviewed (top japps : list (string * json)) (app : string)
    (a : AppStats) (g : Global) : list (string * json) :=
  assoc_set (updated top japps app a) "global" (jenc_global g).

(** Running a recorder over a list of calls, in order. *)
Fixpoint each {A} (f : A -> M unit) (l : list A) : M unit :=
  match l with
  | [] => ret tt
  | x :: l' => bind (f x) (fun _ => each f l')
  end.

(** *** The referrer table, read off the specification *)

Definition referrer_rules : list (list string * string) :=
  [ (["onenightbuild.com"], "internal");
    (["google."; "bing."; "duckduckgo."], "search");
    (["twitter.com"; "x.com"], "twitter");
    (["reddit.com"], "reddit");
    (["facebook.com"; "instagram.com"], "social");
    (["t.co"], "twitter") ].

Fixpoint first_match (rules : list (list string * string)) (ref : string)
  : string :=
  match rules with
  | [] => "referral"
  | (hosts, category) :: rules' =>
      if existsb (includes ref) hosts then category
      else first_match rules' ref
  end.

Definition referrerCategory_spec (ref : string) : string :=
  if String.eqb ref EmptyString then "direct" else first_match referrer_rules ref.

(** *** The save / load-and-repair pair of the store *)

(** In memory, [data.apps[app]] is an object whose visitor set holds the
    identifiers [ids]. *)
Definition holds_visitor_set (data : value) (app : string)
    (ids : list string) : Prop :=
  exists m am em,
    data = VObj m
    /\ assoc_get m "apps" = Some (VObj am)
    /\ assoc_get am app = Some (VObj em)
    /\ assoc_get em "uniqueVisitors" = Some (VSet (map VStr ids)).

(** The text [saveData(prepareForSave(data))] hands to setItem. *)
Definition saved_text (data : value) : res text :=
  rbind (prepareForSave data) (fun clean => Ok (stringify clean)).

(** What a recorder holds after [loadData] and [ensureApp] on that text. *)
Definition reloaded (today : string) (t : text) (app : string)
  : res (value * value) :=
  rbind (json_parse t) (fun data => ensureApp today data app).

End Doc.

(** ** Concrete page loads used as test inputs *)

Module Sample.
Import Js Store Analytics Doc.

Definition clock : env :=
  mkEnv 1700000000000 "2026-11-03" "abcdefghi" "jklmnopqr".

(** Thirty minutes less one millisecond, and thirty minutes plus one
    millisecond, after [clock]. *)
Definition clock_within : env :=
  mkEnv 1700001799999 "2026-11-03" "zzzzzzzzz" "yyyyyyyyy".

Definition clock_beyond : env :=
  mkEnv 1700001800001 "2026-11-03" "zzzzzzzzz" "yyyyyyyyy".

Definition empty_browser : browser :=
  mkBrowser None None None false false.

(** A profile whose localStorage rejects every write. *)
Definition full_browser : browser :=
  mkBrowser None None None true false.

(** The analytics slot holds the text [null]. *)
Definition null_document_browser : browser :=
  mkBrowser (Some "v_abcdefghiloyw3v28") (Some (Encoded JNull)) None
            false false.

(** The session slot holds text that is not JSON. *)
Definition garbled_session_browser : browser :=
  mkBrowser (Some "v_abcdefghiloyw3v28") None (Some Malformed) false false.

Definition quiz_page : page :=
  mkPage "/quiz/" [] "https://www.google.com/".

Definition admin_page : page :=
  mkPage "/admin/anything" [] EmptyString.

Definition quiz_session : Session :=
  mkSession "s_jklmnopqr" 1700000000000 1700000000000 1.

(** The context the module body computes on [quiz_page] at [clock] in an
    empty profile. *)
Definition quiz_context : context :=
  mkContext "v_abcdefghiloyw3v28" (loaded_session quiz_session) "quiz"
            "2026-11-03" (mkUtm EmptyString EmptyString EmptyString) "search" 1700000000000.

(** The browser after the call [f], when it returns. *)
Definition after (f : M unit) (b : browser) : browser :=
  match f b with
  | Returns _ b' => b'
  | _ => b
  end.

(** The profile after loading [quiz_page], and after the host page then
    called [onbTrack('scores')]. *)
Definition quiz_loaded : browser :=
  match module_init quiz_page clock empty_browser with
  | Returns _ b => b
  | _ => empty_browser
  end.

Definition quiz_scores_counted : browser :=
  after (onbTrack quiz_context "2026-11-03" "scores") quiz_loaded.

(** [n] completions on one day with scores [first], [first + 1], ... out
    of 10. *)
Fixpoint plays_from (n : nat) (first : Z) : list play :=
  match n with
  | O => []
  | S n' => mkPlay "2026-11-03" first 10 :: plays_from n' (first + 1)
  end.

(** The typed reading of the document in [quiz_loaded]. *)
Definition quiz_stats : AppStats :=
  mkStats "2026-11-03" 1 ["v_abcdefghiloyw3v28"] [("2026-11-03", 1)] []
          [("search", 1)] 0 0 0 0 0.

Definition quiz_global : Global :=
  mkGlobal 1 [("2026-11-03", 1)] ["v_abcdefghiloyw3v28"].

Definition quiz_apps : list (string * json) :=
  [("quiz", jenc_app quiz_stats)].

Definition quiz_top : list (string * json) :=
  [("apps", JObj quiz_apps); ("global", jenc_global quiz_global)].

(** The same entry after [onbTrack('scores')]. *)
Definition quiz_counted_stats : AppStats :=
  mkStats "2026-11-03" 1 ["v_abcdefghiloyw3v28"] [("2026-11-03", 1)]
          [("scores", JNum 1)] [("search", 1)] 0 0 0 0 0.

Definition quiz_counted_apps : list (string * json) :=
  [("quiz", jenc_app quiz_counted_stats)].

Definition quiz_counted_top : list (string * json) :=
  [("apps", JObj quiz_counted_apps); ("global", jenc_global quiz_global)].

End Sample.

(** ** The lifecycle listeners *)

Module Hooks.
Import Js Store Analytics.

(** [window.addEventListener('beforeunload', recordTimeOnPage)] *)
Definition on_beforeunload (c : context) (e : env) : M unit :=
  recordTimeOnPage c e.

(** The visibilitychange listener, [hidden] being [document.hidden]. *)
Definition on_visibilitychange (c : context) (e : env) (hidden : bool)
  : M unit :=
  if hidden then recordTimeOnPage c e else ret tt.

(** The click listener.  [link] is [e.target.closest('a')]: [None] when the
    click has no enclosing anchor, otherwise the anchor's [href] string. *)
Definition on_click (c : context) (e : env) (link : option string) : M unit :=
  match link with
  | None => ret tt
  | Some href =>
      bind (if includes href "amazon.com" || includes href "amzn.to"
            then onbAffiliateClick c (today e) (VStr "amazon")
            else ret tt)
        (fun _ =>
           if includes href "http" && negb (includes href "onenightbuild.com")
           then onbTrack c (today e) "external_click"
           else ret tt)
  end.

End Hooks.

(** ** The recorders on a typed entry *)

Module Steps.
Import Js Store Analytics Doc Hooks.

(** The entry after onbTrack of [ev], [z] being the prior counter. *)
Definition tracked (a : AppStats) (ev : string) (z : Z) : AppStats :=
  mkStats (firstSeen a) (totalViews a) (uniqueVisitors a) (dailyViews a)
          (assoc_set (interactions a) ev (JNum (z + 1)))
          (sources a) (avgTimeOnPage a) (totalTimeOnPage a)
          (completedSessions a) (shares a) (affiliateClicks a).

Definition affiliate_clicked (a : AppStats) (z : Z) : AppStats :=
  mkStats (firstSeen a) (totalViews a) (uniqueVisitors a) (dailyViews a)
          (assoc_set (interactions a) "affiliate_click" (JNum (z + 1)))
          (sources a) (avgTimeOnPage a) (totalTimeOnPage a)
          (completedSessions a) (shares a) (affiliateClicks a + 1).

Definition shared (a : AppStats) (k : string) (z : Z) : AppStats :=
  mkStats (firstSeen a) (totalViews a) (uniqueVisitors a) (dailyViews a)
          (assoc_set (interactions a) k (JNum (z + 1)))
          (sources a) (avgTimeOnPage a) (totalTimeOnPage a)
          (completedSessions a) (shares a + 1) (affiliateClicks a).

(** The entry after onbComplete called without a score. *)
Definition completed_unscored (a : AppStats) (z : Z) : AppStats :=
  mkStats (firstSeen a) (totalViews a) (uniqueVisitors a) (dailyViews a)
          (assoc_set (interactions a) "completed" (JNum (z + 1)))
          (sources a) (avgTimeOnPage a) (totalTimeOnPage a)
          (completedSessions a + 1) (shares a) (affiliateClicks a).

(** A call of one of the four public functions, with numeric scores. *)
Inductive call : Type :=
| CallTrack (eventName : string)
| CallAffiliateClick (productName : value)
| CallShare (platform : option string)
| CallComplete (score : option Z) (maxScore : Z).

Definition score_value (score : option Z) : value :=
  match score with
  | Some z => VNum z
  | None => VUndef
  end.

Definition run_call (c : context) (today : string) (k : call) : M unit :=
  match k with
  | CallTrack ev => onbTrack c today ev
  | CallAffiliateClick p => onbAffiliateClick c today p
  | CallShare p => onbShare c today p
  | CallComplete s m => onbComplete c today (score_value s) (VNum m)
  end.

(** The entry a call leaves, when the counter it increments is absent or a
    number and its key an ordinary property name. *)
Definition step (c : context) (a : AppStats) (k : call) : option AppStats :=
  match k with
  | CallTrack ev =>
      if inherited_name ev then None
      else option_map (tracked a ev) (counter_at (interactions a) ev)
  | CallAffiliateClick _ =>
      option_map (affiliate_clicked a)
                 (counter_at (interactions a) "affiliate_click")
  | CallShare p =>
      option_map (shared a (share_key p))
                 (counter_at (interactions a) (share_key p))
  | CallComplete (Some s) m =>
      option_map (fun z => completed a z (jscore (dateKey c) s m))
                 (counter_at (interactions a) "completed")
  | CallComplete None _ =>
      option_map (completed_unscored a)
                 (counter_at (interactions a) "completed")
  end.

(** A sequence of calls, each with the date the clock shows at the call. *)
Fixpoint steps (c : context) (a : AppStats) (ks : list (string * call))
  : option AppStats :=
  match ks with
  | [] => Some a
  | (_, k) :: ks' =>
      match step c a k with
      | Some a' => steps c a' ks'
      | None => None
      end
  end.

Definition run_dated_call (c : context) (dk : string * call) : M unit :=
  run_call c (fst dk) (snd dk).

(** The sum of a counter map. *)
Fixpoint total (m : list (string * Z)) : Z :=
  match m with
  | [] => 0
  | (_, z) :: m' => z + total m'
  end.

(** The entry and the global record after the pageviews [vs]. *)
Definition visit_step (ag : AppStats * Global) (v : visit)
  : AppStats * Global :=
  (viewed (fst ag) (visit_context v),
   global_viewed (snd ag) (visit_context v)).

Definition after_visits (a : AppStats) (g : Global) (vs : list visit)
  : AppStats * Global :=
  fold_left visit_step vs (a, g).

(** The date the clock shows at the first of some pageviews. *)
Definition first_date (visits : list visit) : string :=
  match visits with
  | v :: _ => visit_today v
  | [] => EmptyString
  end.

(** The counter a counter map holds under [k]: absent counts as 0. *)
Definition count_at (m : list (string * Z)) (k : string) : Z :=
  match assoc_get m k with
  | Some z => z
  | None => 0
  end.

(** The source a page load is attributed to. *)
Definition attributed_source (p : page) : string :=
  if negb (String.eqb (param_or_empty (search p) "utm_source") EmptyString)
  then param_or_empty (search p) "utm_source"
  else getReferrerCategory p.

(** The entry a recorder starts from. *)
Definition prior_stats (today : string) (entry : option AppStats)
  : AppStats :=
  match entry with
  | Some a => a
  | None => fresh_stats today
  end.

(** Successive accesses to the session, each at its own clock reading. *)
Fixpoint sessions (es : list env) : M unit :=
  match es with
  | [] => ret tt
  | e :: es' => bind (getSession e) (fun _ => sessions es')
  end.

(** Every access comes within the timeout of the one before. *)
Fixpoint paced (last : Z) (es : list env) : bool :=
  match es with
  | [] => true
  | e :: es' => (now e - last <=? session_timeout) && paced (now e) es'
  end.

Definition last_now (last : Z) (es : list env) : Z :=
  fold_left (fun _ e => now e) es last.

(** A profile holding a document whose top level is a JSON primitive. *)
Definition primitive_document (j : json) : bool :=
  match j with
  | JNull | JBool _ | JNum _ => true
  | JStr _ | JArr _ | JObj _ => false
  end.

(** Member names made of decimal digits only.  They include every
    integer-like name ("0", "1", "42", ...), the names that JSON.parse and
    JSON.stringify list before all others, in ascending order, wherever the
    text has them; [assoc_set] keeps such a member where it was inserted. *)
Definition is_digit (a : ascii) : bool :=
  Nat.leb 48 (nat_of_ascii a) && Nat.leb (nat_of_ascii a) 57.

Fixpoint all_digits (s : string) : bool :=
  match s with
  | EmptyString => true
  | String a s' => is_digit a && all_digits s'
  end.

Definition digit_name (k : string) : bool :=
  negb (String.eqb k EmptyString) && all_digits k.

(** The stored trees that JSON.parse followed by JSON.stringify gives back
    as they were: no object has a member named by digits, so that the order
    in which JavaScript enumerates members is the order of the text, and
    every number is an integer a double holds exactly. *)
Fixpoint plain_json (j : json) : bool :=
  match j with
  | JNum z => Z.abs z <=? 9007199254740991
  | JArr l => forallb plain_json l
  | JObj m =>
      (fix all (m : list (string * json)) :=
         match m with
         | [] => true
         | (k, x) :: m' => negb (digit_name k) && plain_json x && all m'
         end) m
  | _ => true
  end.

(** Sample inputs. *)
Definition amazon_link : string := "https://www.amazon.com/dp/B000".

Definition own_affiliate_link : string :=
  "https://onenightbuild.com/go?to=amzn.to/x".

Definition own_link : string := "https://onenightbuild.com/quiz/".

Definition hidden_clock : env :=
  mkEnv 1700000010000 "2026-11-03" EmptyString EmptyString.

Definition unload_clock : env :=
  mkEnv 1700000020000 "2026-11-03" EmptyString EmptyString.

End Steps.

(** ** Association lists, JSON.stringify and JSON.parse *)

Module Facts.
Import Js Store Analytics Doc.

Lemma mem_string_true_iff k l : mem_string k l = true <-> In k l.
Proof.
  unfold mem_string. rewrite existsb_exists. split.
  - intros [x [Hin Heq]]. apply String.eqb_eq in Heq. now subst.
  - intros Hin. exists k. split; [assumption | apply String.eqb_refl].
Qed.

Lemma mem_string_app k l1 l2 :
  mem_string k (l1 ++ l2) = mem_string k l1 || mem_string k l2.
Proof. unfold mem_string. apply existsb_app. Qed.

Lemma assoc_get_set_same {A} (m : list (string * A)) k a :
  assoc_get (assoc_set m k a) k = Some a.
Proof.
  induction m as [|[k' a'] m IH]; simpl.
  - now rewrite String.eqb_refl.
  - destruct (String.eqb k' k) eqn:E; simpl; rewrite E; [reflexivity | exact IH].
Qed.

Lemma assoc_get_set_other {A} (m : list (string * A)) k k' a :
  k <> k' -> assoc_get (assoc_set m k a) k' = assoc_get m k'.
Proof.
  intros Hne. induction m as [|[k0 a0] m IH]; simpl.
  - apply String.eqb_neq in Hne. now rewrite Hne.
  - destruct (String.eqb k0 k) eqn:E; simpl.
    + apply String.eqb_eq in E. subst k0.
      apply String.eqb_neq in Hne. now rewrite Hne.
    + now rewrite IH.
Qed.

Lemma assoc_set_set {A} (m : list (string * A)) k a b :
  assoc_set (assoc_set m k a) k b = assoc_set m k b.
Proof.
  induction m as [|[k' a'] m IH]; simpl.
  - now rewrite String.eqb_refl.
  - destruct (String.eqb k' k) eqn:E; simpl; rewrite E; [reflexivity | now rewrite IH].
Qed.

Lemma assoc_set_same {A} (m : list (string * A)) k a :
  assoc_get m k = Some a -> assoc_set m k a = m.
Proof.
  induction m as [|[k' a'] m IH]; simpl; [discriminate|].
  destruct (String.eqb k' k) eqn:E.
  - intros [= ->]. reflexivity.
  - intros H. now rewrite IH.
Qed.

Lemma keys_assoc_set {A} (m : list (string * A)) k a :
  keys (assoc_set m k a)
  = if mem_string k (keys m) then keys m else (keys m ++ [k])%list.
Proof.
  induction m as [|[k' a'] m IH]; simpl; [reflexivity|].
  rewrite (String.eqb_sym k k'). destruct (String.eqb k' k) eqn:E; simpl.
  - reflexivity.
  - unfold keys in *. rewrite IH.
    now destruct (mem_string k (map fst m)).
Qed.

Lemma distinct_snoc l k :
  distinct l = true -> mem_string k l = false -> distinct (l ++ [k]) = true.
Proof.
  induction l as [|x l IH]; simpl; [reflexivity|].
  intros H Hk. apply andb_true_iff in H as [Hx Hl].
  apply orb_false_iff in Hk as [Hkx Hkl].
  rewrite mem_string_app. simpl. rewrite (String.eqb_sym x k), Hkx.
  apply negb_true_iff in Hx. rewrite Hx. simpl. now apply IH.
Qed.

Lemma distinct_assoc_set {A} (m : list (string * A)) k a :
  distinct (keys m) = true -> distinct (keys (assoc_set m k a)) = true.
Proof.
  intros H. rewrite keys_assoc_set.
  destruct (mem_string k (keys m)) eqn:E; [assumption|].
  now apply distinct_snoc.
Qed.

Lemma keys_vmap {A B} (f : A -> B) m : keys (vmap f m) = keys m.
Proof. unfold keys, vmap. rewrite map_map. reflexivity. Qed.

Lemma vmap_vmap {A B C} (f : A -> B) (g : B -> C) m :
  vmap g (vmap f m) = vmap (fun x => g (f x)) m.
Proof. unfold vmap. rewrite map_map. reflexivity. Qed.

Lemma assoc_get_vmap {A B} (f : A -> B) m k :
  assoc_get (vmap f m) k = option_map f (assoc_get m k).
Proof.
  induction m as [|[k' a] m IH]; simpl; [reflexivity|].
  destruct (String.eqb k' k); [reflexivity | exact IH].
Qed.

Lemma assoc_set_vmap {A B} (f : A -> B) m k a :
  assoc_set (vmap f m) k (f a) = vmap f (assoc_set m k a).
Proof.
  induction m as [|[k' a'] m IH]; simpl; [reflexivity|].
  destruct (String.eqb k' k); simpl; [reflexivity | now rewrite IH].
Qed.

(** *** Unfolding the nested recursions *)

Lemma serialize_obj flat m :
  serialize flat (VObj m) = Some (JObj (ser_members flat m)).
Proof.
  simpl. do 2 f_equal.
  induction m as [|[k x] m IH]; simpl; [reflexivity|].
  destruct (serialize flat x); now rewrite IH.
Qed.

Lemma serialize_arr flat l :
  serialize flat (VArr l) = Some (JArr (map (ser_elem flat) l)).
Proof. reflexivity. Qed.

Lemma serialize_set l :
  serialize true (VSet l) = Some (JArr (map (ser_elem true) l)).
Proof. reflexivity. Qed.

Lemma parse_obj m : parse (JObj m) = VObj (parse_members m []).
Proof.
  reflexivity.
Qed.

Lemma wf_json_obj m :
  wf_json (JObj m) = distinct (keys m) && wf_members m.
Proof.
  reflexivity.
Qed.

Lemma wf_value_obj m :
  wf_value (VObj m) = distinct (keys m) && wf_props m.
Proof.
  reflexivity.
Qed.

Lemma distinct_middle l1 k l2 :
  distinct (l1 ++ k :: l2) = true ->
  mem_string k l1 = false /\ distinct ((l1 ++ [k]) ++ l2) = true.
Proof.
  rewrite <- app_assoc. simpl. intros H. split; [|assumption].
  induction l1 as [|x l1 IH]; simpl in *; [reflexivity|].
  apply andb_true_iff in H as [Hx Hl].
  rewrite mem_string_app in Hx. simpl in Hx. apply negb_true_iff in Hx.
  apply orb_false_iff in Hx as [_ Hx]. apply orb_false_iff in Hx as [Hx _].
  rewrite (String.eqb_sym k x), Hx. simpl. now apply IH.
Qed.

(** Without repeated names the members come out as written. *)
Lemma parse_members_distinct m : forall acc,
  distinct (keys acc ++ keys m) = true ->
  parse_members m acc = (acc ++ vmap parse m)%list.
Proof.
  induction m as [|[k x] m IH]; intros acc H; simpl.
  - now rewrite app_nil_r.
  - simpl in H. apply distinct_middle in H as [Hk H].
    assert (Hset : assoc_set acc k (parse x) = (acc ++ [(k, parse x)])%list).
    { clear -Hk. induction acc as [|[k' a] acc IHa]; simpl in *; [reflexivity|].
      apply orb_false_iff in Hk as [Hk1 Hk2].
      rewrite (String.eqb_sym k' k), Hk1. now rewrite IHa. }
    rewrite Hset, IH.
    + now rewrite <- app_assoc.
    + unfold keys in *. now rewrite map_app.
Qed.

Lemma parse_obj_distinct m :
  distinct (keys m) = true -> parse (JObj m) = VObj (vmap parse m).
Proof.
  intros H. rewrite parse_obj, parse_members_distinct; [reflexivity|].
  exact H.
Qed.

Lemma json_nested_ind (P : json -> Prop) :
  P JNull -> (forall b, P (JBool b)) -> (forall z, P (JNum z)) ->
  (forall s, P (JStr s)) ->
  (forall l, Forall P l -> P (JArr l)) ->
  (forall m, Forall (fun kv => P (snd kv)) m -> P (JObj m)) ->
  forall j, P j.
Proof.
  intros Hn Hb Hz Hs Ha Ho.
  fix IH 1. intros [| b | z | s | l | m].
  - exact Hn.
  - apply Hb.
  - apply Hz.
  - apply Hs.
  - apply Ha. induction l as [|x l IHl]; constructor; [apply IH | exact IHl].
  - apply Ho. induction m as [|[k x] m IHm]; constructor; [apply IH | exact IHm].
Qed.

Lemma value_nested_ind (P : value -> Prop) :
  P VUndef -> P VNull -> (forall b, P (VBool b)) -> (forall z, P (VNum z)) ->
  P VNaN -> (forall s, P (VStr s)) ->
  (forall l, Forall P l -> P (VArr l)) ->
  (forall m, Forall (fun kv => P (snd kv)) m -> P (VObj m)) ->
  (forall l, Forall P l -> P (VSet l)) ->
  forall v, P v.
Proof.
  intros Hu Hn Hb Hz Hnan Hs Ha Ho Hset.
  fix IH 1. intros [| | b | z | | s | l | m | l].
  - exact Hu.
  - exact Hn.
  - apply Hb.
  - apply Hz.
  - exact Hnan.
  - apply Hs.
  - apply Ha. induction l as [|x l IHl]; constructor; [apply IH | exact IHl].
  - apply Ho. induction m as [|[k x] m IHm]; constructor; [apply IH | exact IHm].
  - apply Hset. induction l as [|x l IHl]; constructor; [apply IH | exact IHl].
Qed.

(** stringify after parse gives the text back. *)
Lemma serialize_parse flat : forall j,
  wf_json j = true -> serialize flat (parse j) = Some j.
Proof.
  induction j as [| b | z | s | l IHl | m IHm] using json_nested_ind;
    intros Hwf; try reflexivity.
  - simpl in Hwf. simpl parse. rewrite serialize_arr. do 2 f_equal.
    induction l as [|x l IH]; simpl; [reflexivity|].
    simpl in Hwf. apply andb_true_iff in Hwf as [Hx Hl].
    inversion IHl as [|? ? Px Pl]; subst.
    unfold ser_elem at 1. rewrite (Px Hx). f_equal. now apply IH.
  - rewrite wf_json_obj in Hwf. apply andb_true_iff in Hwf as [Hd Hm].
    rewrite parse_obj_distinct by assumption. rewrite serialize_obj.
    do 2 f_equal. clear Hd.
    induction m as [|[k x] m IH]; simpl; [reflexivity|].
    simpl in Hm. apply andb_true_iff in Hm as [Hx Hm].
    inversion IHm as [|? ? Px Pm]; subst. simpl in Px.
    rewrite (Px Hx). f_equal. now apply IH.
Qed.

Lemma ser_members_parse flat m :
  wf_members m = true -> ser_members flat (vmap parse m) = m.
Proof.
  induction m as [|[k x] m IH]; simpl; [reflexivity|].
  intros H. apply andb_true_iff in H as [Hx Hm].
  rewrite (serialize_parse flat x Hx). now rewrite IH.
Qed.

Lemma ser_members_set_parse flat m k x j :
  wf_members m = true -> serialize flat x = Some j ->
  ser_members flat (assoc_set (vmap parse m) k x) = assoc_set m k j.
Proof.
  intros Hm Hx. induction m as [|[k' a] m IH]; simpl.
  - now rewrite Hx.
  - simpl in Hm. apply andb_true_iff in Hm as [Ha Hm].
    destruct (String.eqb k' k); simpl.
    + rewrite Hx. now rewrite ser_members_parse.
    + rewrite (serialize_parse flat a Ha). now rewrite IH.
Qed.

Lemma wf_members_assoc_set m k j :
  wf_members m = true -> wf_json j = true ->
  wf_members (assoc_set m k j) = true.
Proof.
  intros Hm Hj. induction m as [|[k' a] m IH]; simpl.
  - now rewrite Hj.
  - simpl in Hm. apply andb_true_iff in Hm as [Ha Hm].
    destruct (String.eqb k' k); simpl.
    + now rewrite Hj, Hm.
    + now rewrite Ha, IH.
Qed.

Lemma wf_members_get m k j :
  wf_members m = true -> assoc_get m k = Some j -> wf_json j = true.
Proof.
  induction m as [|[k' a] m IH]; simpl; [discriminate|].
  intros H. apply andb_true_iff in H as [Ha Hm].
  destruct (String.eqb k' k); [now intros [= <-] | now apply IH].
Qed.

Lemma wf_json_set_member m k j :
  wf_json (JObj m) = true -> wf_json j = true ->
  wf_json (JObj (assoc_set m k j)) = true.
Proof.
  rewrite !wf_json_obj. intros H Hj. apply andb_true_iff in H as [Hd Hm].
  apply andb_true_iff. split.
  - now apply distinct_assoc_set.
  - now apply wf_members_assoc_set.
Qed.



Lemma parse_arr l : parse (JArr l) = VArr (map parse l).
Proof. reflexivity. Qed.

Lemma parse_strings l : parse (JArr (map JStr l)) = VArr (map VStr l).
Proof. rewrite parse_arr, map_map. reflexivity. Qed.

Lemma parse_counters m :
  distinct (keys m) = true -> parse (JObj (vmap JNum m)) = VObj (vmap VNum m).
Proof.
  intros H. rewrite parse_obj_distinct by now rewrite keys_vmap.
  now rewrite vmap_vmap.
Qed.


Lemma stats_wf_parts a :
  stats_wf a = true ->
  distinct (keys (dailyViews a)) = true /\ distinct (keys (sources a)) = true
  /\ distinct (keys (interactions a)) = true
  /\ wf_members (interactions a) = true.
Proof.
  unfold stats_wf. intros H.
  apply andb_true_iff in H as [H H4]. apply andb_true_iff in H as [H H3].
  apply andb_true_iff in H as [H1 H2]. auto.
Qed.

Lemma parse_jenc_app a :
  stats_wf a = true -> parse (jenc_app a) = loaded_app a.
Proof.
  intros H. apply stats_wf_parts in H as (H1 & H2 & H3 & H4).
  unfold jenc_app. rewrite parse_obj.
  cbn [parse_members assoc_set String.eqb Ascii.eqb Bool.eqb].
  rewrite parse_strings, !parse_counters, parse_obj_distinct by assumption.
  reflexivity.
Qed.

Lemma not_inherited_proto k :
  inherited_name k = false -> String.eqb k "__proto__" = false.
Proof.
  unfold inherited_name, mem_string. cbn [app object_proto_names number_proto_names existsb].
  intros H. apply orb_false_iff in H as [_ H].
  now apply orb_false_iff in H as [H _].
Qed.

Lemma get_prop_own m k v :
  assoc_get m k = Some v -> get_prop (VObj m) k = Ok v.
Proof. intros H. unfold get_prop. now rewrite H. Qed.

Lemma set_prop_obj m k x :
  inherited_name k = false ->
  set_prop (VObj m) k x = Ok (VObj (assoc_set m k x)).
Proof. intros H. unfold set_prop. now rewrite (not_inherited_proto k H). Qed.

Lemma view_apps_wf slot app top japps entry :
  view slot app top japps entry ->
  distinct (keys top) = true /\ wf_members top = true
  /\ distinct (keys japps) = true /\ wf_members japps = true.
Proof.
  intros [Htop Hwf Happs _ _ _].
  rewrite wf_json_obj in Hwf. apply andb_true_iff in Hwf as [Hd Hm].
  split; [assumption|]. split; [assumption|].
  destruct Happs as [[_ ->] | Happs]; [split; reflexivity|].
  pose proof (wf_members_get _ _ _ Hm Happs) as Hj.
  rewrite wf_json_obj in Hj. now apply andb_true_iff in Hj.
Qed.


Ltac js_names :=
  repeat match goal with
    | H : inherited_name ?k = false |- context [inherited_name ?k] =>
        rewrite H
    | H : inherited_name ?k = false |- context [String.eqb ?k "__proto__"] =>
        rewrite (not_inherited_proto k H)
    | |- context [inherited_name ?k] => change (inherited_name k) with false
    end.

Ltac js_cbn :=
  unfold commit_app, repair_visitors, incr_field, js_incr, js_plus, js_minus;
  cbn [rbind get_prop set_prop write_back commit_app truthy negb fst snd
       assoc_get assoc_set String.eqb Ascii.eqb Bool.eqb option_map
       andb orb is_undefined to_number num_add num_sub].

Ltac js_run_with tac :=
  repeat (progress (js_cbn; js_names;
                    rewrite ?assoc_get_set_same, ?assoc_set_set,
                            ?assoc_get_vmap, ?String.eqb_refl;
                    tac)).

Ltac js_run := js_run_with idtac.

Lemma set_of_strings l :
  set_of_list (map VStr l) = map VStr (distinct_ids l).
Proof.
  unfold set_of_list, distinct_ids.
  change (@nil value) with (map VStr []). generalize (@nil string).
  induction l as [|x l IH]; intros acc; simpl; [reflexivity|].
  assert (Hadd : set_add (map VStr acc) (VStr x) = map VStr (add_id acc x)).
  { unfold set_add, add_id, set_has, mem_string.
    assert (Hex : existsb (same_value_zero (VStr x)) (map VStr acc)
                  = existsb (String.eqb x) acc).
    { clear. induction acc as [|y acc IHa]; simpl; [reflexivity|].
      now rewrite IHa. }
    rewrite Hex.
    destruct (existsb (String.eqb x) acc); [reflexivity|].
    now rewrite map_app. }
  rewrite Hadd. apply IH.
Qed.

Lemma ensureApp_view slot app top japps entry today :
  view slot app top japps entry ->
  ensureApp today (VObj (vmap parse top)) app
  = Ok (VObj (assoc_set (vmap parse top) "apps"
                (VObj (assoc_set (vmap parse japps) app
                         (live_app (ensured today entry))))),
        live_app (ensured today entry)).
Proof.
  intros V. pose proof (view_apps_wf _ _ _ _ _ V) as (Hd & Hm & Hda & Hma).
  destruct V as [Htop Hwf Happs Hentry Hewf Hname].
  unfold ensureApp.
  destruct entry as [a|]; cbn [option_map] in Hentry.
  - destruct Happs as [[Hnone ->] | Happs]; [discriminate|].
    js_run_with ltac:(rewrite ?Happs, ?Hentry;
                       rewrite ?parse_obj_distinct by assumption;
                       rewrite ?(parse_jenc_app a Hewf); unfold loaded_app).
    rewrite set_of_strings. reflexivity.
  - destruct Happs as [[Hnone ->] | Happs].
    + js_run_with ltac:(rewrite ?Hnone; unfold fresh_app). reflexivity.
    + js_run_with ltac:(rewrite ?Happs, ?Hentry;
                         rewrite ?parse_obj_distinct by assumption;
                         unfold fresh_app).
      reflexivity.
Qed.

(** *** Serialising a typed entry *)

Lemma serialize_strings flat l :
  serialize flat (VArr (map VStr l)) = Some (JArr (map JStr l)).
Proof. rewrite serialize_arr, map_map. reflexivity. Qed.

Lemma serialize_string_set l :
  serialize true (VSet (map VStr l)) = Some (JArr (map JStr l)).
Proof. rewrite serialize_set, map_map. reflexivity. Qed.

Lemma ser_members_counters flat m :
  ser_members flat (vmap VNum m) = vmap JNum m.
Proof.
  induction m as [|[k z] m IH]; simpl; [reflexivity | now rewrite IH].
Qed.

Lemma serialize_counters flat m :
  serialize flat (VObj (vmap VNum m)) = Some (JObj (vmap JNum m)).
Proof. now rewrite serialize_obj, ser_members_counters. Qed.

Lemma serialize_parsed_obj flat m :
  wf_members m = true ->
  serialize flat (VObj (vmap parse m)) = Some (JObj m).
Proof. intros H. now rewrite serialize_obj, ser_members_parse. Qed.

Lemma serialize_live_app a :
  stats_wf a = true -> serialize true (live_app a) = Some (jenc_app a).
Proof.
  intros H. apply stats_wf_parts in H as (H1 & H2 & H3 & H4).
  unfold live_app. rewrite serialize_obj. cbn [ser_members].
  rewrite serialize_string_set, !serialize_counters, serialize_parsed_obj
    by assumption.
  reflexivity.
Qed.

Lemma wf_json_counters m :
  distinct (keys m) = true -> wf_json (JObj (vmap JNum m)) = true.
Proof.
  intros H. rewrite wf_json_obj, keys_vmap, H. simpl.
  clear H. induction m as [|[k z] m IH]; simpl; [reflexivity | exact IH].
Qed.

Lemma wf_json_strings l : wf_json (JArr (map JStr l)) = true.
Proof. simpl. induction l; simpl; [reflexivity | assumption]. Qed.

Lemma wf_jenc_app a : stats_wf a = true -> wf_json (jenc_app a) = true.
Proof.
  intros H. apply stats_wf_parts in H as (H1 & H2 & H3 & H4).
  unfold jenc_app. rewrite wf_json_obj. apply andb_true_iff. split.
  - reflexivity.
  - cbn [wf_members]. rewrite wf_json_strings, !wf_json_counters by assumption.
    rewrite wf_json_obj, H3, H4. reflexivity.
Qed.

(** *** One load / ensureApp / mutate / save cycle *)

Lemma loadData_view b app top japps entry :
  view (analytics_slot b) app top japps entry ->
  loadData b = Returns (VObj (vmap parse top)) b.
Proof.
  intros V. pose proof (view_apps_wf _ _ _ _ _ V) as (Hd & _).
  destruct V as [Htop _ _ _ _ _].
  unfold loadData, try_catch, bind, get_analytics, lift.
  destruct (analytics_slot b) as [[| | j]|]; simpl in Htop |- *;
    try (injection Htop as <-; reflexivity).
  destruct j; try discriminate. injection Htop as ->.
  cbn [text_or json_parse]. now rewrite parse_obj_distinct.
Qed.

Lemma serialize_updated top japps app a :
  wf_members top = true -> wf_members japps = true -> stats_wf a = true ->
  serialize true
    (VObj (assoc_set (vmap parse top) "apps"
             (VObj (assoc_set (vmap parse japps) app (live_app a)))))
  = Some (JObj (updated top japps app a)).
Proof.
  intros Ht Ha Hs. rewrite serialize_obj. unfold updated. do 2 f_equal.
  apply ser_members_set_parse; [assumption|].
  rewrite serialize_obj. do 2 f_equal.
  apply ser_members_set_parse; [assumption|].
  now apply serialize_live_app.
Qed.

Lemma wf_updated slot app top japps entry a :
  view slot app top japps entry -> stats_wf a = true ->
  wf_json (JObj (updated top japps app a)) = true.
Proof.
  intros V Hs. pose proof (view_apps_wf _ _ _ _ _ V) as (Hd & Hm & Hda & Hma).
  destruct V as [_ Hwf _ _ _ _].
  unfold updated. apply wf_json_set_member; [assumption|].
  apply wf_json_set_member.
  - rewrite wf_json_obj. now rewrite Hda, Hma.
  - now apply wf_jenc_app.
Qed.

(** The tail of every recorder: normalise, then write (or drop the write
    when the store rejects it). *)
Lemma save_run data m j b :
  data = VObj m -> (exists apps, assoc_get m "apps" = Some (VObj apps)) ->
  serialize true data = Some j -> wf_json j = true ->
  bind (lift (prepareForSave data)) saveData b
  = Returns tt (if local_full b then b else put_analytics b (Encoded j)).
Proof.
  intros -> [apps Hget] Hser Hwf.
  unfold bind, lift, prepareForSave.
  rewrite (get_prop_own _ _ _ Hget). cbn [rbind truthy negb].
  rewrite Hser.
  unfold saveData, try_catch, set_analytics, stringify.
  rewrite (serialize_parse false j Hwf).
  destruct (local_full b); reflexivity.
Qed.

Lemma with_app_run c today mutate b top japps entry a :
  view (analytics_slot b) (appName c) top japps entry ->
  mutate (live_app (ensured today entry)) = Ok (live_app a) ->
  stats_wf a = true ->
  with_app c today mutate Ok b
  = Returns tt (if local_full b then b
                else put_analytics b
                       (Encoded (JObj (updated top japps (appName c) a)))).
Proof.
  intros V Hmut Hs.
  pose proof (view_apps_wf _ _ _ _ _ V) as (Hd & Hm & Hda & Hma).
  unfold with_app. unfold bind at 1. rewrite (loadData_view _ _ _ _ _ V).
  unfold bind at 1. unfold lift at 1.
  rewrite (ensureApp_view _ _ _ _ _ today V). cbn [fst snd].
  unfold bind at 1. unfold lift at 1. rewrite Hmut.
  unfold bind at 1. unfold lift at 1.
  js_run.
  unfold bind at 1. unfold lift at 1.
  eapply save_run.
  - reflexivity.
  - rewrite assoc_get_set_same. eauto.
  - now apply serialize_updated.
  - eapply wf_updated; eassumption.
Qed.


Lemma view_updated slot app top japps entry a :
  view slot app top japps entry -> stats_wf a = true ->
  view (Some (Encoded (JObj (updated top japps app a)))) app
       (updated top japps app a) (assoc_set japps app (jenc_app a)) (Some a).
Proof.
  intros V Hs. constructor.
  - reflexivity.
  - eapply wf_updated; eassumption.
  - right. unfold updated. apply assoc_get_set_same.
  - cbn [option_map]. apply assoc_get_set_same.
  - exact Hs.
  - now destruct V.
Qed.

Lemma stats_wf_ensured today entry :
  match entry with Some a => stats_wf a = true | None => True end ->
  stats_wf (ensured today entry) = true.
Proof. destruct entry as [a|]; intros H; [exact H | reflexivity]. Qed.

(** *** Time on page *)

Lemma recordTime_app_live a t :
  recordTime_app t (live_app a) = Ok (live_app (time_recorded a t)).
Proof.
  unfold recordTime_app, live_app. js_run.
  unfold js_round_div. js_run.
  destruct (completedSessions a =? 0) eqn:Ec;
    [apply Z.eqb_eq in Ec; rewrite Ec|];
    destruct (totalViews a =? 0) eqn:Ev; js_run;
    cbn [time_recorded firstSeen totalViews uniqueVisitors dailyViews
         interactions sources avgTimeOnPage totalTimeOnPage completedSessions
         shares affiliateClicks Z.eqb]; rewrite ?Ev, ?Ec; reflexivity.
Qed.

Lemma recordTimeOnPage_run c e b top japps entry :
  let t := round_div (now e - pageLoadTime c) 1000 in
  1 <= t <= 3600 ->
  view (analytics_slot b) (appName c) top japps entry ->
  recordTimeOnPage c e b
  = Returns tt
      (if local_full b then b
       else put_analytics b
              (Encoded (JObj (updated top japps (appName c)
                                (time_recorded (ensured (today e) entry) t))))).
Proof.
  intros t Ht V. unfold recordTimeOnPage. fold t.
  replace ((t <? 1) || (3600 <? t)) with false
    by (symmetry; apply orb_false_iff; split; apply Z.ltb_ge; lia).
  apply (with_app_run c (today e) _ b top japps entry);
    [assumption | apply recordTime_app_live |].
  pose proof (stats_wf_ensured (today e) entry (view_entry_wf _ _ _ _ _ V)) as H.
  exact H.
Qed.


(** *** Completions and the score list *)

Lemma truthy_parse j : truthy (parse j) = negb (falsy j).
Proof. destruct j; try reflexivity. simpl. now rewrite negb_involutive. Qed.

Lemma slice_last_map {A B} (f : A -> B) n l :
  slice_last n (map f l) = map f (slice_last n l).
Proof. unfold slice_last. now rewrite length_map, skipn_map. Qed.

Lemma parse_jscore date s m :
  parse (jscore date s m)
  = VObj [("score", VNum s); ("max", VNum m); ("date", VStr date)].
Proof. reflexivity. Qed.

Lemma record_score_parsed c s m ints :
  record_score c (VNum s) (VNum m) (VObj (vmap parse ints))
  = Ok (VObj (vmap parse (scores_update ints (jscore (dateKey c) s m)))).
Proof.
  unfold record_score, scores_update, score_record. js_run.
  rewrite <- parse_jscore.
  destruct (assoc_get ints "scores") as [j|] eqn:E; js_run.
  - rewrite truthy_parse, negb_involutive.
    destruct (falsy j) eqn:F; js_run.
    + cbn [app List.length Nat.ltb Nat.leb].
      change (VArr [parse (jscore (dateKey c) s m)])
        with (parse (JArr [jscore (dateKey c) s m])).
      now rewrite assoc_set_vmap.
    + rewrite E. js_run.
      destruct j; try reflexivity; try discriminate.
      rewrite parse_arr.
      change [parse (jscore (dateKey c) s m)]
        with (map parse [jscore (dateKey c) s m]).
      rewrite <- map_app.
      set (pushed := (l ++ [jscore (dateKey c) s m])%list).
      rewrite length_map. unfold kept.
      destruct (100 <? List.length pushed)%nat.
      * rewrite slice_last_map.
        change (VArr (map parse ?x)) with (parse (JArr x)).
        now rewrite assoc_set_vmap.
      * change (VArr (map parse ?x)) with (parse (JArr x)).
        now rewrite assoc_set_vmap.
  - cbn [app List.length Nat.ltb Nat.leb].
    change (VArr [parse (jscore (dateKey c) s m)])
      with (parse (JArr [jscore (dateKey c) s m])).
    now rewrite assoc_set_vmap.
Qed.

Lemma count_up_parsed ints k z :
  counter_at ints k = Some z -> inherited_name k = false ->
  count_up (VObj (vmap parse ints)) k
  = Ok (VObj (vmap parse (assoc_set ints k (JNum (z + 1))))).
Proof.
  unfold counter_at. intros Hc Hk. rewrite <- assoc_set_vmap.
  unfold count_up.
  destruct (assoc_get ints k) as [j|] eqn:E.
  - destruct j; try discriminate. injection Hc as ->.
    js_run_with ltac:(rewrite ?E; cbn [parse]).
    rewrite negb_involutive.
    destruct (z =? 0) eqn:Z0; js_run_with ltac:(rewrite ?E; cbn [parse]);
      [|reflexivity].
    apply Z.eqb_eq in Z0. subst z. reflexivity.
  - injection Hc as <-. js_run_with ltac:(rewrite ?E). reflexivity.
Qed.

Lemma onbComplete_app_live c s m a z :
  counter_at (interactions a) "completed" = Some z ->
  onbComplete_app c (VNum s) (VNum m) (live_app a)
  = Ok (live_app (completed a z (jscore (dateKey c) s m))).
Proof.
  intros Hz. unfold onbComplete_app, live_app.
  unfold incr_field. js_run.
  rewrite (count_up_parsed _ _ _ Hz eq_refl). js_run.
  rewrite record_score_parsed. js_run. reflexivity.
Qed.

Lemma distinct_keys_scores_update ints r :
  distinct (keys ints) = true -> distinct (keys (scores_update ints r)) = true.
Proof.
  intros H. unfold scores_update.
  destruct (assoc_get ints "scores") as [j|]; [|now apply distinct_assoc_set].
  destruct (falsy j); [now apply distinct_assoc_set|].
  destruct j; try assumption. now apply distinct_assoc_set.
Qed.

Lemma wf_json_arr_app l r :
  wf_json (JArr l) = true -> wf_json r = true -> wf_json (JArr (l ++ [r])) = true.
Proof.
  simpl. intros Hl Hr. rewrite forallb_app, Hl. simpl. now rewrite Hr.
Qed.

Lemma wf_json_slice_last n l :
  wf_json (JArr l) = true -> wf_json (JArr (slice_last n l)) = true.
Proof.
  simpl. unfold slice_last. generalize (List.length l - n)%nat as k.
  intros k. revert l. induction k as [|k IH]; intros l H; [exact H|].
  destruct l as [|x l]; [reflexivity|]. simpl in H |- *.
  apply andb_true_iff in H as [_ H]. now apply IH.
Qed.

Lemma wf_json_kept l : wf_json (JArr l) = true -> wf_json (JArr (kept l)) = true.
Proof.
  intros H. unfold kept. destruct (100 <? List.length l)%nat; [|assumption].
  now apply wf_json_slice_last.
Qed.

Lemma wf_members_scores_update ints r :
  wf_members ints = true -> wf_json r = true ->
  wf_members (scores_update ints r) = true.
Proof.
  intros H Hr. unfold scores_update.
  assert (H1 : wf_json (JArr [r]) = true) by (simpl; now rewrite Hr).
  destruct (assoc_get ints "scores") as [j|] eqn:E;
    [|now apply wf_members_assoc_set].
  destruct (falsy j); [now apply wf_members_assoc_set|].
  destruct j; try assumption.
  apply wf_members_assoc_set; [assumption|].
  apply wf_json_kept, wf_json_arr_app; [|assumption].
  exact (wf_members_get _ _ _ H E).
Qed.

Lemma stats_wf_completed a z date s m :
  stats_wf a = true -> stats_wf (completed a z (jscore date s m)) = true.
Proof.
  intros H. apply stats_wf_parts in H as (H1 & H2 & H3 & H4).
  unfold stats_wf, completed.
  cbn [dailyViews sources interactions]. rewrite H1, H2. cbn [andb].
  rewrite distinct_keys_scores_update by now apply distinct_assoc_set.
  rewrite wf_members_scores_update;
    [reflexivity | now apply wf_members_assoc_set | reflexivity].
Qed.

Lemma onbComplete_run c today s m b top japps entry z :
  view (analytics_slot b) (appName c) top japps entry ->
  counter_at (interactions (ensured today entry)) "completed" = Some z ->
  onbComplete c today (VNum s) (VNum m) b
  = Returns tt
      (if local_full b then b
       else put_analytics b
              (Encoded (JObj (updated top japps (appName c)
                   (completed (ensured today entry) z
                              (jscore (dateKey c) s m)))))).
Proof.
  intros V Hz. unfold onbComplete.
  apply (with_app_run c today _ b top japps entry);
    [assumption | now apply onbComplete_app_live |].
  apply stats_wf_completed.
  exact (stats_wf_ensured today entry (view_entry_wf _ _ _ _ _ V)).
Qed.


(** *** Sequences of completions *)

Lemma slice_last_short {A} n (l : list A) :
  (List.length l <= n)%nat -> slice_last n l = l.
Proof.
  intros H. unfold slice_last.
  replace (List.length l - n)%nat with 0%nat by lia. reflexivity.
Qed.

Lemma slice_last_length {A} n (l : list A) :
  (List.length (slice_last n l) <= n)%nat.
Proof. unfold slice_last. rewrite length_skipn. lia. Qed.

Lemma kept_slice_last l : kept l = slice_last 100 l.
Proof.
  unfold kept. destruct (100 <? List.length l)%nat eqn:E; [reflexivity|].
  apply Nat.ltb_ge in E. now rewrite slice_last_short.
Qed.

Lemma slice_last_app {A} n (l rs : list A) :
  slice_last n (slice_last n l ++ rs) = slice_last n (l ++ rs).
Proof.
  unfold slice_last. rewrite !length_app, length_skipn.
  destruct (Nat.le_gt_cases (List.length l) n) as [H|H].
  - replace (List.length l - n)%nat with 0%nat by lia. simpl.
    now rewrite Nat.sub_0_r.
  - rewrite !skipn_app, length_skipn, skipn_skipn.
    f_equal; f_equal; lia.
Qed.

Lemma interactions_ensured today entry :
  interactions (ensured today entry) = prior_interactions entry.
Proof. now destruct entry. Qed.

Lemma assoc_get_scores_update ints r k :
  k <> "scores" ->
  assoc_get (scores_update ints r) k = assoc_get ints k.
Proof.
  intros Hk. unfold scores_update.
  assert (Hne : "scores" <> k) by congruence.
  destruct (assoc_get ints "scores") as [j|];
    [|now apply assoc_get_set_other].
  destruct (falsy j); [now apply assoc_get_set_other|].
  destruct j; try reflexivity. now apply assoc_get_set_other.
Qed.

Lemma counter_completed a z r :
  counter_at (interactions (completed a z r)) "completed" = Some (z + 1).
Proof.
  unfold counter_at, completed. cbn [interactions].
  rewrite assoc_get_scores_update by discriminate.
  now rewrite assoc_get_set_same.
Qed.

Lemma scores_completed a z r l :
  score_list (interactions a) = Some l ->
  assoc_get (interactions (completed a z r)) "scores"
  = Some (JArr (slice_last 100 (l ++ [r]))).
Proof.
  unfold score_list, completed. cbn [interactions]. unfold scores_update.
  rewrite (assoc_get_set_other _ "completed" "scores") by discriminate.
  destruct (assoc_get (interactions a) "scores") as [j|] eqn:E.
  - destruct j; cbn [falsy]; intros H.
    + injection H as <-. now rewrite assoc_get_set_same.
    + destruct (negb b); [|discriminate]. injection H as <-.
      now rewrite assoc_get_set_same.
    + destruct (z0 =? 0); [|discriminate]. injection H as <-.
      now rewrite assoc_get_set_same.
    + destruct (String.eqb s EmptyString); [|discriminate]. injection H as <-.
      now rewrite assoc_get_set_same.
    + injection H as <-. rewrite assoc_get_set_same.
      now rewrite kept_slice_last.
    + discriminate.
  - intros [= <-]. now rewrite assoc_get_set_same.
Qed.

Lemma score_list_completed a z r l :
  score_list (interactions a) = Some l ->
  score_list (interactions (completed a z r))
  = Some (slice_last 100 (l ++ [r])).
Proof.
  intros H. unfold score_list at 1. now rewrite (scores_completed a z r l H).
Qed.

Lemma plays_run c : forall rest p b top japps entry z l,
  view (analytics_slot b) (appName c) top japps entry ->
  local_full b = false ->
  counter_at (prior_interactions entry) "completed" = Some z ->
  score_list (prior_interactions entry) = Some l ->
  exists top' japps' a',
    each (run_play c) (p :: rest) b
      = Returns tt (put_analytics b (Encoded (JObj top')))
    /\ view (Some (Encoded (JObj top'))) (appName c) top' japps' (Some a')
    /\ counter_at (interactions a') "completed"
       = Some (z + Z.of_nat (List.length (p :: rest)))
    /\ assoc_get (interactions a') "scores"
       = Some (JArr (slice_last 100 (l ++ map (play_record c) (p :: rest)))).
Proof.
  induction rest as [|q rest IH]; intros p b top japps entry z l V Hfull Hz Hl.
  - set (a0 := ensured (play_today p) entry).
    assert (Hs0 : stats_wf a0 = true)
      by exact (stats_wf_ensured _ entry (view_entry_wf _ _ _ _ _ V)).
    set (a1 := completed a0 z (play_record c p)).
    exists (updated top japps (appName c) a1),
           (assoc_set japps (appName c) (jenc_app a1)), a1.
    split; [|split; [|split]].
    + cbn [each]. unfold bind, run_play.
      rewrite (onbComplete_run _ _ _ _ _ top japps entry z V)
        by now rewrite interactions_ensured.
      now rewrite Hfull.
    + eapply view_updated; [eassumption|]. now apply stats_wf_completed.
    + unfold a1. rewrite counter_completed. cbn [List.length]. f_equal; lia.
    + unfold a1. cbn [map]. apply scores_completed.
      unfold a0. now rewrite interactions_ensured.
  - set (a0 := ensured (play_today p) entry).
    assert (Hs0 : stats_wf a0 = true)
      by exact (stats_wf_ensured _ entry (view_entry_wf _ _ _ _ _ V)).
    set (a1 := completed a0 z (play_record c p)).
    assert (Hs1 : stats_wf a1 = true) by now apply stats_wf_completed.
    set (b1 := put_analytics b
                 (Encoded (JObj (updated top japps (appName c) a1)))).
    assert (V1 : view (analytics_slot b1) (appName c)
                   (updated top japps (appName c) a1)
                   (assoc_set japps (appName c) (jenc_app a1)) (Some a1))
      by (eapply view_updated; eassumption).
    destruct (IH q b1 _ _ (Some a1) (z + 1)
                (slice_last 100 (l ++ [play_record c p])) V1 Hfull)
      as (top' & japps' & a' & Hrun & V' & Hc' & Hl').
    + apply counter_completed.
    + apply score_list_completed. unfold a0. now rewrite interactions_ensured.
    + exists top', japps', a'. split; [|split; [|split]].
      * change (each (run_play c) (p :: q :: rest) b)
          with (bind (run_play c p) (fun _ => each (run_play c) (q :: rest)) b).
        unfold bind at 1. unfold run_play at 1.
        rewrite (onbComplete_run _ _ _ _ _ top japps entry z V)
          by now rewrite interactions_ensured.
        rewrite Hfull. cbv beta. unfold b1, a1, a0, play_record in Hrun.
        rewrite Hrun.
        reflexivity.
      * exact V'.
      * rewrite Hc'. cbn [List.length]. f_equal; lia.
      * rewrite Hl'. f_equal. rewrite slice_last_app.
        cbn [map]. now rewrite <- app_assoc.
Qed.


(** *** Pageviews *)

Lemma set_add_strings l x :
  set_add (map VStr l) (VStr x) = map VStr (add_id l x).
Proof.
  unfold set_add, add_id, set_has, mem_string.
  assert (Hex : existsb (same_value_zero (VStr x)) (map VStr l)
                = existsb (String.eqb x) l).
  { induction l as [|y l IH]; simpl; [reflexivity | now rewrite IH]. }
  rewrite Hex. destruct (existsb (String.eqb x) l); [reflexivity|].
  now rewrite map_app.
Qed.

Lemma set_has_strings l x :
  set_has (map VStr l) (VStr x) = mem_string x l.
Proof.
  unfold set_has, mem_string.
  induction l as [|y l IH]; simpl; [reflexivity | now rewrite IH].
Qed.

Lemma add_one_counters m k :
  inherited_name k = false ->
  add_one (VObj (vmap VNum m)) k = Ok (VObj (vmap VNum (bump m k))).
Proof.
  intros Hk. unfold add_one, bump. rewrite <- assoc_set_vmap.
  js_run. destruct (assoc_get m k) as [z|]; js_run; [|reflexivity].
  destruct (z =? 0) eqn:Z0; js_run; [|reflexivity].
  apply Z.eqb_eq in Z0. now subst z.
Qed.

Lemma count_up_counters m k :
  inherited_name k = false ->
  count_up (VObj (vmap VNum m)) k = Ok (VObj (vmap VNum (bump m k))).
Proof.
  intros Hk. unfold count_up, bump. rewrite <- assoc_set_vmap.
  js_run. destruct (assoc_get m k) as [z|] eqn:E; js_run; [|reflexivity].
  destruct (z =? 0) eqn:Z0; js_run_with ltac:(rewrite ?E); [|reflexivity].
  apply Z.eqb_eq in Z0. now subst z.
Qed.

Lemma pageview_app_live c a :
  inherited_name (dateKey c) = false ->
  inherited_name (sourceKey c) = false ->
  pageview_app c (live_app a) = Ok (live_app (viewed a c)).
Proof.
  intros Hd Hs. unfold pageview_app, live_app. js_run.
  rewrite add_one_counters by assumption. js_run.
  rewrite count_up_counters by assumption. js_run.
  rewrite set_add_strings. reflexivity.
Qed.


Lemma parse_jenc_global g :
  global_wf g = true -> parse (jenc_global g) = loaded_global g.
Proof.
  unfold global_wf. intros H. unfold jenc_global. rewrite parse_obj.
  cbn [parse_members assoc_set String.eqb Ascii.eqb Bool.eqb].
  rewrite parse_strings, parse_counters by assumption. reflexivity.
Qed.

Lemma serialize_loaded_global flat g :
  serialize flat (loaded_global g) = Some (jenc_global g).
Proof.
  unfold loaded_global. rewrite serialize_obj. cbn [ser_members].
  rewrite serialize_strings, serialize_counters. reflexivity.
Qed.

Lemma wf_jenc_global g : global_wf g = true -> wf_json (jenc_global g) = true.
Proof.
  unfold global_wf. intros H. unfold jenc_global. rewrite wf_json_obj.
  apply andb_true_iff. split; [reflexivity|].
  cbn [wf_members]. now rewrite wf_json_strings, wf_json_counters.
Qed.

Lemma distinct_keys_bump m k :
  distinct (keys m) = true -> distinct (keys (bump m k)) = true.
Proof. intros H. unfold bump. now apply distinct_assoc_set. Qed.

Lemma pageview_global_run c m g :
  assoc_get m "global" = option_map loaded_global g ->
  inherited_name (dateKey c) = false ->
  pageview_global c (VObj m)
  = Ok (VObj (assoc_set m "global"
                (loaded_global (global_viewed (prior_global g) c)))).
Proof.
  intros Hg Hd. unfold pageview_global.
  destruct g as [g|]; cbn [option_map] in Hg.
  - js_run_with ltac:(rewrite ?Hg; unfold loaded_global).
    rewrite add_one_counters by assumption.
    js_run_with ltac:(rewrite ?Hg; unfold loaded_global).
    rewrite set_has_strings.
    unfold global_viewed, add_id. cbn [prior_global g_totalViews g_dailyViews g_uniqueVisitors].
    destruct (mem_string (visitorId c) (g_uniqueVisitors g)); cbn [negb];
      [reflexivity|].
    change [VStr (visitorId c)] with (map VStr [visitorId c]).
    now rewrite <- map_app.
  - js_run_with ltac:(rewrite ?Hg; unfold fresh_global).
    change (VObj []) with (VObj (vmap VNum [])).
    rewrite add_one_counters by assumption.
    js_run. reflexivity.
Qed.

(** Two members replaced in a freshly parsed object. *)
Lemma ser_members_set2_parse flat m k1 x1 j1 k2 x2 j2 :
  wf_members m = true ->
  serialize flat x1 = Some j1 -> serialize flat x2 = Some j2 ->
  ser_members flat (assoc_set (assoc_set (vmap parse m) k1 x1) k2 x2)
  = assoc_set (assoc_set m k1 j1) k2 j2.
Proof.
  intros Hm H1 H2. induction m as [|[k a] m IH].
  - change (vmap parse []) with (@nil (string * value)). cbn [assoc_set].
    destruct (String.eqb k1 k2); cbn [ser_members]; now rewrite ?H1, ?H2.
  - simpl in Hm. apply andb_true_iff in Hm as [Ha Hm].
    change (vmap parse ((k, a) :: m)) with ((k, parse a) :: vmap parse m).
    cbn [assoc_set].
    destruct (String.eqb k k1) eqn:E1; cbn [assoc_set];
      destruct (String.eqb k k2) eqn:E2; cbn [ser_members].
    + rewrite H2. now rewrite (ser_members_parse flat m Hm).
    + rewrite H1. f_equal. now apply ser_members_set_parse.
    + rewrite H2. f_equal. now apply ser_members_set_parse.
    + rewrite (serialize_parse flat a Ha). f_equal. now apply IH.
Qed.

Lemma with_app_run_after c today mutate after b top japps entry a m2 j2 :
  view (analytics_slot b) (appName c) top japps entry ->
  mutate (live_app (ensured today entry)) = Ok (live_app a) ->
  after (VObj (assoc_set (vmap parse top) "apps"
                 (VObj (assoc_set (vmap parse japps) (appName c)
                          (live_app a)))))
  = Ok (VObj m2) ->
  (exists apps, assoc_get m2 "apps" = Some (VObj apps)) ->
  serialize true (VObj m2) = Some j2 -> wf_json j2 = true ->
  with_app c today mutate after b
  = Returns tt (if local_full b then b else put_analytics b (Encoded j2)).
Proof.
  intros V Hmut Hafter Happs Hser Hwf.
  unfold with_app. unfold bind at 1. rewrite (loadData_view _ _ _ _ _ V).
  unfold bind at 1. unfold lift at 1.
  rewrite (ensureApp_view _ _ _ _ _ today V). cbn [fst snd].
  unfold bind at 1. unfold lift at 1. rewrite Hmut.
  unfold bind at 1. unfold lift at 1.
  js_run.
  unfold bind at 1. unfold lift at 1. rewrite Hafter.
  now apply (save_run (VObj m2) m2 j2 b).
Qed.

Lemma record_pageview_run c today b top japps entry g :
  view (analytics_slot b) (appName c) top japps entry ->
  assoc_get top "global" = option_map jenc_global g ->
  match g with Some g => global_wf g = true | None => True end ->
  inherited_name (dateKey c) = false ->
  inherited_name (sourceKey c) = false ->
  record_pageview c today b
  = Returns tt
      (if local_full b then b
       else put_analytics b
              (Encoded (JObj (pageviewed top japps (appName c)
                                (viewed (ensured today entry) c)
                                (global_viewed (prior_global g) c))))).
Proof.
  intros V Hg Hgwf Hd Hs.
  pose proof (view_apps_wf _ _ _ _ _ V) as (Hdt & Hm & Hda & Hma).
  pose proof (stats_wf_ensured today entry (view_entry_wf _ _ _ _ _ V)) as Hs0.
  assert (Hs1 : stats_wf (viewed (ensured today entry) c) = true).
  { apply stats_wf_parts in Hs0 as (H1 & H2 & H3 & H4).
    unfold stats_wf, viewed. cbn [dailyViews sources interactions].
    now rewrite !distinct_keys_bump, H3, H4 by assumption. }
  assert (Hg1 : global_wf (global_viewed (prior_global g) c) = true).
  { unfold global_wf, global_viewed. cbn [g_dailyViews].
    apply distinct_keys_bump. destruct g as [g|]; [exact Hgwf | reflexivity]. }
  unfold record_pageview.
  eapply (with_app_run_after c today _ _ b top japps entry).
  - exact V.
  - now apply pageview_app_live.
  - apply (pageview_global_run c _ g); [|assumption].
    rewrite assoc_get_set_other by discriminate.
    rewrite assoc_get_vmap, Hg.
    destruct g as [g|]; cbn [option_map]; [|reflexivity].
    now rewrite parse_jenc_global.
  - rewrite assoc_get_set_other by discriminate.
    rewrite assoc_get_set_same. eauto.
  - rewrite serialize_obj. unfold pageviewed, updated. do 2 f_equal.
    apply ser_members_set2_parse; [assumption | | apply serialize_loaded_global].
    rewrite serialize_obj. do 2 f_equal.
    apply ser_members_set_parse; [assumption|].
    now apply serialize_live_app.
  - unfold pageviewed. apply wf_json_set_member.
    + eapply wf_updated; eassumption.
    + now apply wf_jenc_global.
Qed.


(** *** Visitor identifiers in order of first appearance *)

Lemma fold_add_id_fresh l : forall acc,
  NoDup (acc ++ l) -> fold_left add_id l acc = (acc ++ l)%list.
Proof.
  induction l as [|x l IH]; intros acc H; simpl.
  - now rewrite app_nil_r.
  - assert (Hx : mem_string x acc = false).
    { destruct (mem_string x acc) eqn:E; [|reflexivity].
      apply mem_string_true_iff in E. apply NoDup_remove_2 in H.
      exfalso. apply H. apply in_or_app. now left. }
    unfold add_id at 2. rewrite Hx. rewrite IH.
    + now rewrite <- app_assoc.
    + now rewrite <- app_assoc.
Qed.

Lemma NoDup_add_id acc x : NoDup acc -> NoDup (add_id acc x).
Proof.
  intros H. unfold add_id. destruct (mem_string x acc) eqn:E; [assumption|].
  apply NoDup_app; [assumption | repeat constructor; intros [] |].
  intros y Hy [<-|[]].
  apply mem_string_true_iff in Hy. congruence.
Qed.

Lemma In_add_id acc x y : In y (add_id acc x) <-> In y acc \/ y = x.
Proof.
  unfold add_id. destruct (mem_string x acc) eqn:E.
  - apply mem_string_true_iff in E. split; [now left|].
    intros [H | ->]; assumption.
  - rewrite in_app_iff. simpl. intuition congruence.
Qed.

Lemma NoDup_fold_add_id l : forall acc,
  NoDup acc -> NoDup (fold_left add_id l acc).
Proof.
  induction l as [|x l IH]; intros acc H; simpl; [assumption|].
  apply IH. now apply NoDup_add_id.
Qed.

Lemma In_fold_add_id l : forall acc y,
  In y (fold_left add_id l acc) <-> In y acc \/ In y l.
Proof.
  induction l as [|x l IH]; intros acc y; simpl.
  - tauto.
  - rewrite IH, In_add_id. intuition congruence.
Qed.

Lemma NoDup_distinct_ids l : NoDup (distinct_ids l).
Proof. apply NoDup_fold_add_id. constructor. Qed.

Lemma In_distinct_ids l y : In y (distinct_ids l) <-> In y l.
Proof. unfold distinct_ids. rewrite In_fold_add_id. simpl. tauto. Qed.

Lemma distinct_ids_fixed l : NoDup l -> distinct_ids l = l.
Proof. intros H. unfold distinct_ids. now rewrite fold_add_id_fresh. Qed.

Lemma distinct_ids_snoc l x :
  distinct_ids (l ++ [x]) = add_id (distinct_ids l) x.
Proof. unfold distinct_ids. now rewrite fold_left_app. Qed.

Lemma distinct_ids_absorb l r :
  distinct_ids (distinct_ids l ++ r) = distinct_ids (l ++ r).
Proof.
  unfold distinct_ids at 1 3. rewrite !fold_left_app. f_equal.
  apply distinct_ids_fixed, NoDup_distinct_ids.
Qed.

Lemma distinct_ids_count l :
  List.length (distinct_ids l) = List.length (nodup string_dec l).
Proof.
  apply Permutation_length, NoDup_Permutation.
  - apply NoDup_distinct_ids.
  - apply NoDup_nodup.
  - intros x. now rewrite In_distinct_ids, nodup_In.
Qed.

(** *** Sequences of pageviews *)

Lemma plain_visit_parts app v :
  plain_visit app v = true ->
  appName (visit_context v) = app
  /\ inherited_name (dateKey (visit_context v)) = false
  /\ inherited_name (sourceKey (visit_context v)) = false.
Proof.
  unfold plain_visit. intros H.
  apply andb_true_iff in H as [H H3]. apply andb_true_iff in H as [H1 H2].
  apply String.eqb_eq in H1. apply negb_true_iff in H2, H3. auto.
Qed.

Lemma visits_run app : forall rest v b top japps entry g,
  view (analytics_slot b) app top japps entry ->
  assoc_get top "global" = option_map jenc_global g ->
  match g with Some g => global_wf g = true | None => True end ->
  local_full b = false ->
  forallb (plain_visit app) (v :: rest) = true ->
  exists top' japps' a' g',
    each run_visit (v :: rest) b
      = Returns tt (put_analytics b (Encoded (JObj top')))
    /\ view (Some (Encoded (JObj top'))) app top' japps' (Some a')
    /\ assoc_get top' "global" = Some (jenc_global g')
    /\ global_wf g' = true
    /\ uniqueVisitors a'
       = distinct_ids (prior_visitors entry ++ visitors_of (v :: rest)).
Proof.
  induction rest as [|w rest IH];
    intros v b top japps entry g V Hg Hgwf Hfull Hplain;
    cbn [forallb] in Hplain; apply andb_true_iff in Hplain as [Hv Hrest];
    destruct (plain_visit_parts _ _ Hv) as (Happ & Hd & Hs);
    set (c := visit_context v) in *;
    set (a1 := viewed (ensured (visit_today v) entry) c);
    set (g1 := global_viewed (prior_global g) c);
    pose proof (stats_wf_ensured (visit_today v) entry
                  (view_entry_wf _ _ _ _ _ V)) as Hs0;
    assert (Hs1 : stats_wf a1 = true)
      by (apply stats_wf_parts in Hs0 as (H1 & H2 & H3 & H4);
          unfold stats_wf, a1, viewed; cbn [dailyViews sources interactions];
          now rewrite !distinct_keys_bump, H3, H4 by assumption);
    assert (Hg1 : global_wf g1 = true)
      by (unfold global_wf, g1, global_viewed; cbn [g_dailyViews];
          apply distinct_keys_bump;
          destruct g as [g0|]; [exact Hgwf | reflexivity]);
    assert (Hrun1 : run_visit v b
              = Returns tt (put_analytics b
                  (Encoded (JObj (pageviewed top japps app a1 g1)))))
      by (unfold run_visit; fold c; subst app;
          rewrite (record_pageview_run c _ b top japps entry g V Hg Hgwf Hd Hs);
          now rewrite Hfull);
    assert (V1 : view (Some (Encoded (JObj (pageviewed top japps app a1 g1))))
                   app (pageviewed top japps app a1 g1)
                   (assoc_set japps app (jenc_app a1)) (Some a1))
      by (pose proof (view_updated _ _ _ _ _ a1 V Hs1) as [T1 T2 T3 T4 T5 T6];
          constructor;
          [ reflexivity
          | unfold pageviewed; apply wf_json_set_member;
            [assumption | now apply wf_jenc_global]
          | right; unfold pageviewed;
            rewrite assoc_get_set_other by discriminate;
            unfold updated; apply assoc_get_set_same
          | assumption | assumption | assumption ]);
    assert (Hu1 : uniqueVisitors a1
                  = distinct_ids (prior_visitors entry ++ [visitorId c]))
      by (rewrite distinct_ids_snoc; unfold a1, viewed; cbn [uniqueVisitors];
          f_equal; destruct entry as [a|]; reflexivity).
  - exists (pageviewed top japps app a1 g1),
           (assoc_set japps app (jenc_app a1)), a1, g1.
    split; [|split; [|split; [|split]]].
    + cbn [each]. unfold bind. now rewrite Hrun1.
    + exact V1.
    + unfold pageviewed. apply assoc_get_set_same.
    + exact Hg1.
    + exact Hu1.
  - destruct (IH w (put_analytics b
                      (Encoded (JObj (pageviewed top japps app a1 g1))))
                _ _ (Some a1) (Some g1) V1)
      as (top' & japps' & a' & g' & Hrun & V' & Hg' & Hgwf' & Hu');
      [ unfold pageviewed; apply assoc_get_set_same
      | exact Hg1 | exact Hfull | exact Hrest |].
    exists top', japps', a', g'. split; [|split; [|split; [|split]]].
    + change (each run_visit (v :: w :: rest) b)
        with (bind (run_visit v) (fun _ => each run_visit (w :: rest)) b).
      unfold bind at 1. rewrite Hrun1. cbv beta. rewrite Hrun. reflexivity.
    + exact V'.
    + exact Hg'.
    + exact Hgwf'.
    + rewrite Hu'. cbn [prior_visitors]. rewrite Hu1.
      rewrite distinct_ids_absorb. f_equal.
      unfold visitors_of. cbn [map]. now rewrite <- app_assoc.
Qed.


(** *** Identity *)

Lemma getVisitorId_run e b :
  getVisitorId e b
  = match visitor_slot b with
    | Some s =>
        if negb (String.eqb s EmptyString) then Returns s b
        else if local_full b then Throws QuotaExceededError b
             else Returns (visitor_after e (visitor_slot b))
                          (put_visitor b (visitor_after e (visitor_slot b)))
    | None =>
        if local_full b then Throws QuotaExceededError b
        else Returns (visitor_after e (visitor_slot b))
                     (put_visitor b (visitor_after e (visitor_slot b)))
    end.
Proof.
  unfold getVisitorId, bind, get_visitor, set_visitor, ret, visitor_after.
  destruct (visitor_slot b) as [s|]; [destruct (String.eqb s EmptyString)|];
    cbn [negb]; destruct (local_full b); reflexivity.
Qed.

Lemma parse_jenc_session s : parse (jenc_session s) = loaded_session s.
Proof. reflexivity. Qed.

Lemma getSession_run e b prior :
  session_stored (session_slot b) prior ->
  getSession e b
  = if session_full b then Throws QuotaExceededError b
    else Returns (loaded_session (refreshed e prior))
                 (put_session b (Encoded (jenc_session (refreshed e prior)))).
Proof.
  unfold session_stored. intros H.
  unfold getSession, bind, get_session, lift, ret, set_session, stringify.
  destruct prior as [s|].
  - rewrite H. cbn [text_or json_parse]. rewrite parse_jenc_session.
    unfold loaded_session, refreshed. js_run. unfold num_gt.
    destruct (session_timeout <? now e - s_lastActivity s);
      unfold fresh_session; js_run;
      destruct (session_full b); reflexivity.
  - assert (Hf : exists j, json_parse (text_or (session_slot b) (Encoded JNull))
                           = Ok (parse j) /\ falsy j = true).
    { unfold session_absent in H.
      destruct (session_slot b) as [[| | j]|]; try discriminate;
        try (exists JNull; split; reflexivity).
      exists j. split; [reflexivity | assumption]. }
    destruct Hf as (j & -> & Hj). rewrite truthy_parse, Hj.
    unfold fresh_session, refreshed. js_run.
    destruct (session_full b); reflexivity.
Qed.

(** *** Runs that do not touch the analytics slot *)

Lemma keeps_ret {A} (a : A) : keeps_analytics (ret a).
Proof. intros b. reflexivity. Qed.

Lemma keeps_lift {A} (r : res A) : keeps_analytics (lift r).
Proof. intros b. unfold lift. destruct r; reflexivity. Qed.

Lemma keeps_bind {A B} (m : M A) (k : A -> M B) :
  keeps_analytics m -> (forall a, keeps_analytics (k a)) ->
  keeps_analytics (bind m k).
Proof.
  intros Hm Hk b. unfold bind. specialize (Hm b).
  destruct (m b) as [a b1 | err b1 |]; [|assumption|exact I].
  specialize (Hk a b1). destruct (k a b1); congruence.
Qed.

Lemma keeps_getVisitorId e : keeps_analytics (getVisitorId e).
Proof.
  intros b. rewrite getVisitorId_run.
  destruct (visitor_slot b) as [s|]; [destruct (negb (String.eqb s EmptyString))|];
    try reflexivity; destruct (local_full b); reflexivity.
Qed.

Lemma keeps_getSession e : keeps_analytics (getSession e).
Proof.
  unfold getSession.
  apply keeps_bind; [intros b; reflexivity | intros raw].
  apply keeps_bind; [apply keeps_lift | intros s0].
  apply keeps_bind; [apply keeps_lift | intros expired].
  apply keeps_bind; [apply keeps_ret | intros s1].
  apply keeps_bind; [apply keeps_lift | intros s2].
  apply keeps_bind; [apply keeps_lift | intros pv].
  apply keeps_bind; [apply keeps_lift | intros n].
  apply keeps_bind; [apply keeps_lift | intros s3].
  apply keeps_bind; [|intros _; apply keeps_ret].
  intros b. unfold set_session. destruct (session_full b); reflexivity.
Qed.

(** *** The app namespace of admin pages *)

Lemma getAppName_admin rest q r :
  getAppName (mkPage ("/admin/" ++ rest) q r) = "admin".
Proof.
  unfold getAppName. cbn [pathname]. 
  change ("/admin/" ++ rest) with (String "/" ("admin/" ++ rest)).
  cbn [strip_leading Ascii.eqb Bool.eqb slash].
  destruct rest as [|ch rest]; reflexivity.
Qed.


(** *** Serialising well-formed values *)

Lemma mem_string_ser_members flat m k :
  mem_string k (keys m) = false ->
  mem_string k (keys (ser_members flat m)) = false.
Proof.
  induction m as [|[k' x] m IH]; simpl; [reflexivity|].
  intros H. apply orb_false_iff in H as [H1 H2].
  destruct (serialize flat x); simpl; [rewrite H1|]; now apply IH.
Qed.

Lemma distinct_ser_members flat m :
  distinct (keys m) = true -> distinct (keys (ser_members flat m)) = true.
Proof.
  induction m as [|[k x] m IH]; simpl; [reflexivity|].
  intros H. apply andb_true_iff in H as [H1 H2].
  destruct (serialize flat x); simpl; [|now apply IH].
  apply negb_true_iff in H1.
  rewrite (mem_string_ser_members flat m k H1). simpl. now apply IH.
Qed.

Lemma wf_props_get m k v :
  wf_props m = true -> assoc_get m k = Some v -> wf_value v = true.
Proof.
  induction m as [|[k' a] m IH]; simpl; [discriminate|].
  intros H. apply andb_true_iff in H as [Ha Hm].
  destruct (String.eqb k' k); [now intros [= <-] | now apply IH].
Qed.

Lemma wf_serialize flat : forall v j,
  wf_value v = true -> serialize flat v = Some j -> wf_json j = true.
Proof.
  induction v as [| | b | z | | s | l IHl | m IHm | l IHl]
    using value_nested_ind; intros j Hwf Hser;
    try (simpl in Hser; injection Hser as <-; reflexivity);
    try discriminate.
  - rewrite serialize_arr in Hser. injection Hser as <-.
    simpl in Hwf |- *. induction l as [|x l IH]; simpl; [reflexivity|].
    simpl in Hwf. apply andb_true_iff in Hwf as [Hx Hl].
    inversion IHl as [|? ? Px Pl]; subst.
    rewrite (IH Pl Hl), andb_true_r.
    unfold ser_elem. destruct (serialize flat x) as [jx|] eqn:E;
      [now apply Px | reflexivity].
  - rewrite serialize_obj in Hser. injection Hser as <-.
    rewrite wf_value_obj in Hwf. apply andb_true_iff in Hwf as [Hd Hm].
    rewrite wf_json_obj. rewrite (distinct_ser_members flat m Hd). simpl.
    clear Hd. induction m as [|[k x] m IH]; simpl; [reflexivity|].
    simpl in Hm. apply andb_true_iff in Hm as [Hx Hm].
    inversion IHm as [|? ? Px Pm]; subst. simpl in Px.
    destruct (serialize flat x) as [jx|] eqn:E; simpl;
      [rewrite (Px jx Hx eq_refl)|]; now apply IH.
  - destruct flat; [|simpl in Hser; injection Hser as <-; reflexivity].
    rewrite serialize_set in Hser. injection Hser as <-.
    simpl in Hwf |- *. induction l as [|x l IH]; simpl; [reflexivity|].
    simpl in Hwf. apply andb_true_iff in Hwf as [Hx Hl].
    inversion IHl as [|? ? Px Pl]; subst.
    rewrite (IH Pl Hl), andb_true_r.
    unfold ser_elem. destruct (serialize true x) as [jx|] eqn:E;
      [now apply Px | reflexivity].
Qed.

Lemma assoc_get_ser_members flat m k v j :
  distinct (keys m) = true ->
  assoc_get m k = Some v -> serialize flat v = Some j ->
  assoc_get (ser_members flat m) k = Some j.
Proof.
  induction m as [|[k' x] m IH]; simpl; [discriminate|].
  intros Hd Hget Hser. apply andb_true_iff in Hd as [Hk Hd].
  destruct (String.eqb k' k) eqn:E.
  - injection Hget as ->. rewrite Hser. simpl. now rewrite E.
  - destruct (serialize flat x); simpl; [rewrite E|]; now apply IH.
Qed.

(** *** Reloading a stored document whose entry is any object *)

Lemma ensureApp_stored today top japps jem app ids :
  wf_json (JObj top) = true ->
  assoc_get top "apps" = Some (JObj japps) ->
  assoc_get japps app = Some (JObj jem) ->
  assoc_get jem "uniqueVisitors" = Some (JArr (map JStr ids)) ->
  let entry := VObj (assoc_set (vmap parse jem) "uniqueVisitors"
                       (VSet (map VStr (distinct_ids ids)))) in
  ensureApp today (VObj (vmap parse top)) app
  = Ok (VObj (assoc_set (vmap parse top) "apps"
                (VObj (assoc_set (vmap parse japps) app entry))),
        entry).
Proof.
  intros Hwf Happs Hentry Huv entry.
  rewrite wf_json_obj in Hwf. apply andb_true_iff in Hwf as [Hd Hm].
  pose proof (wf_members_get _ _ _ Hm Happs) as Hwa.
  rewrite wf_json_obj in Hwa. apply andb_true_iff in Hwa as [Hda Hma].
  pose proof (wf_members_get _ _ _ Hma Hentry) as Hwe.
  rewrite wf_json_obj in Hwe. apply andb_true_iff in Hwe as [Hde Hme].
  unfold ensureApp.
  js_run_with ltac:(rewrite ?Happs, ?Hentry, ?Huv;
                     rewrite ?parse_obj_distinct by assumption;
                     rewrite ?parse_strings).
  rewrite set_of_strings. reflexivity.
Qed.

End Facts.

(** ** The properties of the specification *)

Import Js Store Analytics Doc Sample Facts.

Lemma empty_view app :
  inherited_name app = false ->
  view (analytics_slot empty_browser) app [] [] None.
Proof.
  intros H. constructor; try reflexivity; try exact I; try exact H.
  left. split; reflexivity.
Defined.

Lemma quiz_view :
  view (analytics_slot quiz_loaded) "quiz" quiz_top quiz_apps
       (Some quiz_stats).
Proof.
  constructor; try reflexivity. right. reflexivity.
Defined.

Lemma quiz_counted_view :
  view (analytics_slot quiz_scores_counted) "quiz" quiz_counted_top
       quiz_counted_apps (Some quiz_counted_stats).
Proof.
  constructor; try reflexivity. right. reflexivity.
Defined.

(** C8.  Referrer classification is first-match-wins over the fixed order
    of the specification's table: an empty referrer is [direct], then
    own-domain [internal], search engines [search], twitter/x [twitter],
    reddit [reddit], facebook/instagram [social], t.co [twitter], and any
    other referrer [referral].  In particular a referrer containing the own
    domain is [internal] whatever else it contains, a search-engine name
    included. *)
Theorem C8_referrer_first_match :
  (forall p, getReferrerCategory p = referrerCategory_spec (referrer p))
  /\ (forall p,
        includes (referrer p) "onenightbuild.com" = true ->
        getReferrerCategory p = "internal").
Proof.
  split.
  - intros p. unfold getReferrerCategory, referrerCategory_spec.
    destruct (String.eqb (referrer p) EmptyString); [reflexivity|].
    unfold referrer_rules. cbn [first_match existsb].
    rewrite !orb_false_r, !orb_assoc. reflexivity.
  - intros p H. unfold getReferrerCategory. rewrite H.
    destruct (String.eqb (referrer p) EmptyString) eqn:E; [|reflexivity].
    apply String.eqb_eq in E. rewrite E in H. discriminate.
Qed.

Lemma C8_witness :
  getReferrerCategory
    (mkPage "/quiz/" [] "https://onenightbuild.com/go?to=google.com")
  = "internal".
Proof. apply (proj2 C8_referrer_first_match). reflexivity. Defined.

(** C9.  Every path under /admin/ resolves to the namespace [admin], and
    when the namespace is [admin] the module body stops at the guard: it
    installs nothing, and the analytics slot is what it was before the load,
    whichever way the run ends. *)
Theorem C9_admin_leaves_document :
  (forall rest q r, getAppName (mkPage ("/admin/" ++ rest) q r) = "admin")
  /\ (forall p e b,
        getAppName p = "admin" ->
        match module_init p e b with
        | Returns r b' => r = None /\ analytics_slot b' = analytics_slot b
        | Throws _ b' => analytics_slot b' = analytics_slot b
        | Unmodelled => True
        end).
Proof.
  split; [apply getAppName_admin|].
  intros p e b Hadmin. unfold module_init. cbn [appName]. rewrite Hadmin.
  cbn [String.eqb Ascii.eqb Bool.eqb].
  unfold bind.
  pose proof (keeps_getVisitorId e b) as Hv.
  destruct (getVisitorId e b) as [v b1 | err b1 |]; [|assumption|exact I].
  pose proof (keeps_getSession e b1) as Hs.
  destruct (getSession e b1) as [s b2 | err b2 |]; [|congruence|exact I].
  unfold ret. split; [reflexivity | congruence].
Qed.

Lemma C9_witness :
  match module_init admin_page clock empty_browser with
  | Returns r b' => r = None /\ analytics_slot b' = None
  | Throws _ b' => analytics_slot b' = None
  | Unmodelled => True
  end.
Proof.
  apply (proj2 C9_admin_leaves_document admin_page clock empty_browser).
  reflexivity.
Defined.

(** C5.  With the session slot holding a session (or none) and accepting
    the write, getSession returns and has stored the same session object;
    its lastActivity is now.  A stored session idle for at most thirty
    minutes keeps its id and start and has its pageviews incremented; with a
    longer gap, or no stored session, the session is a new one (new id,
    start now) whose pageviews went from 0 to 1. *)
Theorem C5_session_refresh e b prior :
  session_stored (session_slot b) prior ->
  session_full b = false ->
  getSession e b
  = Returns (loaded_session (refreshed e prior))
            (put_session b (Encoded (jenc_session (refreshed e prior))))
  /\ s_lastActivity (refreshed e prior) = now e
  /\ (forall s, prior = Some s ->
        now e - s_lastActivity s <= 30 * 60 * 1000 ->
        s_id (refreshed e prior) = s_id s
        /\ s_start (refreshed e prior) = s_start s
        /\ s_pageviews (refreshed e prior) = s_pageviews s + 1)
  /\ (forall s, prior = Some s ->
        30 * 60 * 1000 < now e - s_lastActivity s ->
        refreshed e prior
        = mkSession ("s_" ++ rand_session e) (now e) (now e) (0 + 1))
  /\ (prior = None ->
        refreshed e prior
        = mkSession ("s_" ++ rand_session e) (now e) (now e) (0 + 1)).
Proof.
  intros Hstored Hfull. split; [|split; [|split; [|split]]].
  - rewrite (getSession_run e b prior Hstored). now rewrite Hfull.
  - unfold refreshed, new_session. destruct prior as [s|]; [|reflexivity].
    destruct (session_timeout <? now e - s_lastActivity s); reflexivity.
  - intros s -> Hgap. unfold refreshed.
    replace (session_timeout <? now e - s_lastActivity s) with false
      by (symmetry; apply Z.ltb_ge; unfold session_timeout; lia).
    cbn [s_id s_start s_pageviews]. auto.
  - intros s -> Hgap. unfold refreshed.
    replace (session_timeout <? now e - s_lastActivity s) with true
      by (symmetry; apply Z.ltb_lt; unfold session_timeout; lia).
    reflexivity.
  - intros ->. reflexivity.
Qed.

(** At thirty minutes less one millisecond the stored session is kept, at
    thirty minutes plus one millisecond it is replaced. *)
Lemma C5_witness :
  (getSession clock_within
     (put_session empty_browser (Encoded (jenc_session quiz_session)))
   = Returns (loaded_session (mkSession "s_jklmnopqr" 1700000000000
                                        1700001799999 2))
       (put_session empty_browser
          (Encoded (jenc_session (mkSession "s_jklmnopqr" 1700000000000
                                            1700001799999 2)))))
  /\ (getSession clock_beyond
        (put_session empty_browser (Encoded (jenc_session quiz_session)))
      = Returns (loaded_session (mkSession "s_yyyyyyyyy" 1700001800001
                                           1700001800001 1))
          (put_session empty_browser
             (Encoded (jenc_session (mkSession "s_yyyyyyyyy" 1700001800001
                                               1700001800001 1))))).
Proof.
  split.
  - exact (proj1 (C5_session_refresh clock_within
                    (put_session empty_browser
                       (Encoded (jenc_session quiz_session)))
                    (Some quiz_session) eq_refl eq_refl)).
  - exact (proj1 (C5_session_refresh clock_beyond
                    (put_session empty_browser
                       (Encoded (jenc_session quiz_session)))
                    (Some quiz_session) eq_refl eq_refl)).
Defined.

(** C10.  On an admin page, with both stores accepting writes and the
    session slot holding a session or none, the module body returns at the
    guard having left the analytics slot alone but not the identity stores:
    the visitor slot holds the identifier (the stored one, or a generated
    one when the slot was absent or empty), and the session slot has been
    rewritten with lastActivity now and the pageviews counter incremented
    (from the stored value, or from 0 for a new session). *)
Theorem C10_admin_still_writes_identity p e b prior :
  getAppName p = "admin" ->
  session_stored (session_slot b) prior ->
  local_full b = false -> session_full b = false ->
  exists b',
    module_init p e b = Returns None b'
    /\ analytics_slot b' = analytics_slot b
    /\ visitor_slot b' = Some (visitor_after e (visitor_slot b))
    /\ (visitor_slot b = None ->
        visitor_slot b' = Some ("v_" ++ rand_visitor e ++ base36 (now e)))
    /\ session_slot b' = Some (Encoded (jenc_session (refreshed e prior)))
    /\ s_lastActivity (refreshed e prior) = now e
    /\ s_pageviews (refreshed e prior)
       = match prior with
         | Some s =>
             if session_timeout <? now e - s_lastActivity s then 0 + 1
             else s_pageviews s + 1
         | None => 0 + 1
         end.
Proof.
  intros Hadmin Hstored Hlocal Hsession.
  unfold module_init. cbn [appName]. rewrite Hadmin.
  cbn [String.eqb Ascii.eqb Bool.eqb].
  unfold bind at 1. rewrite getVisitorId_run, Hlocal.
  set (b1 := match visitor_slot b with
             | Some s => if negb (String.eqb s EmptyString) then b
                         else put_visitor b (visitor_after e (visitor_slot b))
             | None => put_visitor b (visitor_after e (visitor_slot b))
             end).
  assert (Hb1 : analytics_slot b1 = analytics_slot b
                /\ session_slot b1 = session_slot b
                /\ session_full b1 = session_full b
                /\ visitor_slot b1 = Some (visitor_after e (visitor_slot b))).
  { unfold b1, visitor_after. destruct (visitor_slot b) as [s|] eqn:Ev;
      [destruct (negb (String.eqb s EmptyString)) eqn:En|]; cbn; auto. }
  destruct Hb1 as (Ha1 & Hs1 & Hf1 & Hv1).
  assert (Hrun : getSession e b1
                 = Returns (loaded_session (refreshed e prior))
                     (put_session b1
                        (Encoded (jenc_session (refreshed e prior))))).
  { rewrite (getSession_run e b1 prior) by now rewrite Hs1.
    now rewrite Hf1, Hsession. }
  exists (put_session b1 (Encoded (jenc_session (refreshed e prior)))).
  split; [|split; [|split; [|split; [|split; [|split]]]]].
  - unfold b1 in *. destruct (visitor_slot b) as [s|];
      [destruct (negb (String.eqb s EmptyString))|]; unfold bind; now rewrite Hrun.
  - exact Ha1.
  - exact Hv1.
  - intros Hnone. cbn [put_session visitor_slot]. rewrite Hv1, Hnone.
    reflexivity.
  - reflexivity.
  - unfold refreshed, new_session. destruct prior as [s|]; [|reflexivity].
    destruct (session_timeout <? now e - s_lastActivity s); reflexivity.
  - unfold refreshed, new_session. destruct prior as [s|]; [|reflexivity].
    destruct (session_timeout <? now e - s_lastActivity s); reflexivity.
Qed.

Lemma C10_witness :
  exists b',
    module_init admin_page clock empty_browser = Returns None b'
    /\ analytics_slot b' = None
    /\ visitor_slot b' = Some "v_abcdefghiloyw3v28"
    /\ session_slot b' = Some (Encoded (jenc_session quiz_session)).
Proof.
  destruct (C10_admin_still_writes_identity admin_page clock empty_browser
              None eq_refl eq_refl eq_refl eq_refl)
    as (b' & Hrun & Ha & Hv & _ & Hs & _).
  exists b'. repeat split; assumption.
Defined.

(** C4.  recordTimeOnPage takes elapsed = round((now - loadTimestamp)/1000),
    [round_div] being the nearest integer with halves upwards.  Outside
    [1, 3600] the call returns with the browser untouched (nothing read,
    nothing written).  Inside, on a stored document whose entry has a
    non-negative view count and with the store accepting the write, the
    entry written back has totalTimeOnPage increased by elapsed and
    avgTimeOnPage = round(totalTimeOnPage / max(totalViews, 1)), every
    other field as ensureApp delivered it. *)
Theorem C4_time_on_page c e b :
  let elapsed := round_div (now e - pageLoadTime c) 1000 in
  (2000 * elapsed - 1000 <= 2 * (now e - pageLoadTime c)
     < 2000 * elapsed + 1000)
  /\ (elapsed < 1 \/ 3600 < elapsed -> recordTimeOnPage c e b = Returns tt b)
  /\ (forall top japps entry,
        1 <= elapsed <= 3600 ->
        view (analytics_slot b) (appName c) top japps entry ->
        local_full b = false ->
        0 <= totalViews (ensured (today e) entry) ->
        let before := ensured (today e) entry in
        let after := time_recorded before elapsed in
        recordTimeOnPage c e b
        = Returns tt (put_analytics b
            (Encoded (JObj (updated top japps (appName c) after))))
        /\ stored_at (put_analytics b
             (Encoded (JObj (updated top japps (appName c) after))))
             ["apps"; appName c]
           = Some (jenc_app after)
        /\ totalTimeOnPage after = totalTimeOnPage before + elapsed
        /\ avgTimeOnPage after
           = round_div (totalTimeOnPage after) (Z.max (totalViews after) 1)
        /\ totalViews after = totalViews before
        /\ completedSessions after = completedSessions before
        /\ uniqueVisitors after = uniqueVisitors before
        /\ interactions after = interactions before).
Proof.
  intros elapsed. split; [|split].
  - unfold elapsed, round_div.
    pose proof (Z.div_mod (2 * (now e - pageLoadTime c) + 1000) (2 * 1000)
                  ltac:(lia)) as Hdm.
    pose proof (Z.mod_pos_bound (2 * (now e - pageLoadTime c) + 1000)
                  (2 * 1000) ltac:(lia)) as Hmod.
    lia.
  - intros Hout. unfold recordTimeOnPage. fold elapsed.
    replace ((elapsed <? 1) || (3600 <? elapsed)) with true; [reflexivity|].
    symmetry. apply orb_true_iff.
    destruct Hout as [H | H]; [left; now apply Z.ltb_lt | right; now apply Z.ltb_lt].
  - intros top japps entry Hin V Hfull Hviews before after.
    split; [|split; [|split; [|split; [|repeat split]]]].
    + rewrite (recordTimeOnPage_run c e b top japps entry Hin V).
      now rewrite Hfull.
    + unfold stored_at. cbn [put_analytics analytics_slot jpath].
      unfold updated. rewrite assoc_get_set_same.
      now rewrite assoc_get_set_same.
    + reflexivity.
    + unfold after, time_recorded.
      cbn [avgTimeOnPage totalTimeOnPage totalViews].
      destruct (totalViews before =? 0) eqn:E.
      * apply Z.eqb_eq in E. rewrite E. reflexivity.
      * apply Z.eqb_neq in E. fold before in Hviews.
        now replace (Z.max (totalViews before) 1) with (totalViews before)
          by lia.
Qed.

(** 0 seconds is dropped, 1 second is accepted. *)
Lemma C4_witness :
  (recordTimeOnPage quiz_context
     (mkEnv 1700000000499 "2026-11-03" EmptyString EmptyString) quiz_loaded
   = Returns tt quiz_loaded)
  /\ (recordTimeOnPage quiz_context
        (mkEnv 1700000000500 "2026-11-03" EmptyString EmptyString) quiz_loaded
      = Returns tt (put_analytics quiz_loaded
          (Encoded (JObj (updated quiz_top quiz_apps "quiz"
             (time_recorded (ensured "2026-11-03" (Some quiz_stats)) 1)))))).
Proof.
  split.
  - apply (proj1 (proj2 (C4_time_on_page quiz_context
                           (mkEnv 1700000000499 "2026-11-03" EmptyString EmptyString)
                           quiz_loaded))).
    left. reflexivity.
  - apply (proj2 (proj2 (C4_time_on_page quiz_context
                           (mkEnv 1700000000500 "2026-11-03" EmptyString EmptyString)
                           quiz_loaded))
             quiz_top quiz_apps (Some quiz_stats)).
    + split; discriminate.
    + exact quiz_view.
    + reflexivity.
    + discriminate.
Defined.

Lemma stored_scores_of_view b top japps a app :
  analytics_slot b = Some (Encoded (JObj top)) ->
  view (Some (Encoded (JObj top))) app top japps (Some a) ->
  stored_at b ["apps"; app; "interactions"; "scores"]
  = assoc_get (interactions a) "scores".
Proof.
  intros Hslot [_ _ Happs Hentry _ _]. cbn [option_map] in Hentry.
  unfold stored_at. rewrite Hslot. cbn [jpath].
  destruct Happs as [[_ ->] | Happs]; [discriminate|].
  rewrite Happs, Hentry. unfold jenc_app.
  cbn [assoc_get String.eqb Ascii.eqb Bool.eqb].
  now destruct (assoc_get (interactions a) "scores").
Qed.

(** C6.  From a stored document whose score list is absent or a list [l],
    and with the store accepting writes, any non-empty sequence of
    completions with scores returns and leaves under interactions.scores
    the last 100 of [l] followed by the new records, oldest first; so never
    more than 100 entries, and after 105 completions on an empty list
    exactly the records of the last 100. *)
Theorem C6_scores_bounded c b top japps entry z l plays :
  view (analytics_slot b) (appName c) top japps entry ->
  local_full b = false ->
  counter_at (prior_interactions entry) "completed" = Some z ->
  score_list (prior_interactions entry) = Some l ->
  plays <> [] ->
  exists b' scores,
    each (run_play c) plays b = Returns tt b'
    /\ stored_at b' ["apps"; appName c; "interactions"; "scores"]
       = Some (JArr scores)
    /\ scores = slice_last 100 (l ++ map (play_record c) plays)
    /\ (List.length scores <= 100)%nat
    /\ (l = [] -> List.length plays = 105%nat ->
        scores = map (play_record c) (skipn 5 plays)).
Proof.
  intros V Hfull Hz Hl Hne.
  destruct plays as [|p rest]; [congruence|].
  destruct (plays_run c rest p b top japps entry z l V Hfull Hz Hl)
    as (top' & japps' & a' & Hrun & V' & _ & Hscores).
  exists (put_analytics b (Encoded (JObj top'))),
         (slice_last 100 (l ++ map (play_record c) (p :: rest))).
  split; [exact Hrun|]. split; [|split; [reflexivity|split]].
  - rewrite (stored_scores_of_view (put_analytics b (Encoded (JObj top')))
               top' japps' a' (appName c) eq_refl V').
    exact Hscores.
  - apply slice_last_length.
  - intros -> Hlen. cbn [app]. unfold slice_last.
    rewrite length_map, Hlen. cbn [Nat.sub]. now rewrite skipn_map.
Qed.

(** 105 completions with scores 1..105 on a new profile leave the records
    of scores 6..105. *)
Lemma C6_witness :
  exists b',
    each (run_play quiz_context) (plays_from 105 1) empty_browser
      = Returns tt b'
    /\ stored_at b' ["apps"; "quiz"; "interactions"; "scores"]
       = Some (JArr (map (play_record quiz_context) (plays_from 100 6))).
Proof.
  destruct (C6_scores_bounded quiz_context empty_browser [] [] None 0 []
              (plays_from 105 1) (empty_view "quiz" eq_refl) eq_refl eq_refl
              eq_refl ltac:(discriminate))
    as (b' & scores & Hrun & Hstored & _ & _ & H105).
  exists b'. split; [exact Hrun|].
  transitivity (Some (JArr scores)); [exact Hstored|].
  rewrite (H105 eq_refl eq_refl). reflexivity.
Defined.

Lemma stored_interaction_of_view b top japps a app k :
  analytics_slot b = Some (Encoded (JObj top)) ->
  view (Some (Encoded (JObj top))) app top japps (Some a) ->
  stored_at b ["apps"; app; "interactions"; k]
  = assoc_get (interactions a) k.
Proof.
  intros Hslot [_ _ Happs Hentry _ _]. cbn [option_map] in Hentry.
  unfold stored_at. rewrite Hslot. cbn [jpath].
  destruct Happs as [[_ ->] | Happs]; [discriminate|].
  rewrite Happs, Hentry. unfold jenc_app.
  cbn [assoc_get String.eqb Ascii.eqb Bool.eqb].
  now destruct (assoc_get (interactions a) k).
Qed.

Lemma stored_entry_path b top japps a app p :
  analytics_slot b = Some (Encoded (JObj top)) ->
  view (Some (Encoded (JObj top))) app top japps (Some a) ->
  stored_at b ("apps" :: app :: p) = jpath (jenc_app a) p.
Proof.
  intros Hslot [_ _ Happs Hentry _ _]. cbn [option_map] in Hentry.
  unfold stored_at. rewrite Hslot. cbn [jpath].
  destruct Happs as [[_ ->] | Happs]; [discriminate|].
  now rewrite Happs, Hentry.
Qed.

(** C7, as the code has it.  A completion with a score, on a stored
    document and with the store accepting the write, returns and counts the
    completion in every case: completedSessions (0 for a new entry) and the
    interaction counter completed are each one higher.  What it does to
    interactions.scores depends on the prior value: absent or falsy (null,
    false, 0, the empty string), the member becomes a list holding the new
    record; a list, the record is appended and the last 100 kept; any other
    value (a non-zero counter, true, a non-empty string, an object) is left
    as it is and the record is not stored. *)
Theorem C7_scores_member_after_completion c today s m b top japps entry z :
  view (analytics_slot b) (appName c) top japps entry ->
  local_full b = false ->
  counter_at (prior_interactions entry) "completed" = Some z ->
  exists b',
    onbComplete c today (VNum s) (VNum m) b = Returns tt b'
    /\ stored_at b' ["apps"; appName c; "completedSessions"]
       = Some (JNum (match entry with
                     | Some a => completedSessions a
                     | None => 0
                     end + 1))
    /\ stored_at b' ["apps"; appName c; "interactions"; "completed"]
       = Some (JNum (z + 1))
    /\ stored_at b' ["apps"; appName c; "interactions"; "scores"]
       = match assoc_get (prior_interactions entry) "scores" with
         | None => Some (JArr [jscore (dateKey c) s m])
         | Some j =>
             if falsy j then Some (JArr [jscore (dateKey c) s m])
             else
               match j with
               | JArr l =>
                   Some (JArr (slice_last 100 (l ++ [jscore (dateKey c) s m])))
               | _ => Some j
               end
         end.
Proof.
  intros V Hfull Hz.
  set (a0 := ensured today entry).
  set (a1 := completed a0 z (jscore (dateKey c) s m)).
  pose proof (stats_wf_ensured today entry (view_entry_wf _ _ _ _ _ V)) as Hs0.
  assert (Hs1 : stats_wf a1 = true) by now apply stats_wf_completed.
  pose proof (view_updated _ _ _ _ _ a1 V Hs1) as V1.
  set (b1 := put_analytics b
               (Encoded (JObj (updated top japps (appName c) a1)))).
  assert (Hslot : analytics_slot b1
                  = Some (Encoded (JObj (updated top japps (appName c) a1))))
    by reflexivity.
  exists b1. split; [|split; [|split]].
  - rewrite (onbComplete_run c today s m b top japps entry z V)
      by now rewrite interactions_ensured.
    now rewrite Hfull.
  - rewrite (stored_entry_path b1 _ _ a1 _ ["completedSessions"] Hslot V1).
    unfold a1, a0. now destruct entry.
  - rewrite (stored_interaction_of_view b1 _ _ a1 _ "completed" Hslot V1).
    unfold a1, completed. cbn [interactions].
    rewrite assoc_get_scores_update by discriminate.
    apply assoc_get_set_same.
  - rewrite (stored_interaction_of_view b1 _ _ a1 _ "scores" Hslot V1).
    unfold a1, completed. cbn [interactions]. unfold scores_update.
    rewrite (assoc_get_set_other _ "completed" "scores") by discriminate.
    unfold a0. rewrite interactions_ensured.
    destruct (assoc_get (prior_interactions entry) "scores") as [j|] eqn:E;
      [|apply assoc_get_set_same].
    destruct (falsy j) eqn:F; [apply assoc_get_set_same|].
    destruct j; try (rewrite assoc_get_set_other by discriminate; exact E).
    rewrite assoc_get_set_same. now rewrite kept_slice_last.
Qed.

(** From an empty profile: [quiz_page] is loaded, the host page calls
    onbTrack('scores'), which leaves the counter 1 under interactions.scores,
    and then onbComplete(8, 10).  The member is still the counter 1: it was
    not re-created as a list and the record was not appended. *)
Lemma C7_counterexample :
  stored_at quiz_scores_counted ["apps"; "quiz"; "interactions"; "scores"]
  = Some (JNum 1)
  /\ exists b',
       onbComplete quiz_context "2026-11-03" (VNum 8) (VNum 10)
         quiz_scores_counted = Returns tt b'
       /\ stored_at b' ["apps"; "quiz"; "interactions"; "scores"]
          = Some (JNum 1)
       /\ ~ (exists l,
               stored_at b' ["apps"; "quiz"; "interactions"; "scores"]
               = Some (JArr l)).
Proof.
  split; [reflexivity|].
  exists (after (onbComplete quiz_context "2026-11-03" (VNum 8) (VNum 10))
            quiz_scores_counted).
  split; [reflexivity|]. split; [reflexivity|].
  intros [l H]. discriminate H.
Qed.

(** The same run through the theorem, and a run on a profile without a
    scores member: the completion is counted in both, the record stored
    only in the second. *)
Lemma C7_witness :
  (exists b',
     onbComplete quiz_context "2026-11-03" (VNum 8) (VNum 10)
       quiz_scores_counted = Returns tt b'
     /\ stored_at b' ["apps"; "quiz"; "completedSessions"] = Some (JNum 1)
     /\ stored_at b' ["apps"; "quiz"; "interactions"; "completed"]
        = Some (JNum 1)
     /\ stored_at b' ["apps"; "quiz"; "interactions"; "scores"]
        = Some (JNum 1))
  /\ (exists b',
        onbComplete quiz_context "2026-11-03" (VNum 8) (VNum 10) quiz_loaded
        = Returns tt b'
        /\ stored_at b' ["apps"; "quiz"; "completedSessions"] = Some (JNum 1)
        /\ stored_at b' ["apps"; "quiz"; "interactions"; "completed"]
           = Some (JNum 1)
        /\ stored_at b' ["apps"; "quiz"; "interactions"; "scores"]
           = Some (JArr [jscore "2026-11-03" 8 10])).
Proof.
  split.
  - exact (C7_scores_member_after_completion quiz_context "2026-11-03"
             8 10 quiz_scores_counted quiz_counted_top quiz_counted_apps
             (Some quiz_counted_stats) 0 quiz_counted_view eq_refl eq_refl).
  - exact (C7_scores_member_after_completion quiz_context "2026-11-03"
             8 10 quiz_loaded quiz_top quiz_apps (Some quiz_stats) 0
             quiz_view eq_refl eq_refl).
Defined.

Lemma stored_visitors_of_view b top japps a app :
  analytics_slot b = Some (Encoded (JObj top)) ->
  view (Some (Encoded (JObj top))) app top japps (Some a) ->
  stored_at b ["apps"; app; "uniqueVisitors"]
  = Some (JArr (map JStr (uniqueVisitors a))).
Proof.
  intros Hslot [_ _ Happs Hentry _ _]. cbn [option_map] in Hentry.
  unfold stored_at. rewrite Hslot. cbn [jpath].
  destruct Happs as [[_ ->] | Happs]; [discriminate|].
  rewrite Happs, Hentry. reflexivity.
Qed.

(** C1.  From a stored document (possibly none) and with the store
    accepting writes, any non-empty sequence of pageviews against one app
    returns and leaves under the app's uniqueVisitors an array of strings
    without repetition, holding exactly the identifiers stored before and
    those of the visits: as many as there are distinct ones.  Each of these
    pageviews reads the array back from text and rebuilds the set.  The
    rebuilding itself: an array becomes the set built from it, which for an
    array of identifiers is the list of its distinct members in order of
    first appearance, and a member that is neither array nor set becomes
    the empty set. *)
Theorem C1_unique_visitors app b top japps entry g visits :
  view (analytics_slot b) app top japps entry ->
  assoc_get top "global" = option_map jenc_global g ->
  match g with Some g => global_wf g = true | None => True end ->
  local_full b = false ->
  forallb (plain_visit app) visits = true ->
  visits <> [] ->
  (exists b' ids,
     each run_visit visits b = Returns tt b'
     /\ stored_at b' ["apps"; app; "uniqueVisitors"]
        = Some (JArr (map JStr ids))
     /\ NoDup ids
     /\ (forall x,
           In x ids <-> In x (prior_visitors entry ++ visitors_of visits))
     /\ List.length ids
        = List.length (nodup string_dec
                         (prior_visitors entry ++ visitors_of visits)))
  /\ (forall m l,
        assoc_get m "uniqueVisitors" = Some (VArr l) ->
        repair_visitors (VObj m)
        = Ok (VObj (assoc_set m "uniqueVisitors" (VSet (set_of_list l)))))
  /\ (forall l,
        set_of_list (map VStr l) = map VStr (distinct_ids l)
        /\ NoDup (distinct_ids l)
        /\ (forall x, In x (distinct_ids l) <-> In x l))
  /\ (forall m,
        match assoc_get m "uniqueVisitors" with
        | Some (VArr _) | Some (VSet _) => False
        | _ => True
        end ->
        repair_visitors (VObj m)
        = Ok (VObj (assoc_set m "uniqueVisitors" (VSet [])))).
Proof.
  intros V Hg Hgwf Hfull Hplain Hne. split; [|split; [|split]].
  - destruct visits as [|v rest]; [congruence|].
    destruct (visits_run app rest v b top japps entry g V Hg Hgwf Hfull Hplain)
      as (top' & japps' & a' & g' & Hrun & V' & _ & _ & Hids).
    exists (put_analytics b (Encoded (JObj top'))), (uniqueVisitors a').
    split; [exact Hrun|]. split; [|split; [|split]].
    + exact (stored_visitors_of_view (put_analytics b (Encoded (JObj top')))
               top' japps' a' app eq_refl V').
    + rewrite Hids. apply NoDup_distinct_ids.
    + intros x. rewrite Hids. apply In_distinct_ids.
    + rewrite Hids. apply distinct_ids_count.
  - intros m l Hget. unfold repair_visitors.
    rewrite (get_prop_own _ _ _ Hget). cbn [rbind].
    now rewrite set_prop_obj by reflexivity.
  - intros l. split; [apply set_of_strings|].
    split; [apply NoDup_distinct_ids | intros x; apply In_distinct_ids].
  - intros m Hshape. unfold repair_visitors, get_prop.
    destruct (assoc_get m "uniqueVisitors") as [[]|];
      try contradiction; cbn [rbind];
      try (change (inherited_name "uniqueVisitors") with false; cbn [rbind]);
      now rewrite set_prop_obj by reflexivity.
Qed.

(** Three visits by two visitors on a new profile. *)
Lemma C1_witness :
  exists b' ids,
    each run_visit
      [ mkVisit quiz_context "2026-11-03";
        mkVisit (mkContext "v_other" VNull "quiz" "2026-11-04"
                           (mkUtm "newsletter" EmptyString EmptyString) "direct" 0)
                "2026-11-04";
        mkVisit quiz_context "2026-11-05" ] empty_browser
    = Returns tt b'
    /\ stored_at b' ["apps"; "quiz"; "uniqueVisitors"]
       = Some (JArr (map JStr ids))
    /\ NoDup ids
    /\ List.length ids = 2%nat.
Proof.
  destruct (proj1 (C1_unique_visitors "quiz" empty_browser [] [] None None
              [ mkVisit quiz_context "2026-11-03";
                mkVisit (mkContext "v_other" VNull "quiz" "2026-11-04"
                                   (mkUtm "newsletter" EmptyString EmptyString) "direct" 0)
                        "2026-11-04";
                mkVisit quiz_context "2026-11-05" ]
              (empty_view "quiz" eq_refl) eq_refl I eq_refl eq_refl
              ltac:(discriminate)))
    as (b' & ids & Hrun & Hstored & Hnodup & _ & Hlen).
  exists b', ids. repeat split; assumption.
Defined.

Lemma distinct_NoDup l : distinct l = true -> NoDup l.
Proof.
  induction l as [|x l IH]; simpl; intros H; constructor.
  - apply andb_true_iff in H as [H _]. apply negb_true_iff in H.
    intros Hin. apply mem_string_true_iff in Hin. congruence.
  - apply andb_true_iff in H as [_ H]. now apply IH.
Qed.

Lemma wf_value_member m k v :
  wf_value (VObj m) = true -> assoc_get m k = Some (VObj v) ->
  distinct (keys v) = true /\ wf_props v = true.
Proof.
  rewrite wf_value_obj. intros H Hget. apply andb_true_iff in H as [_ Hp].
  pose proof (wf_props_get _ _ _ Hp Hget) as Hv.
  rewrite wf_value_obj in Hv. now apply andb_true_iff in Hv.
Qed.

(** C2.  Let [data] be a document in memory (every object with its
    properties named once) whose entry for [app] holds a set of distinct
    visitor identifiers.  The text that saving it writes, once loaded and
    repaired by ensureApp for that app and saved again with nothing changed
    in between, is written back identically. *)
Theorem C2_save_load_save data app today ids :
  wf_value data = true ->
  holds_visitor_set data app ids ->
  distinct ids = true ->
  exists j,
    saved_text data = Ok (Encoded j)
    /\ exists data' entry',
         reloaded today (Encoded j) app = Ok (data', entry')
         /\ saved_text data' = Ok (Encoded j).
Proof.
  intros Hwf (m & am & em & -> & Hm & Ham & Hem) Hids.
  destruct (wf_value_member m "apps" am Hwf Hm) as [Hdam Hpam].
  assert (Hwam : wf_value (VObj am) = true)
    by (rewrite wf_value_obj; now rewrite Hdam, Hpam).
  destruct (wf_value_member am app em Hwam Ham) as [Hdem Hpem].
  pose proof Hwf as Hwf'. rewrite wf_value_obj in Hwf'.
  apply andb_true_iff in Hwf' as [Hdm Hpm].
  set (jm := ser_members true m).
  set (japps := ser_members true am).
  set (jem := ser_members true em).
  assert (Hj : wf_json (JObj jm) = true)
    by (apply (wf_serialize true (VObj m)); [assumption | apply serialize_obj]).
  assert (Hjapps : assoc_get jm "apps" = Some (JObj japps))
    by (apply (assoc_get_ser_members true m "apps" (VObj am));
        [assumption | assumption | apply serialize_obj]).
  assert (Hjem : assoc_get japps app = Some (JObj jem))
    by (apply (assoc_get_ser_members true am app (VObj em));
        [assumption | assumption | apply serialize_obj]).
  assert (Hjuv : assoc_get jem "uniqueVisitors" = Some (JArr (map JStr ids)))
    by (apply (assoc_get_ser_members true em "uniqueVisitors"
                 (VSet (map VStr ids)));
        [assumption | assumption | apply serialize_string_set]).
  pose proof Hj as Hj'. rewrite wf_json_obj in Hj'.
  apply andb_true_iff in Hj' as [Hdjm Hwjm].
  pose proof (wf_members_get _ _ _ Hwjm Hjapps) as Hwa.
  rewrite wf_json_obj in Hwa. apply andb_true_iff in Hwa as [Hdja Hwja].
  pose proof (wf_members_get _ _ _ Hwja Hjem) as Hwe.
  rewrite wf_json_obj in Hwe. apply andb_true_iff in Hwe as [Hdje Hwje].
  assert (Hsave : forall mm apps,
             assoc_get mm "apps" = Some (VObj apps) ->
             serialize true (VObj mm) = Some (JObj jm) ->
             saved_text (VObj mm) = Ok (Encoded (JObj jm))).
  { intros mm apps Hget Hser. unfold saved_text, prepareForSave.
    rewrite (get_prop_own _ _ _ Hget). cbn [rbind truthy negb].
    rewrite Hser. cbn [rbind]. unfold stringify.
    now rewrite (serialize_parse false (JObj jm) Hj). }
  exists (JObj jm). split.
  - apply (Hsave m am Hm). apply serialize_obj.
  - eexists. eexists. split.
    + unfold reloaded. cbn [json_parse rbind].
      rewrite parse_obj_distinct by assumption.
      apply (ensureApp_stored today jm japps jem app ids Hj Hjapps Hjem Hjuv).
    + eapply Hsave; [apply assoc_get_set_same|].
      rewrite (distinct_ids_fixed ids (distinct_NoDup ids Hids)).
      rewrite serialize_obj. do 2 f_equal.
      rewrite (ser_members_set_parse true jm "apps" _
                 (JObj japps) Hwjm); [now apply assoc_set_same|].
      rewrite serialize_obj. do 2 f_equal.
      rewrite (ser_members_set_parse true japps app _
                 (JObj jem) Hwja); [now apply assoc_set_same|].
      rewrite serialize_obj. do 2 f_equal.
      rewrite (ser_members_set_parse true jem "uniqueVisitors" _
                 (JArr (map JStr ids)) Hwje);
        [now apply assoc_set_same | apply serialize_string_set].
Qed.

(** The document of [quiz_loaded] as a recorder holds it in memory. *)
Lemma C2_witness :
  exists j,
    saved_text (VObj [("apps", VObj [("quiz", live_app quiz_stats)]);
                      ("global", loaded_global quiz_global)])
    = Ok (Encoded j)
    /\ exists data' entry',
         reloaded "2026-11-04" (Encoded j) "quiz" = Ok (data', entry')
         /\ saved_text data' = Ok (Encoded j).
Proof.
  apply (C2_save_load_save _ "quiz" "2026-11-04" ["v_abcdefghiloyw3v28"]).
  - reflexivity.
  - exists [("apps", VObj [("quiz", live_app quiz_stats)]);
            ("global", loaded_global quiz_global)].
    eexists. eexists. repeat split; reflexivity.
  - reflexivity.
Defined.

(** C3, where the code departs from it.  getVisitorId has no handler
    around its write: in a profile without a visitor identifier whose
    localStorage rejects writes it throws, and with it the whole module
    body.  The public recorders guard only JSON.parse and setItem: on an
    analytics slot holding the text [null] the property access in ensureApp
    throws out of onbTrack.  The unguarded JSON.parse of getSession throws
    out of the module body on a session slot that is not JSON. *)
Theorem C3_runs_that_throw :
  getVisitorId clock full_browser = Throws QuotaExceededError full_browser
  /\ module_init quiz_page clock full_browser
     = Throws QuotaExceededError full_browser
  /\ onbTrack quiz_context "2026-11-03" "click" null_document_browser
     = Throws TypeError null_document_browser
  /\ module_init quiz_page clock garbled_session_browser
     = Throws SyntaxError garbled_session_browser.
Proof. repeat split; reflexivity. Qed.

(** ** Further properties of the code *)

Import Hooks Steps.

(** *** The recorders on a typed entry *)

Lemma onbTrack_app_live ev a z :
  counter_at (interactions a) ev = Some z -> inherited_name ev = false ->
  onbTrack_app ev (live_app a) = Ok (live_app (tracked a ev z)).
Proof.
  intros Hz Hev. unfold onbTrack_app, live_app. js_run.
  rewrite (count_up_parsed _ _ _ Hz Hev). js_run. reflexivity.
Qed.

Lemma share_key_plain p : inherited_name (share_key p) = false.
Proof. destruct p as [s|]; reflexivity. Qed.

Lemma incr_affiliateClicks_live a :
  incr_field (live_app a) "affiliateClicks"
  = Ok (live_app
          (mkStats (firstSeen a) (totalViews a) (uniqueVisitors a)
             (dailyViews a) (interactions a) (sources a) (avgTimeOnPage a)
             (totalTimeOnPage a) (completedSessions a) (shares a)
             (affiliateClicks a + 1))).
Proof. unfold live_app. js_run. reflexivity. Qed.

Lemma incr_shares_live a :
  incr_field (live_app a) "shares"
  = Ok (live_app
          (mkStats (firstSeen a) (totalViews a) (uniqueVisitors a)
             (dailyViews a) (interactions a) (sources a) (avgTimeOnPage a)
             (totalTimeOnPage a) (completedSessions a) (shares a + 1)
             (affiliateClicks a))).
Proof. unfold live_app. js_run. reflexivity. Qed.

Lemma step_live c a k a' :
  step c a k = Some a' ->
  match k with
  | CallTrack ev => onbTrack_app ev
  | CallAffiliateClick _ =>
      fun app => rbind (incr_field app "affiliateClicks")
                       (onbTrack_app "affiliate_click")
  | CallShare p =>
      fun app => rbind (incr_field app "shares")
                       (onbTrack_app (share_key p))
  | CallComplete s m => onbComplete_app c (score_value s) (VNum m)
  end (live_app a) = Ok (live_app a').
Proof.
  destruct k as [ev | p | p | [s|] m]; cbn [step].
  - destruct (inherited_name ev) eqn:Hev; [discriminate|].
    destruct (counter_at (interactions a) ev) as [z|] eqn:Hz; [|discriminate].
    intros [= <-]. now apply onbTrack_app_live.
  - destruct (counter_at (interactions a) "affiliate_click") as [z|] eqn:Hz;
      [|discriminate].
    intros [= <-]. rewrite incr_affiliateClicks_live. cbn [rbind].
    erewrite onbTrack_app_live; [reflexivity | exact Hz | reflexivity].
  - destruct (counter_at (interactions a) (share_key p)) as [z|] eqn:Hz;
      [|discriminate].
    intros [= <-]. rewrite incr_shares_live. cbn [rbind].
    erewrite onbTrack_app_live;
      [reflexivity | exact Hz | apply share_key_plain].
  - destruct (counter_at (interactions a) "completed") as [z|] eqn:Hz;
      [|discriminate].
    intros [= <-]. now apply onbComplete_app_live.
  - destruct (counter_at (interactions a) "completed") as [z|] eqn:Hz;
      [|discriminate].
    intros [= <-]. unfold onbComplete_app, live_app. js_run.
    rewrite (count_up_parsed _ _ _ Hz eq_refl). unfold record_score. js_run.
    reflexivity.
Qed.

Lemma stats_wf_step c a k a' :
  stats_wf a = true -> step c a k = Some a' -> stats_wf a' = true.
Proof.
  intros H. pose proof (stats_wf_parts a H) as (H1 & H2 & H3 & H4).
  assert (Hset : forall key z,
            distinct (keys (assoc_set (interactions a) key (JNum z))) = true
            /\ wf_members (assoc_set (interactions a) key (JNum z)) = true)
    by (intros key z; split;
        [now apply distinct_assoc_set | now apply wf_members_assoc_set]).
  destruct k as [ev | p | p | [s|] m]; cbn [step].
  - destruct (inherited_name ev); [discriminate|].
    destruct (counter_at (interactions a) ev) as [z|]; [|discriminate].
    intros [= <-]. unfold stats_wf, tracked.
    cbn [dailyViews sources interactions].
    destruct (Hset ev (z + 1)) as [-> ->]. now rewrite H1, H2.
  - destruct (counter_at (interactions a) "affiliate_click") as [z|];
      [|discriminate].
    intros [= <-]. unfold stats_wf, affiliate_clicked.
    cbn [dailyViews sources interactions].
    destruct (Hset "affiliate_click" (z + 1)) as [-> ->]. now rewrite H1, H2.
  - destruct (counter_at (interactions a) (share_key p)) as [z|];
      [|discriminate].
    intros [= <-]. unfold stats_wf, shared.
    cbn [dailyViews sources interactions].
    destruct (Hset (share_key p) (z + 1)) as [-> ->]. now rewrite H1, H2.
  - destruct (counter_at (interactions a) "completed") as [z|];
      [|discriminate].
    intros [= <-]. now apply stats_wf_completed.
  - destruct (counter_at (interactions a) "completed") as [z|];
      [|discriminate].
    intros [= <-]. unfold stats_wf, completed_unscored.
    cbn [dailyViews sources interactions].
    destruct (Hset "completed" (z + 1)) as [-> ->]. now rewrite H1, H2.
Qed.

Lemma run_call_run c today k b top japps entry a' :
  view (analytics_slot b) (appName c) top japps entry ->
  step c (ensured today entry) k = Some a' ->
  run_call c today k b
  = Returns tt
      (if local_full b then b
       else put_analytics b
              (Encoded (JObj (updated top japps (appName c) a')))).
Proof.
  intros V Hstep.
  pose proof (stats_wf_ensured today entry (view_entry_wf _ _ _ _ _ V)) as Hs0.
  pose proof (stats_wf_step c _ k a' Hs0 Hstep) as Hs1.
  pose proof (step_live c _ k a' Hstep) as Hlive.
  destruct k as [ev | p | p | s m]; cbn [run_call];
    [unfold onbTrack | unfold onbAffiliateClick | unfold onbShare
     | unfold onbComplete];
    now apply (with_app_run c today _ b top japps entry a').
Qed.

(** What a cycle leaves outside the entry it rewrites. *)
Lemma stored_outside_entry b app top japps entry a :
  view (analytics_slot b) app top japps entry ->
  let b' := put_analytics b (Encoded (JObj (updated top japps app a))) in
  (forall other p, other <> app ->
     stored_at b' ("apps" :: other :: p) = stored_at b ("apps" :: other :: p))
  /\ (forall k p, k <> "apps" -> stored_at b' (k :: p) = stored_at b (k :: p)).
Proof.
  intros [Htop _ Happs _ _ _] b'. unfold b', stored_at, updated.
  cbn [put_analytics analytics_slot]. split.
  - intros other p Hne. cbn [jpath]. rewrite assoc_get_set_same.
    rewrite assoc_get_set_other by congruence.
    destruct (analytics_slot b) as [[| | j]|]; cbn in Htop;
      try (injection Htop as <-; destruct Happs as [[_ ->] | Happs];
           [reflexivity | discriminate]).
    destruct j; try discriminate. injection Htop as ->.
    destruct Happs as [[Hnone ->] | Happs]; [now rewrite Hnone|].
    now rewrite Happs.
  - intros k p Hne. cbn [jpath].
    rewrite assoc_get_set_other by congruence.
    destruct (analytics_slot b) as [[| | j]|]; cbn in Htop;
      try (injection Htop as <-; reflexivity).
    destruct j; try discriminate. now injection Htop as ->.
Qed.

Lemma run_call_stored c today k b top japps entry a' :
  view (analytics_slot b) (appName c) top japps entry ->
  step c (ensured today entry) k = Some a' ->
  local_full b = false ->
  let b' := put_analytics b
              (Encoded (JObj (updated top japps (appName c) a'))) in
  run_call c today k b = Returns tt b'
  /\ forall p, stored_at b' ("apps" :: appName c :: p) = jpath (jenc_app a') p.
Proof.
  intros V Hstep Hfull b'. split.
  - rewrite (run_call_run c today k b top japps entry a' V Hstep).
    now rewrite Hfull.
  - intros p.
    pose proof (stats_wf_ensured today entry (view_entry_wf _ _ _ _ _ V)) as Hs0.
    pose proof (stats_wf_step c _ k a' Hs0 Hstep) as Hs1.
    exact (stored_entry_path b' _ _ a' (appName c) p eq_refl
             (view_updated _ _ _ _ _ a' V Hs1)).
Qed.

Lemma jpath_interaction a k :
  jpath (jenc_app a) ["interactions"; k] = assoc_get (interactions a) k.
Proof.
  unfold jenc_app. cbn [jpath assoc_get String.eqb Ascii.eqb Bool.eqb].
  now destruct (assoc_get (interactions a) k).
Qed.

(** X1.  onbTrack(eventName), on a stored document (or none) in which the
    event's counter is absent or a number, and with the store accepting the
    write, returns and leaves the counter one higher (1 when it was absent);
    every other interaction keeps the value it had. *)
Theorem X1_onbTrack_counts c today ev b top japps entry z :
  view (analytics_slot b) (appName c) top japps entry ->
  inherited_name ev = false ->
  counter_at (prior_interactions entry) ev = Some z ->
  local_full b = false ->
  exists b',
    onbTrack c today ev b = Returns tt b'
    /\ stored_at b' ["apps"; appName c; "interactions"; ev]
       = Some (JNum (z + 1))
    /\ forall k, k <> ev ->
         stored_at b' ["apps"; appName c; "interactions"; k]
         = assoc_get (prior_interactions entry) k.
Proof.
  intros V Hev Hz Hfull.
  assert (Hstep : step c (ensured today entry) (CallTrack ev)
                  = Some (tracked (ensured today entry) ev z))
    by (cbn [step]; now rewrite Hev, interactions_ensured, Hz).
  destruct (run_call_stored c today _ b top japps entry _ V Hstep Hfull)
    as [Hrun Hstored].
  eexists. split; [exact Hrun|]. split.
  - rewrite Hstored, jpath_interaction. cbn [tracked interactions].
    apply assoc_get_set_same.
  - intros k Hk. rewrite Hstored, jpath_interaction.
    cbn [tracked interactions].
    rewrite assoc_get_set_other by congruence.
    now rewrite interactions_ensured.
Qed.

Lemma X1_witness :
  exists b',
    onbTrack quiz_context "2026-11-03" "play" quiz_scores_counted
    = Returns tt b'
    /\ stored_at b' ["apps"; "quiz"; "interactions"; "play"] = Some (JNum 1)
    /\ stored_at b' ["apps"; "quiz"; "interactions"; "scores"]
       = Some (JNum 1).
Proof.
  destruct (X1_onbTrack_counts quiz_context "2026-11-03" "play"
              quiz_scores_counted quiz_counted_top quiz_counted_apps
              (Some quiz_counted_stats) 0 quiz_counted_view eq_refl eq_refl
              eq_refl)
    as (b' & Hrun & Hnew & Hother).
  exists b'. split; [exact Hrun|]. split; [exact Hnew|].
  apply (Hother "scores"). discriminate.
Defined.

(** X2.  onbAffiliateClick adds one to affiliateClicks and one to the
    interaction counter affiliate_click, whatever product name it is given:
    the name is not recorded. *)
Theorem X2_onbAffiliateClick_counts c today product b top japps entry z :
  view (analytics_slot b) (appName c) top japps entry ->
  counter_at (prior_interactions entry) "affiliate_click" = Some z ->
  local_full b = false ->
  exists b',
    onbAffiliateClick c today product b = Returns tt b'
    /\ stored_at b' ["apps"; appName c; "affiliateClicks"]
       = Some (JNum (affiliateClicks (prior_stats today entry) + 1))
    /\ stored_at b' ["apps"; appName c; "interactions"; "affiliate_click"]
       = Some (JNum (z + 1))
    /\ forall other, onbAffiliateClick c today other b = Returns tt b'.
Proof.
  intros V Hz Hfull.
  assert (Hstep : forall p, step c (ensured today entry) (CallAffiliateClick p)
                  = Some (affiliate_clicked (ensured today entry) z))
    by (intros p; cbn [step]; now rewrite interactions_ensured, Hz).
  destruct (run_call_stored c today _ b top japps entry _ V (Hstep product)
              Hfull) as [Hrun Hstored].
  eexists. split; [exact Hrun|]. split; [|split].
  - rewrite Hstored. destruct entry; reflexivity.
  - rewrite Hstored, jpath_interaction. cbn [affiliate_clicked interactions].
    apply assoc_get_set_same.
  - intros other.
    exact (proj1 (run_call_stored c today _ b top japps entry _ V
                    (Hstep other) Hfull)).
Qed.

Lemma X2_witness :
  exists b',
    onbAffiliateClick quiz_context "2026-11-03" (VStr "amazon") quiz_loaded
    = Returns tt b'
    /\ stored_at b' ["apps"; "quiz"; "affiliateClicks"] = Some (JNum 1)
    /\ stored_at b' ["apps"; "quiz"; "interactions"; "affiliate_click"]
       = Some (JNum 1).
Proof.
  destruct (X2_onbAffiliateClick_counts quiz_context "2026-11-03"
              (VStr "amazon") quiz_loaded quiz_top quiz_apps (Some quiz_stats)
              0 quiz_view eq_refl eq_refl)
    as (b' & Hrun & Hclicks & Hcounter & _).
  exists b'. repeat split; assumption.
Defined.

(** X3.  onbShare(platform) adds one to shares and one to the interaction
    counter share_<platform>; a call with the platform omitted or empty is
    counted under share_unknown. *)
Theorem X3_onbShare_counts c today platform b top japps entry z :
  view (analytics_slot b) (appName c) top japps entry ->
  counter_at (prior_interactions entry) (share_key platform) = Some z ->
  local_full b = false ->
  (exists b',
     onbShare c today platform b = Returns tt b'
     /\ stored_at b' ["apps"; appName c; "shares"]
        = Some (JNum (shares (prior_stats today entry) + 1))
     /\ stored_at b' ["apps"; appName c; "interactions"; share_key platform]
        = Some (JNum (z + 1)))
  /\ share_key None = "share_unknown"
  /\ share_key (Some EmptyString) = "share_unknown"
  /\ (forall s, s <> EmptyString -> share_key (Some s) = "share_" ++ s).
Proof.
  intros V Hz Hfull. split; [|split; [reflexivity | split; [reflexivity|]]].
  - assert (Hstep : step c (ensured today entry) (CallShare platform)
                    = Some (shared (ensured today entry) (share_key platform) z))
      by (cbn [step]; now rewrite interactions_ensured, Hz).
    destruct (run_call_stored c today _ b top japps entry _ V Hstep Hfull)
      as [Hrun Hstored].
    eexists. split; [exact Hrun|]. split.
    + rewrite Hstored. destruct entry; reflexivity.
    + rewrite Hstored, jpath_interaction. cbn [shared interactions].
      apply assoc_get_set_same.
  - intros s Hs. unfold share_key. apply String.eqb_neq in Hs. now rewrite Hs.
Qed.

Lemma X3_witness :
  exists b',
    onbShare quiz_context "2026-11-03" None quiz_loaded = Returns tt b'
    /\ stored_at b' ["apps"; "quiz"; "shares"] = Some (JNum 1)
    /\ stored_at b' ["apps"; "quiz"; "interactions"; "share_unknown"]
       = Some (JNum 1).
Proof.
  destruct (proj1 (X3_onbShare_counts quiz_context "2026-11-03" None
              quiz_loaded quiz_top quiz_apps (Some quiz_stats) 0 quiz_view
              eq_refl eq_refl))
    as (b' & Hrun & Hshares & Hcounter).
  exists b'. repeat split; assumption.
Defined.

Lemma onbComplete_unscored_run c today maxScore b top japps entry z :
  view (analytics_slot b) (appName c) top japps entry ->
  counter_at (prior_interactions entry) "completed" = Some z ->
  local_full b = false ->
  let a' := completed_unscored (ensured today entry) z in
  let b' := put_analytics b
              (Encoded (JObj (updated top japps (appName c) a'))) in
  onbComplete c today VUndef maxScore b = Returns tt b'
  /\ forall p, stored_at b' ("apps" :: appName c :: p) = jpath (jenc_app a') p.
Proof.
  intros V Hz Hfull a' b'.
  assert (Hstep : step c (ensured today entry) (CallComplete None 0) = Some a')
    by (cbn [step]; now rewrite interactions_ensured, Hz).
  pose proof (stats_wf_ensured today entry (view_entry_wf _ _ _ _ _ V)) as Hs0.
  pose proof (stats_wf_step c _ _ a' Hs0 Hstep) as Hs1.
  split.
  - unfold onbComplete.
    rewrite (with_app_run c today _ b top japps entry a' V); [|  | exact Hs1].
    + now rewrite Hfull.
    + unfold onbComplete_app, live_app. js_run.
      rewrite (count_up_parsed (interactions (ensured today entry))
                 "completed" z) by (now rewrite ?interactions_ensured).
      unfold record_score. js_run. reflexivity.
  - intros p.
    exact (stored_entry_path b' _ _ a' (appName c) p eq_refl
             (view_updated _ _ _ _ _ a' V Hs1)).
Qed.

(** X4.  onbComplete called without a score, whatever its second argument,
    counts the completion (completedSessions and the interaction counter
    completed each go up by one) and leaves interactions.scores exactly as
    it was: absent stays absent, and no list is created. *)
Theorem X4_onbComplete_without_score c today maxScore b top japps entry z :
  view (analytics_slot b) (appName c) top japps entry ->
  counter_at (prior_interactions entry) "completed" = Some z ->
  local_full b = false ->
  exists b',
    onbComplete c today VUndef maxScore b = Returns tt b'
    /\ stored_at b' ["apps"; appName c; "completedSessions"]
       = Some (JNum (completedSessions (prior_stats today entry) + 1))
    /\ stored_at b' ["apps"; appName c; "interactions"; "completed"]
       = Some (JNum (z + 1))
    /\ stored_at b' ["apps"; appName c; "interactions"; "scores"]
       = assoc_get (prior_interactions entry) "scores".
Proof.
  intros V Hz Hfull.
  destruct (onbComplete_unscored_run c today maxScore b top japps entry z
              V Hz Hfull) as [Hrun Hstored].
  eexists. split; [exact Hrun|]. split; [|split].
  - rewrite Hstored. destruct entry; reflexivity.
  - rewrite Hstored, jpath_interaction. cbn [completed_unscored interactions].
    apply assoc_get_set_same.
  - rewrite Hstored, jpath_interaction. cbn [completed_unscored interactions].
    rewrite assoc_get_set_other by discriminate.
    now rewrite interactions_ensured.
Qed.

Lemma X4_witness :
  exists b',
    onbComplete quiz_context "2026-11-03" VUndef VUndef quiz_loaded
    = Returns tt b'
    /\ stored_at b' ["apps"; "quiz"; "interactions"; "completed"]
       = Some (JNum 1)
    /\ stored_at b' ["apps"; "quiz"; "interactions"; "scores"] = None.
Proof.
  destruct (X4_onbComplete_without_score quiz_context "2026-11-03" VUndef
              quiz_loaded quiz_top quiz_apps (Some quiz_stats) 0 quiz_view
              eq_refl eq_refl)
    as (b' & Hrun & _ & Hcompleted & Hscores).
  exists b'. repeat split; assumption.
Defined.

Lemma step_keeps c a k a' :
  step c a k = Some a' ->
  firstSeen a' = firstSeen a /\ totalViews a' = totalViews a
  /\ uniqueVisitors a' = uniqueVisitors a /\ dailyViews a' = dailyViews a
  /\ sources a' = sources a /\ avgTimeOnPage a' = avgTimeOnPage a
  /\ totalTimeOnPage a' = totalTimeOnPage a.
Proof.
  destruct k as [ev | p | p | [s|] m]; cbn [step];
    try (destruct (inherited_name ev); [discriminate|]);
    match goal with
    | |- option_map _ ?o = _ -> _ => destruct o; [|discriminate]
    end;
    intros [= <-]; repeat split; reflexivity.
Qed.

Lemma ensured_keeps today entry :
  firstSeen (ensured today entry) = firstSeen (prior_stats today entry)
  /\ totalViews (ensured today entry) = totalViews (prior_stats today entry)
  /\ dailyViews (ensured today entry) = dailyViews (prior_stats today entry)
  /\ sources (ensured today entry) = sources (prior_stats today entry)
  /\ avgTimeOnPage (ensured today entry)
     = avgTimeOnPage (prior_stats today entry)
  /\ totalTimeOnPage (ensured today entry)
     = totalTimeOnPage (prior_stats today entry).
Proof. destruct entry; repeat split; reflexivity. Qed.

(** X5.  A call of onbTrack, onbAffiliateClick, onbShare or onbComplete
    rewrites the entry of the page's own app and nothing else: the visitor
    and session slots, the entries of the other apps and every other
    top-level member of the document (the global record among them) are as
    before, and within the entry firstSeen, the view counters, the source
    counters and the time totals keep their values (firstSeen being the
    date of the call when the entry is new). *)
Theorem X5_recorders_frame c today k b top japps entry a' :
  view (analytics_slot b) (appName c) top japps entry ->
  step c (ensured today entry) k = Some a' ->
  local_full b = false ->
  exists b',
    run_call c today k b = Returns tt b'
    /\ visitor_slot b' = visitor_slot b
    /\ session_slot b' = session_slot b
    /\ (forall other p, other <> appName c ->
          stored_at b' ("apps" :: other :: p)
          = stored_at b ("apps" :: other :: p))
    /\ (forall key p, key <> "apps" ->
          stored_at b' (key :: p) = stored_at b (key :: p))
    /\ stored_at b' ["apps"; appName c; "firstSeen"]
       = Some (JStr (firstSeen (prior_stats today entry)))
    /\ stored_at b' ["apps"; appName c; "totalViews"]
       = Some (JNum (totalViews (prior_stats today entry)))
    /\ stored_at b' ["apps"; appName c; "dailyViews"]
       = Some (JObj (vmap JNum (dailyViews (prior_stats today entry))))
    /\ stored_at b' ["apps"; appName c; "sources"]
       = Some (JObj (vmap JNum (sources (prior_stats today entry))))
    /\ stored_at b' ["apps"; appName c; "totalTimeOnPage"]
       = Some (JNum (totalTimeOnPage (prior_stats today entry)))
    /\ stored_at b' ["apps"; appName c; "avgTimeOnPage"]
       = Some (JNum (avgTimeOnPage (prior_stats today entry))).
Proof.
  intros V Hstep Hfull.
  destruct (run_call_stored c today k b top japps entry a' V Hstep Hfull)
    as [Hrun Hstored].
  destruct (stored_outside_entry b (appName c) top japps entry a' V)
    as [Hother Htop].
  destruct (step_keeps c _ k a' Hstep) as (K1 & K2 & _ & K4 & K5 & K6 & K7).
  destruct (ensured_keeps today entry) as (E1 & E2 & E4 & E5 & E6 & E7).
  eexists. split; [exact Hrun|].
  split; [reflexivity|]. split; [reflexivity|].
  split; [exact Hother|]. split; [exact Htop|].
  rewrite !Hstored. unfold jenc_app.
  cbn [jpath assoc_get String.eqb Ascii.eqb Bool.eqb].
  rewrite K1, K2, K4, K5, K6, K7, E1, E2, E4, E5, E6, E7.
  repeat split; reflexivity.
Qed.

Lemma X5_witness :
  exists b',
    run_call quiz_context "2026-11-04" (CallShare (Some "x")) quiz_loaded
    = Returns tt b'
    /\ stored_at b' ["global"] = Some (jenc_global quiz_global)
    /\ stored_at b' ["apps"; "quiz"; "firstSeen"] = Some (JStr "2026-11-03")
    /\ stored_at b' ["apps"; "quiz"; "totalViews"] = Some (JNum 1).
Proof.
  destruct (X5_recorders_frame quiz_context "2026-11-04" (CallShare (Some "x"))
              quiz_loaded quiz_top quiz_apps (Some quiz_stats) _ quiz_view
              eq_refl eq_refl)
    as (b' & Hrun & _ & _ & _ & Htop & Hfirst & Hviews & _).
  exists b'. split; [exact Hrun|]. split; [|split; assumption].
  rewrite (Htop "global" []) by discriminate. reflexivity.
Defined.

(** X6.  With a localStorage that rejects writes, the recorders do not
    fail: the public functions, the pageview block and the time-on-page
    flush return normally and leave the browser stores exactly as they
    were, so the recorded event is lost without notice. *)
Theorem X6_full_store_drops_events c b top japps entry :
  view (analytics_slot b) (appName c) top japps entry ->
  local_full b = true ->
  (forall today k a',
     step c (ensured today entry) k = Some a' ->
     run_call c today k b = Returns tt b)
  /\ (forall e, recordTimeOnPage c e b = Returns tt b)
  /\ (forall today g,
        assoc_get top "global" = option_map jenc_global g ->
        match g with Some g => global_wf g = true | None => True end ->
        inherited_name (dateKey c) = false ->
        inherited_name (sourceKey c) = false ->
        record_pageview c today b = Returns tt b).
Proof.
  intros V Hfull. split; [|split].
  - intros today k a' Hstep.
    rewrite (run_call_run c today k b top japps entry a' V Hstep).
    now rewrite Hfull.
  - intros e. unfold recordTimeOnPage.
    destruct ((round_div (now e - pageLoadTime c) 1000 <? 1)
              || (3600 <? round_div (now e - pageLoadTime c) 1000)) eqn:E;
      [reflexivity|].
    apply orb_false_iff in E as [E1 E2].
    apply Z.ltb_ge in E1, E2.
    rewrite (with_app_run c (today e) _ b top japps entry _ V
               (recordTime_app_live _ _)).
    + now rewrite Hfull.
    + unfold time_recorded, stats_wf.
      cbn [dailyViews sources interactions].
      exact (stats_wf_ensured (today e) entry (view_entry_wf _ _ _ _ _ V)).
  - intros today g Hg Hgwf Hd Hs.
    rewrite (record_pageview_run c today b top japps entry g V Hg Hgwf Hd Hs).
    now rewrite Hfull.
Qed.

Lemma X6_witness :
  run_call quiz_context "2026-11-03" (CallTrack "play")
    (mkBrowser None None None true false)
  = Returns tt (mkBrowser None None None true false)
  /\ recordTimeOnPage quiz_context hidden_clock
       (mkBrowser None None None true false)
     = Returns tt (mkBrowser None None None true false).
Proof.
  destruct (X6_full_store_drops_events quiz_context
              (mkBrowser None None None true false) [] [] None
              (empty_view "quiz" eq_refl) eq_refl)
    as (Hcall & Htime & _).
  split; [|apply Htime].
  apply (Hcall "2026-11-03" (CallTrack "play")
           (tracked (fresh_stats "2026-11-03") "play" 0)).
  reflexivity.
Defined.

(** *** Sequences of calls *)

Lemma ensured_fixed today a :
  distinct_ids (uniqueVisitors a) = uniqueVisitors a ->
  ensured today (Some a) = a.
Proof. destruct a. cbn. now intros ->. Qed.

Lemma ensured_visitors_fixed today entry :
  distinct_ids (uniqueVisitors (ensured today entry))
  = uniqueVisitors (ensured today entry).
Proof.
  destruct entry as [a|]; [|reflexivity]. cbn [ensured uniqueVisitors].
  apply distinct_ids_fixed, NoDup_distinct_ids.
Qed.

Lemma calls_run c : forall ks dk b top japps entry a',
  view (analytics_slot b) (appName c) top japps entry ->
  local_full b = false ->
  steps c (ensured (fst dk) entry) (dk :: ks) = Some a' ->
  exists top' japps',
    each (run_dated_call c) (dk :: ks) b
    = Returns tt (put_analytics b (Encoded (JObj top')))
    /\ view (Some (Encoded (JObj top'))) (appName c) top' japps' (Some a').
Proof.
  induction ks as [|q ks IH]; intros [d k] b top japps entry a' V Hfull Hsteps;
    cbn [steps fst snd] in Hsteps;
    destruct (step c (ensured d entry) k) as [a1|] eqn:Hstep;
    try discriminate;
    pose proof (stats_wf_step c _ k a1
                  (stats_wf_ensured d entry (view_entry_wf _ _ _ _ _ V))
                  Hstep) as Hs1;
    pose proof (view_updated _ _ _ _ _ a1 V Hs1) as V1;
    assert (Hrun1 : run_dated_call c (d, k) b
              = Returns tt (put_analytics b
                  (Encoded (JObj (updated top japps (appName c) a1)))))
      by (unfold run_dated_call; cbn [fst snd];
          rewrite (run_call_run c d k b top japps entry a1 V Hstep);
          now rewrite Hfull).
  - injection Hsteps as <-.
    exists (updated top japps (appName c) a1),
           (assoc_set japps (appName c) (jenc_app a1)).
    split; [|exact V1].
    cbn [each]. unfold bind. now rewrite Hrun1.
  - assert (Hfix : ensured (fst q) (Some a1) = a1).
    { apply ensured_fixed.
      destruct (step_keeps c _ k a1 Hstep) as (_ & _ & -> & _).
      apply ensured_visitors_fixed. }
    destruct (IH q (put_analytics b
                      (Encoded (JObj (updated top japps (appName c) a1))))
                _ _ (Some a1) a' V1 Hfull)
      as (top' & japps' & Hrun & V'); [now rewrite Hfix|].
    exists top', japps'. split; [|exact V'].
    change (each (run_dated_call c) ((d, k) :: q :: ks) b)
      with (bind (run_dated_call c (d, k))
              (fun _ => each (run_dated_call c) (q :: ks)) b).
    unfold bind at 1. rewrite Hrun1. cbv beta. now rewrite Hrun.
Qed.

(** X7.  Calls of the public functions compose: a non-empty sequence of
    calls, each a separate load / mutate / save cycle on the stored text,
    leaves the entry that the calls' effects give when applied one after
    the other to the entry found at the first call; nothing is lost or
    duplicated between the cycles. *)
Theorem X7_calls_compose c ks b top japps entry a' :
  view (analytics_slot b) (appName c) top japps entry ->
  local_full b = false ->
  ks <> [] ->
  steps c (ensured (match ks with dk :: _ => fst dk | [] => EmptyString end)
             entry) ks = Some a' ->
  exists b',
    each (run_dated_call c) ks b = Returns tt b'
    /\ forall p,
         stored_at b' ("apps" :: appName c :: p) = jpath (jenc_app a') p.
Proof.
  intros V Hfull Hne Hsteps. destruct ks as [|dk ks]; [congruence|].
  destruct (calls_run c ks dk b top japps entry a' V Hfull Hsteps)
    as (top' & japps' & Hrun & V').
  eexists. split; [exact Hrun|]. intros p.
  exact (stored_entry_path (put_analytics b (Encoded (JObj top')))
           top' japps' a' (appName c) p eq_refl V').
Qed.

Lemma X7_witness :
  exists b',
    each (run_dated_call quiz_context)
      [ ("2026-11-03", CallTrack "play");
        ("2026-11-03", CallComplete (Some 8) 10);
        ("2026-11-04", CallShare None);
        ("2026-11-04", CallTrack "play") ] quiz_loaded
    = Returns tt b'
    /\ stored_at b' ["apps"; "quiz"; "interactions"]
       = Some (JObj [ ("play", JNum 2); ("completed", JNum 1);
                      ("scores", JArr [jscore "2026-11-03" 8 10]);
                      ("share_unknown", JNum 1) ]).
Proof.
  destruct (X7_calls_compose quiz_context
              [ ("2026-11-03", CallTrack "play");
                ("2026-11-03", CallComplete (Some 8) 10);
                ("2026-11-04", CallShare None);
                ("2026-11-04", CallTrack "play") ]
              quiz_loaded quiz_top quiz_apps (Some quiz_stats) _ quiz_view
              eq_refl ltac:(discriminate) eq_refl)
    as (b' & Hrun & Hstored).
  exists b'. split; [exact Hrun|].
  exact (Hstored ["interactions"]).
Defined.

Lemma steps_repeat_track c d ev : forall n a z,
  inherited_name ev = false ->
  counter_at (interactions a) ev = Some z ->
  exists a',
    steps c a (repeat (d, CallTrack ev) (S n)) = Some a'
    /\ assoc_get (interactions a') ev = Some (JNum (z + Z.of_nat (S n))).
Proof.
  induction n as [|n IH]; intros a z Hev Hz.
  - exists (tracked a ev z). split.
    + cbn [repeat steps step]. now rewrite Hev, Hz.
    + cbn [tracked interactions]. rewrite assoc_get_set_same.
      do 2 f_equal.
  - destruct (IH (tracked a ev z) (z + 1) Hev) as (a' & Hsteps & Hget).
    + unfold counter_at. cbn [tracked interactions].
      now rewrite assoc_get_set_same.
    + exists a'. split.
      * change (repeat (d, CallTrack ev) (S (S n)))
          with ((d, CallTrack ev) :: repeat (d, CallTrack ev) (S n)).
        cbn [steps step]. rewrite Hev, Hz. cbn [option_map]. exact Hsteps.
      * rewrite Hget. do 2 f_equal. lia.
Qed.

(** X8.  n successive calls of onbTrack(eventName) raise the event's
    counter by exactly n: no increment is lost between the cycles. *)
Theorem X8_onbTrack_repeated c today ev n b top japps entry z :
  view (analytics_slot b) (appName c) top japps entry ->
  local_full b = false ->
  inherited_name ev = false ->
  counter_at (prior_interactions entry) ev = Some z ->
  exists b',
    each (fun _ : unit => onbTrack c today ev) (repeat tt (S n)) b
    = Returns tt b'
    /\ stored_at b' ["apps"; appName c; "interactions"; ev]
       = Some (JNum (z + Z.of_nat (S n))).
Proof.
  intros V Hfull Hev Hz.
  destruct (steps_repeat_track c today ev n (ensured today entry) z Hev)
    as (a' & Hsteps & Hget); [now rewrite interactions_ensured|].
  destruct (calls_run c (repeat (today, CallTrack ev) n) (today, CallTrack ev)
              b top japps entry a' V Hfull Hsteps)
    as (top' & japps' & Hrun & V').
  pose proof (stored_entry_path (put_analytics b (Encoded (JObj top')))
                top' japps' a' (appName c) ["interactions"; ev] eq_refl V')
    as Hstored.
  exists (put_analytics b (Encoded (JObj top'))). split.
  - rewrite <- Hrun.
    change ((today, CallTrack ev) :: repeat (today, CallTrack ev) n)
      with (repeat (today, CallTrack ev) (S n)).
    generalize (S n) as m. clear. intros m. revert b.
    induction m as [|m IH]; intros b; [reflexivity|].
    cbn [repeat each]. unfold bind, run_dated_call at 1. cbn [fst snd run_call].
    destruct (onbTrack c today ev b); try reflexivity. apply IH.
  - now rewrite Hstored, jpath_interaction.
Qed.

Lemma X8_witness :
  exists b',
    each (fun _ : unit => onbTrack quiz_context "2026-11-03" "play")
      (repeat tt 7) quiz_loaded
    = Returns tt b'
    /\ stored_at b' ["apps"; "quiz"; "interactions"; "play"] = Some (JNum 7).
Proof.
  exact (X8_onbTrack_repeated quiz_context "2026-11-03" "play" 6 quiz_loaded
           quiz_top quiz_apps (Some quiz_stats) 0 quiz_view eq_refl eq_refl
           eq_refl).
Defined.

(** *** Pageviews, counted *)

Lemma ensured_nodup today a :
  NoDup (uniqueVisitors a) -> ensured today (Some a) = a.
Proof. intros H. now apply ensured_fixed, distinct_ids_fixed. Qed.

Lemma stats_wf_viewed a c : stats_wf a = true -> stats_wf (viewed a c) = true.
Proof.
  intros H. apply stats_wf_parts in H as (H1 & H2 & H3 & H4).
  unfold stats_wf, viewed. cbn [dailyViews sources interactions].
  now rewrite !distinct_keys_bump, H3, H4 by assumption.
Qed.

Lemma global_wf_viewed g c :
  global_wf g = true -> global_wf (global_viewed g c) = true.
Proof.
  unfold global_wf, global_viewed. cbn [g_dailyViews].
  apply distinct_keys_bump.
Qed.

Lemma visits_refine app : forall rest v b top japps entry g,
  view (analytics_slot b) app top japps entry ->
  assoc_get top "global" = option_map jenc_global g ->
  match g with Some g => global_wf g = true | None => True end ->
  local_full b = false ->
  forallb (plain_visit app) (v :: rest) = true ->
  let ag := after_visits (ensured (visit_today v) entry) (prior_global g)
              (v :: rest) in
  exists top' japps',
    each run_visit (v :: rest) b
      = Returns tt (put_analytics b (Encoded (JObj top')))
    /\ view (Some (Encoded (JObj top'))) app top' japps' (Some (fst ag))
    /\ assoc_get top' "global" = Some (jenc_global (snd ag))
    /\ global_wf (snd ag) = true
    /\ NoDup (uniqueVisitors (fst ag)).
Proof.
  induction rest as [|w rest IH];
    intros v b top japps entry g V Hg Hgwf Hfull Hplain;
    cbn [forallb] in Hplain; apply andb_true_iff in Hplain as [Hv Hrest];
    destruct (plain_visit_parts _ _ Hv) as (Happ & Hd & Hs);
    set (c := visit_context v) in *;
    set (a1 := viewed (ensured (visit_today v) entry) c);
    set (g1 := global_viewed (prior_global g) c);
    pose proof (stats_wf_ensured (visit_today v) entry
                  (view_entry_wf _ _ _ _ _ V)) as Hs0;
    assert (Hs1 : stats_wf a1 = true) by (now apply stats_wf_viewed);
    assert (Hg1 : global_wf g1 = true)
      by (apply global_wf_viewed;
          destruct g as [g0|]; [exact Hgwf | reflexivity]);
    assert (Hrun1 : run_visit v b
              = Returns tt (put_analytics b
                  (Encoded (JObj (pageviewed top japps app a1 g1)))))
      by (unfold run_visit; fold c; subst app;
          rewrite (record_pageview_run c _ b top japps entry g V Hg Hgwf Hd Hs);
          now rewrite Hfull);
    assert (V1 : view (Some (Encoded (JObj (pageviewed top japps app a1 g1))))
                   app (pageviewed top japps app a1 g1)
                   (assoc_set japps app (jenc_app a1)) (Some a1))
      by (pose proof (view_updated _ _ _ _ _ a1 V Hs1) as [T1 T2 T3 T4 T5 T6];
          constructor;
          [ reflexivity
          | unfold pageviewed; apply wf_json_set_member;
            [assumption | now apply wf_jenc_global]
          | right; unfold pageviewed;
            rewrite assoc_get_set_other by discriminate;
            unfold updated; apply assoc_get_set_same
          | assumption | assumption | assumption ]);
    assert (Hnd1 : NoDup (uniqueVisitors a1))
      by (unfold a1, viewed; cbn [uniqueVisitors]; apply NoDup_add_id;
          rewrite <- ensured_visitors_fixed; apply NoDup_distinct_ids);
    intros ag.
  - exists (pageviewed top japps app a1 g1),
           (assoc_set japps app (jenc_app a1)).
    split; [|split; [|split; [|split]]].
    + cbn [each]. unfold bind. now rewrite Hrun1.
    + exact V1.
    + unfold pageviewed. apply assoc_get_set_same.
    + exact Hg1.
    + exact Hnd1.
  - destruct (IH w (put_analytics b
                      (Encoded (JObj (pageviewed top japps app a1 g1))))
                _ _ (Some a1) (Some g1) V1)
      as (top' & japps' & Hrun & V' & Hg' & Hgwf' & Hnd');
      [ unfold pageviewed; apply assoc_get_set_same
      | exact Hg1 | exact Hfull | exact Hrest |].
    rewrite (ensured_nodup (visit_today w) a1 Hnd1) in V', Hg', Hgwf', Hnd'.
    cbn [prior_global] in V', Hg', Hgwf', Hnd'.
    exists top', japps'. split; [|split; [|split; [|split]]].
    + change (each run_visit (v :: w :: rest) b)
        with (bind (run_visit v) (fun _ => each run_visit (w :: rest)) b).
      unfold bind at 1. rewrite Hrun1. cbv beta. rewrite Hrun. reflexivity.
    + exact V'.
    + exact Hg'.
    + exact Hgwf'.
    + exact Hnd'.
Qed.

Lemma total_bump m k : total (bump m k) = total m + 1.
Proof.
  unfold bump. induction m as [|[k' z] m IH]; [reflexivity|].
  cbn [assoc_get assoc_set]. destruct (String.eqb k' k); cbn [total]; [lia|].
  rewrite IH. lia.
Qed.

Lemma after_visits_counts vs : forall a g,
  let ag := after_visits a g vs in
  firstSeen (fst ag) = firstSeen a
  /\ totalViews (fst ag) = totalViews a + Z.of_nat (List.length vs)
  /\ total (dailyViews (fst ag))
     = total (dailyViews a) + Z.of_nat (List.length vs)
  /\ total (sources (fst ag)) = total (sources a) + Z.of_nat (List.length vs)
  /\ g_totalViews (snd ag) = g_totalViews g + Z.of_nat (List.length vs)
  /\ total (g_dailyViews (snd ag))
     = total (g_dailyViews g) + Z.of_nat (List.length vs)
  /\ interactions (fst ag) = interactions a
  /\ uniqueVisitors (fst ag) = fold_left add_id (visitors_of vs) (uniqueVisitors a)
  /\ g_uniqueVisitors (snd ag)
     = fold_left add_id (visitors_of vs) (g_uniqueVisitors g).
Proof.
  induction vs as [|v vs IH]; intros a g ag.
  - unfold ag. cbn. repeat split; lia.
  - unfold ag, after_visits. cbn [fold_left].
    destruct (IH (viewed a (visit_context v))
                 (global_viewed g (visit_context v)))
      as (I1 & I2 & I3 & I4 & I5 & I6 & I7 & I8 & I9).
    unfold after_visits in I1, I2, I3, I4, I5, I6, I7, I8, I9.
    unfold visit_step at 2 4 6 8 10 12 14 16 18. cbn [fst snd].
    rewrite I1, I2, I3, I4, I5, I6, I7, I8, I9.
    cbn [viewed global_viewed firstSeen totalViews dailyViews sources
         interactions uniqueVisitors g_totalViews g_dailyViews
         g_uniqueVisitors visitors_of map fold_left List.length].
    rewrite !total_bump.
    repeat split; try reflexivity; lia.
Qed.

Lemma stored_global_of b top g :
  analytics_slot b = Some (Encoded (JObj top)) ->
  assoc_get top "global" = Some (jenc_global g) ->
  stored_at b ["global"] = Some (jenc_global g).
Proof.
  intros Hslot Hg. unfold stored_at. rewrite Hslot. cbn [jpath].
  now rewrite Hg.
Qed.

(** X9.  Every pageview adds one to the app's totalViews, one to exactly
    one of its day counters and one to exactly one of its source counters,
    and the same to the global totalViews and day counters: after n
    pageviews each of these totals has grown by n, so on a new profile
    totalViews, the sum of dailyViews and the sum of sources agree.
    firstSeen stays what it was (the date of the first of these pageviews
    for a new entry), and the interactions are not touched. *)
Theorem X9_pageviews_counted app b top japps entry g visits :
  view (analytics_slot b) app top japps entry ->
  assoc_get top "global" = option_map jenc_global g ->
  match g with Some g => global_wf g = true | None => True end ->
  local_full b = false ->
  forallb (plain_visit app) visits = true ->
  visits <> [] ->
  let a0 := prior_stats (first_date visits) entry in
  let g0 := prior_global g in
  let n := Z.of_nat (List.length visits) in
  exists b' a' g',
    each run_visit visits b = Returns tt b'
    /\ stored_at b' ["apps"; app] = Some (jenc_app a')
    /\ stored_at b' ["global"] = Some (jenc_global g')
    /\ firstSeen a' = firstSeen a0
    /\ totalViews a' = totalViews a0 + n
    /\ total (dailyViews a') = total (dailyViews a0) + n
    /\ total (sources a') = total (sources a0) + n
    /\ interactions a' = interactions a0
    /\ g_totalViews g' = g_totalViews g0 + n
    /\ total (g_dailyViews g') = total (g_dailyViews g0) + n.
Proof.
  intros V Hg Hgwf Hfull Hplain Hne a0 g0 n.
  destruct visits as [|v rest]; [congruence|].
  destruct (visits_refine app rest v b top japps entry g V Hg Hgwf Hfull
              Hplain) as (top' & japps' & Hrun & V' & Hg' & _ & _).
  destruct (after_visits_counts (v :: rest) (ensured (visit_today v) entry)
              (prior_global g))
    as (I1 & I2 & I3 & I4 & I5 & I6 & I7 & _ & _).
  destruct (ensured_keeps (visit_today v) entry)
    as (E1 & E2 & E3 & E4 & _ & _).
  eexists. eexists. eexists. split; [exact Hrun|].
  split; [|split].
  - exact (stored_entry_path (put_analytics b (Encoded (JObj top')))
             top' japps' _ app [] eq_refl V').
  - exact (stored_global_of (put_analytics b (Encoded (JObj top')))
             top' _ eq_refl Hg').
  - unfold a0, g0, n, first_date.
    rewrite I1, I2, I3, I4, I5, I6, I7, E1, E2, E3, E4.
    rewrite interactions_ensured.
    repeat split; try reflexivity. now destruct entry.
Qed.

Lemma X9_witness :
  exists b' a' g',
    each run_visit
      [ mkVisit quiz_context "2026-11-03";
        mkVisit (mkContext "v_other" VNull "quiz" "2026-11-04"
                           (mkUtm "newsletter" EmptyString EmptyString)
                           "direct" 0)
                "2026-11-04";
        mkVisit quiz_context "2026-11-05" ] empty_browser
    = Returns tt b'
    /\ stored_at b' ["apps"; "quiz"] = Some (jenc_app a')
    /\ stored_at b' ["global"] = Some (jenc_global g')
    /\ totalViews a' = 3 /\ total (dailyViews a') = 3
    /\ total (sources a') = 3 /\ g_totalViews g' = 3
    /\ firstSeen a' = "2026-11-03".
Proof.
  destruct (X9_pageviews_counted "quiz" empty_browser [] [] None None
              [ mkVisit quiz_context "2026-11-03";
                mkVisit (mkContext "v_other" VNull "quiz" "2026-11-04"
                           (mkUtm "newsletter" EmptyString EmptyString)
                           "direct" 0)
                        "2026-11-04";
                mkVisit quiz_context "2026-11-05" ]
              (empty_view "quiz" eq_refl) eq_refl I eq_refl eq_refl
              ltac:(discriminate))
    as (b' & a' & g' & Hrun & Ha & Hg & Hf & Ht & Hd & Hs & _ & Hgt & _).
  exists b', a', g'. repeat split; assumption.
Defined.

Lemma fold_add_id_appends l : forall acc,
  exists added,
    fold_left add_id l acc = (acc ++ added)%list
    /\ NoDup added
    /\ forall x, In x added <-> (In x l /\ ~ In x acc).
Proof.
  induction l as [|y l IH]; intros acc.
  - exists []. split; [now rewrite app_nil_r|]. split; [constructor|].
    intros x. simpl. tauto.
  - cbn [fold_left]. unfold add_id at 2.
    destruct (mem_string y acc) eqn:E.
    + apply mem_string_true_iff in E.
      destruct (IH acc) as (added & Heq & Hnd & Hin).
      exists added. split; [exact Heq|]. split; [exact Hnd|].
      intros x. rewrite Hin. simpl. intuition congruence.
    + assert (Hy : ~ In y acc)
        by (intros Hy; apply mem_string_true_iff in Hy; congruence).
      destruct (IH (acc ++ [y])%list) as (added & Heq & Hnd & Hin).
      exists (y :: added). split; [|split].
      * rewrite Heq. now rewrite <- app_assoc.
      * constructor; [|exact Hnd]. intros Hc. apply Hin in Hc as [_ Hc].
        apply Hc. apply in_or_app. right. now left.
      * intros x. simpl. rewrite Hin, in_app_iff. simpl.
        split.
        -- intros [<- | [Hl Hn]]; [tauto|]. split; [tauto|]. tauto.
        -- intros [[<- | Hl] Hn]; [tauto|].
           destruct (string_dec y x) as [<- | Hne]; [tauto|].
           right. split; [assumption|]. intros [Ha | [Hb | []]]; tauto.
Qed.

(** X10.  The global visitor list is kept by scan-then-append and is never
    rebuilt: after any number of pageviews it is the list stored before,
    unchanged (repetitions included), followed by the visitors not yet in
    it, each once. *)
Theorem X10_global_visitors_appended app b top japps entry g visits :
  view (analytics_slot b) app top japps entry ->
  assoc_get top "global" = option_map jenc_global g ->
  match g with Some g => global_wf g = true | None => True end ->
  local_full b = false ->
  forallb (plain_visit app) visits = true ->
  visits <> [] ->
  exists b' g' added,
    each run_visit visits b = Returns tt b'
    /\ stored_at b' ["global"] = Some (jenc_global g')
    /\ g_uniqueVisitors g'
       = (g_uniqueVisitors (prior_global g) ++ added)%list
    /\ NoDup added
    /\ forall x,
         In x added
         <-> (In x (visitors_of visits)
              /\ ~ In x (g_uniqueVisitors (prior_global g))).
Proof.
  intros V Hg Hgwf Hfull Hplain Hne.
  destruct visits as [|v rest]; [congruence|].
  destruct (visits_refine app rest v b top japps entry g V Hg Hgwf Hfull
              Hplain) as (top' & japps' & Hrun & _ & Hg' & _ & _).
  destruct (after_visits_counts (v :: rest) (ensured (visit_today v) entry)
              (prior_global g)) as (_ & _ & _ & _ & _ & _ & _ & _ & I9).
  destruct (fold_add_id_appends (visitors_of (v :: rest))
              (g_uniqueVisitors (prior_global g)))
    as (added & Heq & Hnd & Hin).
  eexists. eexists. exists added. split; [exact Hrun|]. split; [|split; [|split]].
  - exact (stored_global_of (put_analytics b (Encoded (JObj top')))
             top' _ eq_refl Hg').
  - rewrite I9. exact Heq.
  - exact Hnd.
  - exact Hin.
Qed.

Lemma X10_witness :
  exists b' g' added,
    each run_visit
      [ mkVisit (mkContext "v_other" VNull "quiz" "2026-11-04"
                           (mkUtm "newsletter" EmptyString EmptyString)
                           "direct" 0)
                "2026-11-04";
        mkVisit quiz_context "2026-11-05" ] quiz_loaded
    = Returns tt b'
    /\ stored_at b' ["global"] = Some (jenc_global g')
    /\ g_uniqueVisitors g' = ("v_abcdefghiloyw3v28" :: added)%list
    /\ NoDup added.
Proof.
  destruct (X10_global_visitors_appended "quiz" quiz_loaded quiz_top
              quiz_apps (Some quiz_stats) (Some quiz_global)
              [ mkVisit (mkContext "v_other" VNull "quiz" "2026-11-04"
                           (mkUtm "newsletter" EmptyString EmptyString)
                           "direct" 0)
                        "2026-11-04";
                mkVisit quiz_context "2026-11-05" ]
              quiz_view eq_refl eq_refl eq_refl eq_refl ltac:(discriminate))
    as (b' & g' & added & Hrun & Hstored & Heq & Hnd & _).
  exists b', g', added. repeat split; assumption.
Defined.

(** *** One page load *)

Lemma assoc_get_bump m k : assoc_get (bump m k) k = Some (count_at m k + 1).
Proof.
  unfold bump, count_at. rewrite assoc_get_set_same.
  now destruct (assoc_get m k).
Qed.

Lemma jpath_counter m k :
  jpath (JObj (vmap JNum m)) [k] = option_map JNum (assoc_get m k).
Proof.
  cbn [jpath]. rewrite assoc_get_vmap. now destruct (assoc_get m k).
Qed.

Lemma module_init_run p e b prior top japps entry g :
  String.eqb (getAppName p) "admin" = false ->
  session_stored (session_slot b) prior ->
  view (analytics_slot b) (getAppName p) top japps entry ->
  assoc_get top "global" = option_map jenc_global g ->
  match g with Some g => global_wf g = true | None => True end ->
  local_full b = false -> session_full b = false ->
  inherited_name (today e) = false ->
  inherited_name (attributed_source p) = false ->
  let c := mkContext (visitor_after e (visitor_slot b))
                     (loaded_session (refreshed e prior)) (getAppName p)
                     (today e) (getUtmParams p) (getReferrerCategory p)
                     (now e) in
  let b1 := put_session (put_visitor b (visitor_after e (visitor_slot b)))
                        (Encoded (jenc_session (refreshed e prior))) in
  module_init p e b
  = Returns (Some c)
      (put_analytics b1
         (Encoded (JObj (pageviewed top japps (getAppName p)
                           (viewed (ensured (today e) entry) c)
                           (global_viewed (prior_global g) c))))).
Proof.
  intros Hadmin Hstored V Hg Hgwf Hlocal Hsession Hd Hs c b1.
  unfold module_init. cbn [appName]. rewrite Hadmin.
  unfold bind at 1. rewrite getVisitorId_run, Hlocal.
  set (b0 := match visitor_slot b with
             | Some s => if negb (String.eqb s EmptyString) then b
                         else put_visitor b (visitor_after e (visitor_slot b))
             | None => put_visitor b (visitor_after e (visitor_slot b))
             end).
  assert (Hb0 : put_session b0 (Encoded (jenc_session (refreshed e prior)))
                = b1 /\ session_slot b0 = session_slot b
                /\ session_full b0 = false).
  { unfold b0, b1, visitor_after, put_session, put_visitor.
    destruct b as [vs an ss lf sf]. cbn in *.
    destruct vs as [s|]; [destruct (negb (String.eqb s EmptyString))|];
      cbn; auto. }
  destruct Hb0 as (Hb1 & Hss & Hsf).
  assert (Hrun : getSession e b0
                 = Returns (loaded_session (refreshed e prior)) b1).
  { rewrite (getSession_run e b0 prior) by now rewrite Hss.
    now rewrite Hsf, Hb1. }
  assert (Hpv : record_pageview c (today e) b1
                = Returns tt
                    (put_analytics b1
                       (Encoded (JObj (pageviewed top japps (getAppName p)
                          (viewed (ensured (today e) entry) c)
                          (global_viewed (prior_global g) c)))))).
  { rewrite (record_pageview_run c (today e) b1 top japps entry g);
      try assumption.
    change (local_full b1) with (local_full b). now rewrite Hlocal. }
  assert (Hgoal : bind (getSession e)
            (fun session =>
               bind (record_pageview
                       (mkContext (visitor_after e (visitor_slot b)) session
                          (getAppName p) (today e) (getUtmParams p)
                          (getReferrerCategory p) (now e)) (today e))
                 (fun _ => ret (Some
                       (mkContext (visitor_after e (visitor_slot b)) session
                          (getAppName p) (today e) (getUtmParams p)
                          (getReferrerCategory p) (now e))))) b0
          = Returns (Some c)
              (put_analytics b1
                 (Encoded (JObj (pageviewed top japps (getAppName p)
                    (viewed (ensured (today e) entry) c)
                    (global_viewed (prior_global g) c)))))).
  { unfold bind at 1. rewrite Hrun. unfold bind. fold c. now rewrite Hpv. }
  unfold b0 in Hgoal. unfold visitor_after in *.
  destruct (visitor_slot b) as [s|];
    [destruct (negb (String.eqb s EmptyString))|]; exact Hgoal.
Qed.

Lemma jpath_pageviewed_entry top japps app a g p :
  jpath (JObj (pageviewed top japps app a g)) ("apps" :: app :: p)
  = jpath (jenc_app a) p.
Proof.
  unfold pageviewed, updated. cbn [jpath].
  rewrite assoc_get_set_other by discriminate.
  now rewrite !assoc_get_set_same.
Qed.

Lemma jpath_pageviewed_global top japps app a g p :
  jpath (JObj (pageviewed top japps app a g)) ("global" :: p)
  = jpath (jenc_global g) p.
Proof.
  unfold pageviewed. cbn [jpath]. now rewrite assoc_get_set_same.
Qed.

(** X11.  Loading the script on a page outside the admin namespace, with
    both stores accepting writes, returns the page context and has recorded
    one pageview: the app's totalViews, its counter for today's date and
    its counter for the attributed source are each one higher (the source
    being utm_source when the query gives a non-empty one, else the
    referrer category), the visitor is in the app's visitor set, and the
    global totalViews is one higher. *)
Theorem X11_page_load_records_pageview p e b prior top japps entry g :
  String.eqb (getAppName p) "admin" = false ->
  session_stored (session_slot b) prior ->
  view (analytics_slot b) (getAppName p) top japps entry ->
  assoc_get top "global" = option_map jenc_global g ->
  match g with Some g => global_wf g = true | None => True end ->
  local_full b = false -> session_full b = false ->
  inherited_name (today e) = false ->
  inherited_name (attributed_source p) = false ->
  let a0 := prior_stats (today e) entry in
  let app := getAppName p in
  exists c b',
    module_init p e b = Returns (Some c) b'
    /\ visitorId c = visitor_after e (visitor_slot b)
    /\ appName c = app /\ dateKey c = today e /\ pageLoadTime c = now e
    /\ stored_at b' ["apps"; app; "totalViews"]
       = Some (JNum (totalViews a0 + 1))
    /\ stored_at b' ["apps"; app; "dailyViews"; today e]
       = Some (JNum (count_at (dailyViews a0) (today e) + 1))
    /\ stored_at b' ["apps"; app; "sources"; attributed_source p]
       = Some (JNum (count_at (sources a0) (attributed_source p) + 1))
    /\ stored_at b' ["apps"; app; "uniqueVisitors"]
       = Some (JArr (map JStr
            (add_id (distinct_ids (prior_visitors entry))
                    (visitor_after e (visitor_slot b)))))
    /\ stored_at b' ["global"; "totalViews"]
       = Some (JNum (g_totalViews (prior_global g) + 1)).
Proof.
  intros Hadmin Hstored V Hg Hgwf Hlocal Hsession Hd Hs a0 app.
  eexists. eexists. split.
  - exact (module_init_run p e b prior top japps entry g Hadmin Hstored V Hg
             Hgwf Hlocal Hsession Hd Hs).
  - unfold stored_at. cbn [put_analytics analytics_slot].
    rewrite !jpath_pageviewed_entry, jpath_pageviewed_global.
    unfold jenc_app, jenc_global, viewed, global_viewed.
    cbn [jpath assoc_get String.eqb Ascii.eqb Bool.eqb visitorId appName
         dateKey pageLoadTime firstSeen totalViews uniqueVisitors dailyViews
         interactions sources g_totalViews g_dailyViews g_uniqueVisitors].
    rewrite !assoc_get_vmap.
    change (sourceKey ?c) with (attributed_source p).
    rewrite !assoc_get_bump. cbn [option_map].
    unfold a0. destruct entry as [a|]; repeat split; reflexivity.
Qed.

Lemma X11_witness :
  exists c b',
    module_init
      (mkPage "/quiz/" [("utm_source", "newsletter")] "https://www.bing.com/")
      clock_within quiz_loaded
    = Returns (Some c) b'
    /\ stored_at b' ["apps"; "quiz"; "totalViews"] = Some (JNum 2)
    /\ stored_at b' ["apps"; "quiz"; "sources"; "newsletter"]
       = Some (JNum 1).
Proof.
  destruct (X11_page_load_records_pageview
              (mkPage "/quiz/" [("utm_source", "newsletter")]
                      "https://www.bing.com/")
              clock_within quiz_loaded (Some quiz_session) quiz_top quiz_apps
              (Some quiz_stats) (Some quiz_global)
              eq_refl eq_refl quiz_view eq_refl eq_refl eq_refl eq_refl
              eq_refl eq_refl)
    as (c & b' & Hrun & _ & _ & _ & _ & Hviews & _ & Hsrc & _).
  exists c, b'. split; [exact Hrun|]. split; [exact Hviews | exact Hsrc].
Defined.

(** *** The app namespace *)

Lemma prefix_slash c s : String.prefix "/" (String c s) = Ascii.eqb c slash.
Proof.
  cbn [String.prefix]. unfold slash.
  destruct (ascii_dec "/" c) as [<- | Hne].
  - rewrite Ascii.eqb_refl. now destruct s.
  - symmetry. apply Ascii.eqb_neq. congruence.
Qed.

Lemma includes_slash_cons c s :
  includes (String c s) "/" = Ascii.eqb c slash || includes s "/".
Proof.
  change (includes (String c s) "/")
    with (String.prefix "/" (String c s) || includes s "/").
  now rewrite prefix_slash.
Qed.

Lemma first_segment_no_slash s : includes (first_segment s) "/" = false.
Proof.
  induction s as [|c s IH]; [reflexivity|]. cbn [first_segment].
  destruct (Ascii.eqb c slash) eqn:E; [reflexivity|].
  now rewrite includes_slash_cons, E, IH.
Qed.

Lemma first_segment_fixed s : includes s "/" = false -> first_segment s = s.
Proof.
  induction s as [|c s IH]; [reflexivity|].
  rewrite includes_slash_cons. intros H. apply orb_false_iff in H as [Hc Hs].
  cbn [first_segment]. rewrite Hc. now rewrite IH.
Qed.

Lemma strip_trailing_fixed s : includes s "/" = false -> strip_trailing s = s.
Proof.
  induction s as [|c s IH]; [reflexivity|].
  rewrite includes_slash_cons. intros H. apply orb_false_iff in H as [Hc Hs].
  cbn [strip_trailing]. destruct s as [|d s]; [now rewrite Hc|].
  now rewrite (IH Hs).
Qed.

Lemma first_segment_under name rest :
  name <> EmptyString -> includes name "/" = false ->
  first_segment (strip_trailing (name ++ String slash rest)) = name.
Proof.
  induction name as [|c name IH]; [congruence|]. intros _.
  rewrite includes_slash_cons. intros H. apply orb_false_iff in H as [Hc Hs].
  destruct name as [|d name].
  - cbn [append strip_trailing].
    destruct rest as [|r rest]; cbn [first_segment]; rewrite Hc;
      cbn [first_segment slash Ascii.eqb Bool.eqb]; reflexivity.
  - change ((String c (String d name) ++ String slash rest)%string)
      with (String c (String d (name ++ String slash rest))).
    cbn [strip_trailing].
    change (String d (name ++ String slash rest))
      with ((String d name ++ String slash rest)%string).
    cbn [first_segment]. rewrite Hc. f_equal.
    apply IH; [discriminate | exact Hs].
Qed.

(** X12.  The app namespace never contains a slash, and every page under
    /name/ (and /name itself) belongs to the namespace name, when name is a
    non-empty path segment other than index.html; the query string and the
    referrer play no part. *)
Theorem X12_app_namespace :
  (forall p, includes (getAppName p) "/" = false)
  /\ (forall name rest q r,
        name <> EmptyString -> name <> "index.html" ->
        includes name "/" = false ->
        getAppName (mkPage ("/" ++ name ++ "/" ++ rest) q r) = name
        /\ getAppName (mkPage ("/" ++ name) q r) = name).
Proof.
  split.
  - intros p. unfold getAppName.
    destruct (String.eqb (strip_trailing (strip_leading (pathname p)))
                EmptyString
              || String.eqb (strip_trailing (strip_leading (pathname p)))
                   "index.html");
      [reflexivity | apply first_segment_no_slash].
  - intros name rest q r Hne Hidx Hslash. unfold getAppName. cbn [pathname].
    split.
    + change (("/" ++ name ++ "/" ++ rest)%string)
        with (String slash (name ++ String slash rest)).
      cbn [strip_leading]. rewrite Ascii.eqb_refl.
      pose proof (first_segment_under name rest Hne Hslash) as Hseg.
      destruct (String.eqb_spec
                  (strip_trailing (name ++ String slash rest)) EmptyString)
        as [E | _]; [rewrite E in Hseg; cbn in Hseg; congruence|].
      destruct (String.eqb_spec
                  (strip_trailing (name ++ String slash rest)) "index.html")
        as [E | _]; [rewrite E in Hseg; cbn in Hseg; congruence|].
      exact Hseg.
    + change (("/" ++ name)%string) with (String slash name).
      cbn [strip_leading]. rewrite Ascii.eqb_refl.
      rewrite (strip_trailing_fixed name Hslash).
      apply String.eqb_neq in Hne, Hidx. rewrite Hne, Hidx.
      now apply first_segment_fixed.
Qed.

Lemma X12_witness :
  getAppName (mkPage "/quiz/level/3/" [("utm_source", "x")] "https://t.co/a")
  = "quiz".
Proof.
  apply (proj1 (proj2 X12_app_namespace "quiz" "level/3/"
                  [("utm_source", "x")] "https://t.co/a"
                  ltac:(discriminate) ltac:(discriminate) eq_refl)).
Defined.

(** *** Identity over several loads *)

(** X13.  The visitor identifier is stable: once the slot holds a non-empty
    identifier, getVisitorId returns it without writing, whatever the clock
    and the random generator give and even when the store rejects writes;
    and in a store that accepts writes, the identifier a first call returns
    is non-empty, is the one stored, and is what every later call returns. *)
Theorem X13_visitor_id_stable :
  (forall e b s,
     visitor_slot b = Some s -> s <> EmptyString ->
     getVisitorId e b = Returns s b)
  /\ (forall e1 e2 b,
        local_full b = false ->
        exists id b1,
          getVisitorId e1 b = Returns id b1
          /\ id <> EmptyString
          /\ visitor_slot b1 = Some id
          /\ getVisitorId e2 b1 = Returns id b1).
Proof.
  assert (Hkept : forall e b s,
            visitor_slot b = Some s -> s <> EmptyString ->
            getVisitorId e b = Returns s b).
  { intros e b s Hslot Hs. rewrite getVisitorId_run, Hslot.
    apply String.eqb_neq in Hs. now rewrite Hs. }
  split; [exact Hkept|].
  intros e1 e2 b Hfull. rewrite getVisitorId_run, Hfull.
  destruct (visitor_slot b) as [s|] eqn:Hslot.
  - destruct (String.eqb_spec s EmptyString) as [-> | Hs]; cbn [negb].
    + eexists. eexists. split; [reflexivity|].
      split; [discriminate|]. split; [reflexivity|].
      apply Hkept; [reflexivity | discriminate].
    + exists s, b. split; [reflexivity|]. split; [exact Hs|].
      split; [exact Hslot|]. now apply Hkept.
  - eexists. eexists. split; [reflexivity|].
    split; [discriminate|]. split; [reflexivity|].
    apply Hkept; [reflexivity | discriminate].
Qed.

Lemma X13_witness :
  exists id b1,
    getVisitorId clock empty_browser = Returns id b1
    /\ id <> EmptyString
    /\ visitor_slot b1 = Some id
    /\ getVisitorId clock_beyond b1 = Returns id b1.
Proof. exact (proj2 X13_visitor_id_stable clock clock_beyond empty_browser eq_refl). Defined.

Lemma paced_session_run : forall es s b,
  session_slot b = Some (Encoded (jenc_session s)) ->
  session_full b = false ->
  paced (s_lastActivity s) es = true ->
  sessions es b
  = Returns tt
      (match es with
       | [] => b
       | _ :: _ =>
           put_session b
             (Encoded (jenc_session
                (mkSession (s_id s) (s_start s)
                   (last_now (s_lastActivity s) es)
                   (s_pageviews s + Z.of_nat (List.length es)))))
       end).
Proof.
  induction es as [|e es IH]; intros s b Hslot Hfull Hpaced; [reflexivity|].
  cbn [paced] in Hpaced. apply andb_true_iff in Hpaced as [Hgap Hrest].
  apply Z.leb_le in Hgap.
  set (s1 := mkSession (s_id s) (s_start s) (now e) (s_pageviews s + 1)).
  assert (Hs1 : refreshed e (Some s) = s1).
  { unfold refreshed.
    replace (session_timeout <? now e - s_lastActivity s) with false
      by (symmetry; apply Z.ltb_ge; lia).
    reflexivity. }
  cbn [sessions]. unfold bind.
  rewrite (getSession_run e b (Some s) Hslot), Hfull, Hs1.
  rewrite (IH s1 (put_session b (Encoded (jenc_session s1))) eq_refl Hfull
             Hrest).
  f_equal. destruct es as [|e' es]; [reflexivity|].
  unfold put_session. cbn [visitor_slot analytics_slot session_slot
                           local_full session_full s1 s_id s_start
                           s_lastActivity s_pageviews].
  do 4 f_equal. unfold last_now. cbn [fold_left List.length]. f_equal. lia.
Qed.

(** X14.  Successive accesses to a stored session, each within thirty
    minutes of the one before, keep its id and start, and leave lastActivity
    at the time of the last access and pageviews raised by the number of
    accesses.  The gap is measured from the previous access, not from the
    start, and a clock reading earlier than lastActivity counts as within
    the timeout. *)
Theorem X14_session_paced_accesses es s b :
  session_slot b = Some (Encoded (jenc_session s)) ->
  session_full b = false ->
  paced (s_lastActivity s) es = true ->
  es <> [] ->
  exists b',
    sessions es b = Returns tt b'
    /\ session_slot b'
       = Some (Encoded (jenc_session
            (mkSession (s_id s) (s_start s)
               (last_now (s_lastActivity s) es)
               (s_pageviews s + Z.of_nat (List.length es)))))
    /\ analytics_slot b' = analytics_slot b
    /\ visitor_slot b' = visitor_slot b.
Proof.
  intros Hslot Hfull Hpaced Hne.
  rewrite (paced_session_run es s b Hslot Hfull Hpaced).
  destruct es as [|e es]; [congruence|].
  eexists. split; [reflexivity|]. repeat split.
Qed.

Lemma X14_witness :
  exists b',
    sessions [clock_within; clock; clock_within]
      (put_session empty_browser (Encoded (jenc_session quiz_session)))
    = Returns tt b'
    /\ session_slot b'
       = Some (Encoded (jenc_session
            (mkSession "s_jklmnopqr" 1700000000000 1700001799999 4))).
Proof.
  destruct (X14_session_paced_accesses [clock_within; clock; clock_within]
              quiz_session
              (put_session empty_browser (Encoded (jenc_session quiz_session)))
              eq_refl eq_refl eq_refl ltac:(discriminate))
    as (b' & Hrun & Hslot & _).
  exists b'. split; [exact Hrun | exact Hslot].
Defined.

(** *** The lifecycle listeners *)

(** X15.  The two flush listeners are not exclusive: when the tab is hidden
    and the page is later unloaded, both run recordTimeOnPage, each with the
    time elapsed since the page load, so totalTimeOnPage grows by the sum of
    the two readings (the first stretch is counted twice) and avgTimeOnPage
    is computed from that total.  A visibility change to visible records
    nothing. *)
Theorem X15_hidden_then_unload c e1 e2 b top japps entry :
  let t1 := round_div (now e1 - pageLoadTime c) 1000 in
  let t2 := round_div (now e2 - pageLoadTime c) 1000 in
  view (analytics_slot b) (appName c) top japps entry ->
  local_full b = false ->
  1 <= t1 <= 3600 -> 1 <= t2 <= 3600 ->
  let a0 := prior_stats (today e1) entry in
  (exists b',
     bind (on_visibilitychange c e1 true) (fun _ => on_beforeunload c e2) b
     = Returns tt b'
     /\ stored_at b' ["apps"; appName c; "totalTimeOnPage"]
        = Some (JNum (totalTimeOnPage a0 + t1 + t2))
     /\ stored_at b' ["apps"; appName c; "avgTimeOnPage"]
        = Some (JNum (round_div (totalTimeOnPage a0 + t1 + t2)
                        (if totalViews a0 =? 0 then 1 else totalViews a0))))
  /\ on_visibilitychange c e1 false b = Returns tt b.
Proof.
  intros t1 t2 V Hfull Ht1 Ht2 a0. split; [|reflexivity].
  set (a1 := time_recorded (ensured (today e1) entry) t1).
  pose proof (stats_wf_ensured (today e1) entry (view_entry_wf _ _ _ _ _ V))
    as Hs0.
  assert (Hs1 : stats_wf a1 = true) by exact Hs0.
  set (b1 := put_analytics b
               (Encoded (JObj (updated top japps (appName c) a1)))).
  pose proof (view_updated _ _ _ _ _ a1 V Hs1) as V1.
  assert (Hfix : ensured (today e2) (Some a1) = a1)
    by (apply ensured_fixed; apply ensured_visitors_fixed).
  set (a2 := time_recorded a1 t2).
  assert (Hs2 : stats_wf a2 = true) by exact Hs1.
  pose proof (view_updated _ _ _ _ _ a2 V1 Hs2) as V2.
  set (b2 := put_analytics b1
               (Encoded (JObj (updated (updated top japps (appName c) a1)
                                 (assoc_set japps (appName c) (jenc_app a1))
                                 (appName c) a2)))).
  exists b2. split; [|split].
  - unfold bind, on_visibilitychange, on_beforeunload.
    rewrite (recordTimeOnPage_run c e1 b top japps entry Ht1 V), Hfull.
    fold t1. fold a1. fold b1.
    rewrite (recordTimeOnPage_run c e2 b1 _ _ (Some a1) Ht2 V1).
    change (local_full b1) with (local_full b). rewrite Hfull, Hfix.
    fold t2. fold a2. reflexivity.
  - rewrite (stored_entry_path b2 _ _ a2 (appName c) ["totalTimeOnPage"]
               eq_refl V2).
    unfold a0. destruct entry; cbn; do 2 f_equal; lia.
  - rewrite (stored_entry_path b2 _ _ a2 (appName c) ["avgTimeOnPage"]
               eq_refl V2).
    unfold a0. destruct entry; cbn; do 2 f_equal; f_equal; lia.
Qed.

(** Hidden after 10 seconds, unloaded after 20: 30 seconds are recorded. *)
Lemma X15_witness :
  exists b',
    bind (on_visibilitychange quiz_context hidden_clock true)
         (fun _ => on_beforeunload quiz_context unload_clock) quiz_loaded
    = Returns tt b'
    /\ stored_at b' ["apps"; "quiz"; "totalTimeOnPage"] = Some (JNum 30).
Proof.
  destruct (proj1 (X15_hidden_then_unload quiz_context hidden_clock
              unload_clock quiz_loaded quiz_top quiz_apps (Some quiz_stats)
              quiz_view eq_refl
              ltac:(split; discriminate) ltac:(split; discriminate)))
    as (b' & Hrun & Htotal & _).
  exists b'. split; [exact Hrun | exact Htotal].
Defined.

Lemma jpath_affiliateClicks a :
  jpath (jenc_app a) ["affiliateClicks"] = Some (JNum (affiliateClicks a)).
Proof. reflexivity. Qed.

(** X16.  The click listener: a click outside any anchor, or on an anchor
    whose address neither names the marketplace nor is external, records
    nothing.  A marketplace address (amazon.com or amzn.to) counts one
    affiliate click; an address containing http and not the own domain
    counts one external_click; an address that is both counts both, so a
    plain marketplace link raises affiliateClicks, affiliate_click and
    external_click together. *)
Theorem X16_click_listener c e href b top japps entry z1 z2 :
  let amazon := includes href "amazon.com" || includes href "amzn.to" in
  let external :=
    includes href "http" && negb (includes href "onenightbuild.com") in
  view (analytics_slot b) (appName c) top japps entry ->
  local_full b = false ->
  counter_at (prior_interactions entry) "affiliate_click" = Some z1 ->
  counter_at (prior_interactions entry) "external_click" = Some z2 ->
  let a0 := prior_stats (today e) entry in
  on_click c e None b = Returns tt b
  /\ (amazon = false -> external = false ->
      on_click c e (Some href) b = Returns tt b)
  /\ (amazon = true -> external = true ->
      exists b',
        on_click c e (Some href) b = Returns tt b'
        /\ stored_at b' ["apps"; appName c; "affiliateClicks"]
           = Some (JNum (affiliateClicks a0 + 1))
        /\ stored_at b' ["apps"; appName c; "interactions"; "affiliate_click"]
           = Some (JNum (z1 + 1))
        /\ stored_at b' ["apps"; appName c; "interactions"; "external_click"]
           = Some (JNum (z2 + 1)))
  /\ (amazon = true -> external = false ->
      exists b',
        on_click c e (Some href) b = Returns tt b'
        /\ stored_at b' ["apps"; appName c; "affiliateClicks"]
           = Some (JNum (affiliateClicks a0 + 1))
        /\ stored_at b' ["apps"; appName c; "interactions"; "external_click"]
           = assoc_get (prior_interactions entry) "external_click")
  /\ (amazon = false -> external = true ->
      exists b',
        on_click c e (Some href) b = Returns tt b'
        /\ stored_at b' ["apps"; appName c; "affiliateClicks"]
           = Some (JNum (affiliateClicks a0))
        /\ stored_at b' ["apps"; appName c; "interactions"; "external_click"]
           = Some (JNum (z2 + 1))).
Proof.
  intros amazon external V Hfull Hz1 Hz2 a0.
  set (a1 := affiliate_clicked (ensured (today e) entry) z1).
  assert (Hstep1 : step c (ensured (today e) entry)
                     (CallAffiliateClick (VStr "amazon")) = Some a1)
    by (cbn [step]; now rewrite interactions_ensured, Hz1).
  assert (Hstep2 : step c (ensured (today e) entry)
                     (CallTrack "external_click")
                   = Some (tracked (ensured (today e) entry)
                                   "external_click" z2))
    by (cbn [step]; now rewrite interactions_ensured, Hz2).
  assert (Hstep12 : step c a1 (CallTrack "external_click")
                    = Some (tracked a1 "external_click" z2)).
  { cbn [step]. unfold counter_at, a1. cbn [affiliate_clicked interactions].
    rewrite assoc_get_set_other by discriminate.
    fold (counter_at (interactions (ensured (today e) entry))
            "external_click").
    now rewrite interactions_ensured, Hz2. }
  assert (Ha0 : affiliateClicks (ensured (today e) entry)
                = affiliateClicks a0) by (unfold a0; now destruct entry).
  split; [reflexivity|].
  split; [|split; [|split]]; intros Ham Hex;
    unfold on_click; fold amazon; fold external; rewrite Ham, Hex.
  - reflexivity.
  - destruct (calls_run c [(today e, CallTrack "external_click")]
                (today e, CallAffiliateClick (VStr "amazon"))
                b top japps entry (tracked a1 "external_click" z2) V Hfull)
      as (top' & japps' & Hrun & V').
    { cbn [steps fst snd]. rewrite Hstep1. cbn [steps]. now rewrite Hstep12. }
    exists (put_analytics b (Encoded (JObj top'))). split.
    + cbn [each] in Hrun. unfold run_dated_call in Hrun.
      cbn [fst snd run_call] in Hrun. unfold bind in Hrun |- *.
      destruct (onbAffiliateClick c (today e) (VStr "amazon") b);
        try discriminate.
      destruct (onbTrack c (today e) "external_click" b0) as [[] b1| |];
        try discriminate.
      exact Hrun.
    + pose proof (fun p => stored_entry_path
                    (put_analytics b (Encoded (JObj top')))
                    top' japps' (tracked a1 "external_click" z2)
                    (appName c) p eq_refl V') as Hpath.
      rewrite !Hpath.
      rewrite jpath_affiliateClicks, !jpath_interaction.
      cbn [tracked a1 affiliate_clicked interactions affiliateClicks].
      rewrite assoc_get_set_other by discriminate.
      rewrite !assoc_get_set_same, Ha0. repeat split.
  - destruct (run_call_stored c (today e) _ b top japps entry a1 V Hstep1
                Hfull) as [Hrun Hstored].
    eexists. split.
    + unfold bind. cbn [run_call] in Hrun. rewrite Hrun. reflexivity.
    + rewrite !Hstored, jpath_affiliateClicks, jpath_interaction.
      cbn [a1 affiliate_clicked interactions affiliateClicks].
      rewrite assoc_get_set_other by discriminate.
      rewrite interactions_ensured, Ha0. split; reflexivity.
  - destruct (run_call_stored c (today e) _ b top japps entry _ V Hstep2
                Hfull) as [Hrun Hstored].
    eexists. split.
    + unfold bind, ret. cbn [run_call] in Hrun. exact Hrun.
    + rewrite !Hstored, jpath_affiliateClicks, jpath_interaction.
      cbn [tracked interactions affiliateClicks].
      rewrite assoc_get_set_same, Ha0. split; reflexivity.
Qed.

Lemma X16_witness :
  (exists b',
     on_click quiz_context clock (Some amazon_link) quiz_loaded
     = Returns tt b'
     /\ stored_at b' ["apps"; "quiz"; "affiliateClicks"] = Some (JNum 1)
     /\ stored_at b' ["apps"; "quiz"; "interactions"; "affiliate_click"]
        = Some (JNum 1)
     /\ stored_at b' ["apps"; "quiz"; "interactions"; "external_click"]
        = Some (JNum 1))
  /\ on_click quiz_context clock (Some own_link) quiz_loaded
     = Returns tt quiz_loaded
  /\ (exists b',
        on_click quiz_context clock (Some own_affiliate_link) quiz_loaded
        = Returns tt b'
        /\ stored_at b' ["apps"; "quiz"; "affiliateClicks"] = Some (JNum 1)
        /\ stored_at b' ["apps"; "quiz"; "interactions"; "external_click"]
           = None).
Proof.
  split; [|split].
  - exact (proj1 (proj2 (proj2 (X16_click_listener quiz_context clock
             amazon_link quiz_loaded quiz_top quiz_apps (Some quiz_stats) 0 0
             quiz_view eq_refl eq_refl eq_refl))) eq_refl eq_refl).
  - exact (proj1 (proj2 (X16_click_listener quiz_context clock
             own_link quiz_loaded quiz_top quiz_apps (Some quiz_stats) 0 0
             quiz_view eq_refl eq_refl eq_refl)) eq_refl eq_refl).
  - exact (proj1 (proj2 (proj2 (proj2 (X16_click_listener quiz_context clock
             own_affiliate_link quiz_loaded quiz_top quiz_apps
             (Some quiz_stats) 0 0 quiz_view eq_refl eq_refl eq_refl))))
             eq_refl eq_refl).
Defined.

(** *** A stored document that is not an object *)

Lemma with_app_primitive c today mutate after b j :
  analytics_slot b = Some (Encoded j) -> primitive_document j = true ->
  with_app c today mutate after b = Throws TypeError b.
Proof.
  intros Hslot Hj. unfold with_app, loadData, try_catch, bind, get_analytics.
  rewrite Hslot. destruct j; try discriminate; reflexivity.
Qed.

(** X17.  loadData guards only the parse.  When the analytics slot holds
    valid JSON for null, a boolean or a number, loadData returns that
    primitive, the first property access or assignment of ensureApp throws a
    TypeError, and it leaves every recorder -- the four public functions,
    the pageview block and an in-range time-on-page flush -- with the
    browser stores untouched. *)
Theorem X17_primitive_document_throws c e today b j k :
  analytics_slot b = Some (Encoded j) ->
  primitive_document j = true ->
  run_call c today k b = Throws TypeError b
  /\ record_pageview c today b = Throws TypeError b
  /\ (1 <= round_div (now e - pageLoadTime c) 1000 <= 3600 ->
      recordTimeOnPage c e b = Throws TypeError b).
Proof.
  intros Hslot Hj. split; [|split].
  - destruct k as [ev | p | p | s m]; cbn [run_call];
      now apply with_app_primitive with j.
  - now apply with_app_primitive with j.
  - intros [Hlo Hhi]. unfold recordTimeOnPage.
    replace (round_div (now e - pageLoadTime c) 1000 <? 1) with false
      by (symmetry; apply Z.ltb_ge; lia).
    replace (3600 <? round_div (now e - pageLoadTime c) 1000) with false
      by (symmetry; apply Z.ltb_ge; lia).
    now apply with_app_primitive with j.
Qed.

Lemma X17_witness :
  run_call quiz_context "2026-11-03" (CallShare (Some "twitter"))
    (put_analytics quiz_loaded (Encoded (JNum 0)))
  = Throws TypeError (put_analytics quiz_loaded (Encoded (JNum 0)))
  /\ record_pageview quiz_context "2026-11-03"
       (put_analytics quiz_loaded (Encoded (JNum 0)))
     = Throws TypeError (put_analytics quiz_loaded (Encoded (JNum 0)))
  /\ recordTimeOnPage quiz_context hidden_clock
       (put_analytics quiz_loaded (Encoded (JNum 0)))
     = Throws TypeError (put_analytics quiz_loaded (Encoded (JNum 0))).
Proof.
  destruct (X17_primitive_document_throws quiz_context hidden_clock
              "2026-11-03" (put_analytics quiz_loaded (Encoded (JNum 0)))
              (JNum 0) (CallShare (Some "twitter")) eq_refl eq_refl)
    as (H1 & H2 & H3).
  split; [exact H1 | split; [exact H2 | apply H3; vm_compute; split; discriminate]].
Defined.

(** *** prepareForSave *)

Lemma truthy_serialized flat v j :
  truthy v = true -> serialize flat v = Some j -> falsy j = false.
Proof.
  destruct v as [| | [] | z | | s | l | m | l]; try discriminate;
    cbn [truthy]; intros Ht Hs.
  - now injection Hs as <-.
  - injection Hs as <-. cbn [falsy]. now apply negb_true_iff.
  - injection Hs as <-. cbn [falsy]. now apply negb_true_iff.
  - rewrite serialize_arr in Hs. now injection Hs as <-.
  - rewrite serialize_obj in Hs. now injection Hs as <-.
  - destruct flat; cbn [serialize] in Hs; now injection Hs as <-.
Qed.

Lemma truthy_serializes flat v :
  truthy v = true -> exists j, serialize flat v = Some j.
Proof.
  destruct v as [| | [] | z | | s | l | m | l]; try discriminate; intros _;
    destruct flat; eexists; reflexivity.
Qed.

(** X18.  On a document in memory whose [apps] member is truthy,
    prepareForSave returns a copy that holds no Set any more: stringifying
    it with or without the replacer gives the text the replacer gives on
    the original, and preparing the copy again returns it unchanged.  A
    document whose [apps] is falsy is handed back as it is, Sets
    included. *)
Theorem X18_prepareForSave_clean data apps :
  wf_value data = true ->
  get_prop data "apps" = Ok apps ->
  (truthy apps = true ->
   exists clean,
     prepareForSave data = Ok clean
     /\ serialize false clean = serialize true data
     /\ serialize true clean = serialize true data
     /\ prepareForSave clean = Ok clean)
  /\ (truthy apps = false -> prepareForSave data = Ok data).
Proof.
  intros Hwf Hget. split; intros Ht; unfold prepareForSave;
    rewrite Hget; cbn [rbind]; rewrite Ht; cbn [negb]; [|reflexivity].
  destruct data as [| | | | | | | m |]; cbn [get_prop] in Hget;
    try discriminate;
    try (destruct (inherited_name "apps"); [discriminate|];
         injection Hget as <-; discriminate).
  destruct (assoc_get m "apps") as [v|] eqn:Hm;
    [injection Hget as -> | now injection Hget as <-].
  destruct (truthy_serializes true apps Ht) as [ja Hja].
  pose proof Hwf as Hwf'. rewrite wf_value_obj in Hwf'.
  apply andb_true_iff in Hwf' as [Hd _].
  pose proof (assoc_get_ser_members true m "apps" apps ja Hd Hm Hja) as Hjm.
  rewrite serialize_obj.
  assert (Hwj : wf_json (JObj (ser_members true m)) = true)
    by (apply (wf_serialize true (VObj m)); [exact Hwf|apply serialize_obj]).
  exists (parse (JObj (ser_members true m))).
  rewrite (serialize_parse false _ Hwj), (serialize_parse true _ Hwj).
  repeat split.
  pose proof Hwj as Hwj'. rewrite wf_json_obj in Hwj'.
  apply andb_true_iff in Hwj' as [Hdj _].
  rewrite parse_obj_distinct by exact Hdj.
  cbn [get_prop]. rewrite assoc_get_vmap, Hjm. cbn [option_map rbind].
  rewrite truthy_parse, (truthy_serialized true apps ja Ht Hja). cbn [negb].
  now rewrite <- parse_obj_distinct by exact Hdj.
Qed.

Lemma X18_witness :
  (exists clean,
     prepareForSave (VObj [("apps", VObj [("quiz", live_app quiz_stats)])])
     = Ok clean
     /\ serialize false clean
        = serialize true (VObj [("apps", VObj [("quiz", live_app quiz_stats)])])
     /\ serialize true clean
        = serialize true (VObj [("apps", VObj [("quiz", live_app quiz_stats)])])
     /\ prepareForSave clean = Ok clean)
  /\ prepareForSave (VObj [("seen", VSet [VStr "v_1"])])
     = Ok (VObj [("seen", VSet [VStr "v_1"])]).
Proof.
  split.
  - exact (proj1 (X18_prepareForSave_clean
                    (VObj [("apps", VObj [("quiz", live_app quiz_stats)])])
                    (VObj [("quiz", live_app quiz_stats)])
                    eq_refl eq_refl) eq_refl).
  - exact (proj2 (X18_prepareForSave_clean
                    (VObj [("seen", VSet [VStr "v_1"])]) VUndef
                    eq_refl eq_refl) eq_refl).
Defined.

(** *** ensureApp *)

Lemma get_prop_truthy_object o k v :
  get_prop o k = Ok v -> truthy v = true ->
  exists m, o = VObj m /\ assoc_get m k = Some v.
Proof.
  destruct o as [| | | | | | | m |]; cbn [get_prop]; try discriminate;
    try (destruct (inherited_name k); [discriminate|];
         intros [= <-]; discriminate).
  destruct (assoc_get m k) as [x|] eqn:Hm; [intros [= ->] _; now exists m|].
  destruct (inherited_name k); [discriminate|]. intros [= <-]; discriminate.
Qed.

Lemma set_prop_object o k x o' :
  set_prop o k x = Ok o' ->
  exists m, o = VObj m /\ o' = VObj (assoc_set m k x).
Proof.
  destruct o as [| | | | | | | m |]; cbn [set_prop]; try discriminate;
    destruct (String.eqb k "__proto__"); try discriminate.
  intros [= <-]. now exists m.
Qed.

Lemma write_back_object o k x o' :
  write_back o k x = Ok o' ->
  exists m, o = VObj m /\ o' = VObj (assoc_set m k x).
Proof.
  destruct o as [| | | | | | | m |]; cbn [write_back]; try discriminate.
  intros [= <-]. now exists m.
Qed.

Lemma repair_visitors_shape entry entry' :
  repair_visitors entry = Ok entry' ->
  exists em l, entry' = VObj em
               /\ assoc_get em "uniqueVisitors" = Some (VSet l).
Proof.
  unfold repair_visitors.
  destruct (get_prop entry "uniqueVisitors") as [uv| |] eqn:Hget;
    cbn [rbind]; try discriminate.
  destruct uv as [| | | | | | l | | l];
    try (intros H; apply set_prop_object in H as (em & _ & ->);
         eexists; eexists; split;
         [reflexivity | apply assoc_get_set_same]).
  intros [= <-].
  destruct (get_prop_truthy_object _ _ _ Hget eq_refl) as (em & -> & Hem).
  now exists em, l.
Qed.

(** The shape of what a returning ensureApp hands out. *)
Lemma ensureApp_shape today data app data' entry' :
  ensureApp today data app = Ok (data', entry') ->
  exists m am em l,
    data' = VObj (assoc_set m "apps" (VObj (assoc_set am app (VObj em))))
    /\ entry' = VObj em
    /\ assoc_get em "uniqueVisitors" = Some (VSet l).
Proof.
  unfold ensureApp, commit_app.
  destruct (get_prop data "apps") as [apps0| |]; cbn [rbind];
    try discriminate.
  destruct (if negb (truthy apps0) then set_prop data "apps" (VObj [])
            else Ok data) as [data1| |]; cbn [rbind]; try discriminate.
  destruct (get_prop data1 "apps") as [apps1| |]; cbn [rbind];
    try discriminate.
  destruct (get_prop apps1 app) as [entry0| |]; cbn [rbind];
    try discriminate.
  destruct (if negb (truthy entry0) then set_prop apps1 app (fresh_app today)
            else Ok apps1) as [apps2| |]; cbn [rbind]; try discriminate.
  destruct (write_back data1 "apps" apps2) as [data2| |] eqn:Hw1;
    cbn [rbind]; try discriminate.
  destruct (get_prop apps2 app) as [entry1| |]; cbn [rbind];
    try discriminate.
  destruct (repair_visitors entry1) as [entry2| |] eqn:Hrep; cbn [rbind];
    try discriminate.
  apply write_back_object in Hw1 as (m1 & -> & ->).
  cbn [get_prop]. rewrite assoc_get_set_same. cbn [rbind].
  destruct (write_back apps2 app entry2) as [apps3| |] eqn:Hw2;
    cbn [rbind]; try discriminate.
  apply write_back_object in Hw2 as (am & -> & ->).
  cbn [write_back]. rewrite assoc_set_set. intros [= <- <-].
  destruct (repair_visitors_shape _ _ Hrep) as (em & l & -> & Hem).
  now exists m1, am, em, l.
Qed.

(** X19.  ensureApp is idempotent on the document in memory: whatever a
    returning call hands out, a second call on the result -- on any later
    day -- returns the same document and the same entry, so an existing
    entry keeps its firstSeen and its visitor set. *)
Theorem X19_ensureApp_idempotent day later data app data' entry' :
  ensureApp day data app = Ok (data', entry') ->
  ensureApp later data' app = Ok (data', entry').
Proof.
  intros H.
  destruct (ensureApp_shape _ _ _ _ _ H) as (m & am & em & l & -> & -> & Hem).
  unfold ensureApp, commit_app, repair_visitors.
  repeat (progress (cbn [get_prop rbind truthy negb write_back];
                    rewrite ?assoc_get_set_same, ?Hem, ?assoc_set_set)).
  reflexivity.
Qed.

Lemma X19_witness :
  ensureApp "2026-11-04"
    (VObj [("apps", VObj [("quiz", live_app (fresh_stats "2026-11-03"))])])
    "quiz"
  = Ok (VObj [("apps", VObj [("quiz", live_app (fresh_stats "2026-11-03"))])],
        live_app (fresh_stats "2026-11-03")).
Proof.
  apply (X19_ensureApp_idempotent "2026-11-03" "2026-11-04" (VObj []) "quiz").
  reflexivity.
Defined.

(** *** The guards of loadData and saveData *)

(** X20.  loadData never throws and never writes: it returns the parsed
    value of a stored JSON text and the empty object when the slot is
    absent, empty or does not parse.  saveData never throws either: on a
    full store it changes nothing, otherwise it replaces the analytics slot
    alone.  Saving what loadData returned writes back, unchanged, a stored
    text as JSON.stringify writes it whose objects name each member once
    and none by a digit string, and whose numbers are integers within
    2^53.  (Members with integer-like names are moved to the front by
    JSON.parse and JSON.stringify, and larger numbers are rounded: such a
    text is not written back as it was.) *)
Theorem X20_store_guards b data :
  (exists v,
     loadData b = Returns v b
     /\ (forall j, analytics_slot b = Some (Encoded j) -> v = parse j)
     /\ ((forall j, analytics_slot b <> Some (Encoded j)) -> v = VObj []))
  /\ (exists b',
        saveData data b = Returns tt b'
        /\ visitor_slot b' = visitor_slot b
        /\ session_slot b' = session_slot b
        /\ (local_full b = true -> b' = b)
        /\ (local_full b = false -> analytics_slot b' = Some (stringify data)))
  /\ (forall j, analytics_slot b = Some (Encoded j) -> wf_json j = true ->
      plain_json j = true ->
      local_full b = false ->
      bind loadData saveData b = Returns tt b).
Proof.
  split; [|split].
  - unfold loadData, try_catch, bind, get_analytics.
    destruct (analytics_slot b) as [[| |j]|]; cbn [text_or json_parse lift ret];
      eexists; (split; [reflexivity|]); split;
      try (intros j' [=]; congruence); try reflexivity.
    intros H. now destruct (H j).
  - unfold saveData, try_catch, set_analytics.
    destruct (local_full b) eqn:Hfull; eexists;
      (split; [reflexivity|]);
      repeat split; try reflexivity; try discriminate.
  - intros j Hslot Hwf _ Hfull.
    unfold loadData, saveData, try_catch, bind, get_analytics, set_analytics.
    cbv beta. rewrite Hslot. cbn [text_or json_parse lift]. rewrite Hfull.
    unfold stringify. rewrite (serialize_parse false j Hwf).
    destruct b as [v a s lf sf]. cbn in Hslot. subst a. reflexivity.
Qed.

Lemma X20_witness :
  bind loadData saveData quiz_loaded = Returns tt quiz_loaded.
Proof.
  exact (proj2 (proj2 (X20_store_guards quiz_loaded VNull))
           (JObj quiz_top) eq_refl eq_refl eq_refl eq_refl).
Defined.
